(** * Wardrobe tracker: wear counters, overview statistics and suggestions

    A shallow embedding of the parts of the application that keep the
    denormalised wear counters of a clothing item in step with the wear
    history, compute the overview statistics and maintain the suggestion
    cache, followed by the properties established about them.

    Conventions of the embedding:
    - a JavaScript string is a [string]; its code units are the 8-bit
      characters of [ascii], on which the default ordering of
      [Array.prototype.sort] is the ordering of [String.le];
    - a JavaScript number that holds a count or a time is a [Z]; one that
      holds a price is an IEEE 754 double ([float], the primitive binary64
      numbers); [NaN] from parsing, [null] and [undefined] are [None];
    - SQL [INTEGER] is a [Z], and arithmetic whose result leaves the 32-bit
      range raises, which makes the statement fail; [DECIMAL] is a [Q];
      [DATE] is a day number in [Z], [NULL] is [None];
    - a table with a primary key is a [gmap] from the key, the wear history
      (an append-only log) is a list of rows;
    - what the hosted backend, the object store and the clock answer is an
      input of the operation that asks. *)

From Stdlib Require Import ZArith QArith Lia Ascii String Floats.
From stdpp Require Import base gmap strings list sorting pretty.

Open Scope Z_scope.

(** ** JavaScript primitives used by the sources *)

Module Js.

(** WhiteSpace and LineTerminator code units removed by [String.prototype.trim]
    and skipped by [parseInt] (those below 256). *)
Definition is_white_space (c : ascii) : bool :=
  let n := Ascii.N_of_ascii c in
  ((9 <=? n) && (n <=? 13) || (n =? 32) || (n =? 160))%N.

Fixpoint trimStart (s : string) : string :=
  match s with
  | String c r => if is_white_space c then trimStart r else s
  | EmptyString => EmptyString
  end.

Definition trimEnd (s : string) : string :=
  String.rev (trimStart (String.rev s)).

Definition trim (s : string) : string := trimEnd (trimStart s).

(** Truthiness of a string: only the empty string is falsy. *)
Definition truthy (s : string) : bool :=
  match s with EmptyString => false | String _ _ => true end.

(** [s || null]. *)
Definition or_null (s : string) : option string :=
  if truthy s then Some s else None.

(** Value of a character as a digit in the given radix. *)
Definition digit_value (radix : Z) (c : ascii) : option Z :=
  let n := Z.of_N (Ascii.N_of_ascii c) in
  let v :=
    if (48 <=? n) && (n <=? 57) then Some (n - 48)
    else if (97 <=? n) && (n <=? 122) then Some (n - 87)
    else if (65 <=? n) && (n <=? 90) then Some (n - 55)
    else None in
  match v with
  | Some d => if d <? radix then Some d else None
  | None => None
  end.

(** The longest prefix of digits, read in the radix; [None] when the
    prefix is empty. *)
Fixpoint parse_digits (radix : Z) (acc : option Z) (s : string) : option Z :=
  match s with
  | String c r =>
      match digit_value radix c with
      | Some d => parse_digits radix (Some (default 0 acc * radix + d)) r
      | None => acc
      end
  | EmptyString => acc
  end.

(** [parseInt(s)] with no radix argument: leading white space, an optional
    sign, an optional [0x] prefix, then digits; [None] is [NaN]. *)
Definition parseInt (s : string) : option Z :=
  let s1 := trimStart s in
  let '(negative, s2) :=
    match s1 with
    | String "-"%char r => (true, r)
    | String "+"%char r => (false, r)
    | _ => (false, s1)
    end in
  let '(radix, s3) :=
    match s2 with
    | String "0"%char (String "x"%char r) => (16, r)
    | String "0"%char (String "X"%char r) => (16, r)
    | _ => (10, s2)
    end in
  match parse_digits radix None s3 with
  | Some n => Some (if negative : bool then - n else n)
  | None => None
  end.

(** [n || 0] on a number that may be [NaN]. *)
Definition or_zero (n : option Z) : Z :=
  match n with
  | Some v => if v =? 0 then 0 else v
  | None => 0
  end.

(** [Array.from(new Set(xs))]: the distinct values in the order of their
    first occurrence. *)
Definition array_from_set (xs : list string) : list string :=
  foldl (λ seen x, if decide (x ∈ seen) then seen else seen ++ [x]) [] xs.

(** [xs.sort()] with the default comparison.  The order on strings is
    total and antisymmetric, so the ascending arrangement is unique and
    any sorting algorithm computes it. *)
Definition sort (xs : list string) : list string :=
  merge_sort String.le xs.

(** [xs.includes(x)]. *)
Definition includes (xs : list string) (x : string) : bool :=
  bool_decide (x ∈ xs).

(** An integer as a double (exact below 2^53). *)
Definition float_of_Z (z : Z) : float :=
  match z with
  | Z0 => 0%float
  | Zpos _ => PrimFloat.of_uint63 (Uint63.of_Z z)
  | Zneg p => PrimFloat.opp (PrimFloat.of_uint63 (Uint63.of_Z (Zpos p)))
  end.

(** The number the client holds for a [DECIMAL(10,2)] of the database,
    which reaches it as a JSON number: the double nearest to it.  The
    numerator and the denominator of the reduced fraction are exact as
    doubles, and the division of doubles rounds to nearest. *)
Definition number (q : Q) : float :=
  PrimFloat.div (float_of_Z (Qnum (Qred q)))
                (float_of_Z (Zpos (Qden (Qred q)))).

(** Truthiness of a number: [0] and [NaN] are falsy. *)
Definition truthy_number (x : float) : bool :=
  negb (PrimFloat.eqb x 0%float || PrimFloat.is_nan x).

End Js.

(** ** The database schema and its trigger *)

Module Schema.

Abbreviation uuid := positive.
Abbreviation date := Z.
Abbreviation timestamptz := Z.

(** A row of [clothing_items]; the primary key [id] is the key of the
    table. *)
Record clothing_items_row := mk_clothing_item {
  user_id : uuid;
  name : string;
  category : string;
  subcategory : option string;
  brand : option string;
  color : option string;
  pattern : option string;
  material : option string;
  purchase_date : option string;
  purchase_price : option Q;
  purchase_location : option string;
  second_hand : bool;
  dog_wear : bool;
  times_worn : Z;
  last_worn_date : option date;
  image_urls : option (list string);
  notes : option string;
  created_at : timestamptz;
  updated_at : timestamptz
}.

(** A row of [wear_history]. *)
Record wear_history_row := mk_wear {
  wh_id : uuid;
  wh_user_id : uuid;
  clothing_item_id : uuid;
  date_worn : option date;
  wh_notes : option string;
  wh_created_at : timestamptz
}.

Record db := mk_db {
  clothing_items : gmap uuid clothing_items_row;
  wear_history : list wear_history_row
}.

Definition empty_db : db := mk_db ∅ [].

(** The range of SQL [INTEGER]. *)
Definition INT_MIN : Z := -2147483648.
Definition INT_MAX : Z := 2147483647.

(** The value of an [INTEGER] expression: what does not fit raises
    "integer out of range" ([None]). *)
Definition int4 (z : Z) : option Z :=
  if (INT_MIN <=? z) && (z <=? INT_MAX) then Some z else None.

(** The [SET] list shared by both branches of the trigger: the three
    columns it assigns. *)
Definition set_stats (tw : Z) (lw : option date) (now : timestamptz)
    (r : clothing_items_row) : clothing_items_row :=
  mk_clothing_item (user_id r) (name r) (category r) (subcategory r)
    (brand r) (color r) (pattern r) (material r) (purchase_date r)
    (purchase_price r) (purchase_location r) (second_hand r) (dog_wear r)
    tw lw (image_urls r) (notes r) (created_at r) now.

(** SQL [MAX] over a column: [NULL] when there is no row. *)
Definition sql_max (ds : list date) : option date :=
  match ds with
  | [] => None
  | d :: rest => Some (foldl Z.max d rest)
  end.

(** [SELECT MAX(date_worn) FROM wear_history
     WHERE clothing_item_id = k AND date_worn IS NOT NULL]. *)
Definition max_date_worn (wh : list wear_history_row) (k : uuid)
    : option date :=
  sql_max (omap date_worn
             (filter (λ r, clothing_item_id r = k) wh)).

Inductive TG_OP := INSERT | DELETE | UPDATE.

(** [UPDATE clothing_items SET ... WHERE id = k]: [set] is the [SET] list
    on the row found, [None] when one of its expressions raises; no row, no
    change. *)
Definition update_clothing_items (k : uuid)
    (set : clothing_items_row → option clothing_items_row) (d : db)
    : option db :=
  match clothing_items d !! k with
  | Some ci =>
      r ← set ci;
      Some (mk_db (<[k := r]> (clothing_items d)) (wear_history d))
  | None => Some d
  end.

(** [update_clothing_item_stats()], run AFTER INSERT OR DELETE on
    [wear_history] FOR EACH ROW; [row] is [NEW] on insertion and [OLD] on
    deletion, and the database is the one after the statement.  [None]:
    the function raises, and the statement that fired it is rolled back. *)
Definition update_clothing_item_stats (op : TG_OP) (row : wear_history_row)
    (now : timestamptz) (d : db) : option db :=
  match op with
  | INSERT =>
      update_clothing_items (clothing_item_id row)
        (λ ci,
           tw ← int4 (times_worn ci + 1);
           Some (set_stats tw
                   (match date_worn row with
                    | Some dw => Some dw
                    | None => last_worn_date ci
                    end)
                   now ci))
        d
  | DELETE =>
      update_clothing_items (clothing_item_id row)
        (λ ci,
           tw ← int4 (times_worn ci - 1);
           Some (set_stats (Z.max tw 0)
                   (max_date_worn (wear_history d) (clothing_item_id row))
                   now ci))
        d
  | UPDATE => Some d
  end.

(** The columns a client supplies when it inserts into [wear_history]. *)
Record wear_entry := mk_entry {
  e_user_id : uuid;
  e_clothing_item_id : uuid;
  e_date_worn : option date
}.

(** [INSERT INTO wear_history] of one row.  The foreign key to
    [clothing_items] makes the statement fail ([None]) when the item does
    not exist; otherwise the row gets a new id and the trigger runs, and
    the statement fails when the trigger raises. *)
Definition insert_wear_history (e : wear_entry) (now : timestamptz) (d : db)
    : option db :=
  match clothing_items d !! e_clothing_item_id e with
  | None => None
  | Some _ =>
      let row :=
        mk_wear (fresh (wh_id <$> wear_history d)) (e_user_id e)
          (e_clothing_item_id e) (e_date_worn e) None now in
      update_clothing_item_stats INSERT row now
        (mk_db (clothing_items d) (wear_history d ++ [row]))
  end.

(** One [INSERT] statement with several rows: all of them or none. *)
Definition insert_wear_history_rows (es : list wear_entry)
    (now : timestamptz) (d : db) : option db :=
  foldl (λ acc e, acc ≫= insert_wear_history e now) (Some d) es.

(** [DELETE FROM wear_history WHERE id = w]: no row, no trigger; the
    statement fails ([None]) when the trigger raises. *)
Definition delete_wear_history (w : uuid) (now : timestamptz) (d : db)
    : option db :=
  match list_find (λ r, wh_id r = w) (wear_history d) with
  | None => Some d
  | Some (_, old) =>
      update_clothing_item_stats DELETE old now
        (mk_db (clothing_items d)
               (filter (λ r, wh_id r ≠ w) (wear_history d)))
  end.

(** The columns a client supplies when it inserts into [clothing_items];
    the others take their defaults. *)
Definition insert_clothing_item (data : clothing_items_row) (d : db)
    : uuid * db :=
  let id := fresh (dom (clothing_items d)) in
  (id, mk_db (<[id := data]> (clothing_items d)) (wear_history d)).

(** A statement on the wear history, as the counter synchronisation sees
    it. *)
Inductive wear_statement :=
| InsertWear (e : wear_entry) (now : timestamptz)
| DeleteWear (w : uuid) (now : timestamptz).

(** A failed statement leaves the database as it was. *)
Definition run_statement (d : db) (s : wear_statement) : db :=
  match s with
  | InsertWear e now => default d (insert_wear_history e now d)
  | DeleteWear w now => default d (delete_wear_history w now d)
  end.

Definition run_statements (d : db) (ss : list wear_statement) : db :=
  foldl run_statement d ss.

End Schema.

(** ** utils/imageUpload.ts *)

Module ImageUpload.

Record ImageUploadResult := mk_result {
  success : bool;
  url : option string;
  error : option string
}.

(** What reading the local file and the object store answer to one upload:
    an exception with its message, an error of the store, or the public URL
    of the stored object. *)
Inductive upload_outcome :=
| Throws (message : string)
| UploadError (message : string)
| Uploaded (publicUrl : string).

(** The object store as the client sees it: the answer to the [n]-th upload
    of the session, for a local URI and a user. *)
Definition object_store : Type := nat → string → Schema.uuid → upload_outcome.

(** [uploadImage(uri, userId)]; [calls] is the number of uploads made before
    this one. *)
Definition uploadImage (store : object_store) (calls : nat) (uri : string)
    (userId : Schema.uuid) : ImageUploadResult :=
  match store calls uri userId with
  | UploadError m => mk_result false None (Some m)
  | Uploaded publicUrl => mk_result true (Some publicUrl) None
  | Throws m =>
      mk_result false None
        (Some (if Js.truthy m then m else "Failed to upload image"))
  end.

(** [uploadMultipleImages(uris, userId)]: the [for ... of] loop, one upload
    after the other, each result pushed on [results].  The second component
    is the log of the URIs sent to the store so far. *)
Definition uploadMultipleImages (store : object_store) (uris : list string)
    (userId : Schema.uuid) (log : list string)
    : list ImageUploadResult * list string :=
  foldl (λ '(results, log) uri,
           (results ++ [uploadImage store (length log) uri userId],
            log ++ [uri]))
        ([], log) uris.

End ImageUpload.

(** ** utils/suggestions.ts *)

Module Suggestions.

Record SuggestionsData := mk_suggestions {
  brands : list string;
  subcategories : list string
}.

(** Suggestion objects live in a store: the cache and the callers of
    [getSuggestions] may hold the same object, and
    [addToSuggestionsCache] changes it in place. *)
Abbreviation ref := positive.

Record state := mk_state {
  heap : gmap ref SuggestionsData;
  suggestionsCache : option ref;
  lastCacheTime : Z
}.

Definition initial : state := mk_state ∅ None 0.

Definition CACHE_DURATION : Z := 5 * 60 * 1000.

(** A row of [select('brand, subcategory')]. *)
Record item_columns := mk_columns {
  brand : option string;
  subcategory : option string
}.

(** The answer of the backend to the query: an [error] field, a rejected
    promise, or [data] (which may be [null]). *)
Inductive query_response :=
| QueryError
| QueryThrows
| QueryData (items : option (list item_columns)).

(** A new object literal. *)
Definition alloc (o : SuggestionsData) (st : state) : ref * state :=
  let r := fresh (dom (heap st)) in
  (r, mk_state (<[r := o]> (heap st)) (suggestionsCache st) (lastCacheTime st)).

(** [Boolean(v && v.trim())]. *)
Definition kept (v : option string) : option string :=
  match v with
  | Some s => if Js.truthy s && Js.truthy (Js.trim s) then Some s else None
  | None => None
  end.

(** [Array.from(new Set(col.filter(..).map(v => v.trim()))).sort()]. *)
Definition unique_values (col : list (option string)) : list string :=
  Js.sort (Js.array_from_set (Js.trim <$> omap kept col)).

Definition fresh_enough (now : Z) (forceRefresh : bool) (st : state) : bool :=
  negb forceRefresh && bool_decide (is_Some (suggestionsCache st))
  && (now - lastCacheTime st <? CACHE_DURATION).

(** [getSuggestions(userId, forceRefresh)] at time [now]; [query] is what the
    backend answers for a user.  The result is the object returned. *)
Definition getSuggestions (query : Schema.uuid → query_response) (now : Z)
    (userId : Schema.uuid) (forceRefresh : bool) (st : state) : ref * state :=
  match suggestionsCache st, fresh_enough now forceRefresh st with
  | Some r, true => (r, st)
  | _, _ =>
      match query userId with
      | QueryError | QueryThrows => alloc (mk_suggestions [] []) st
      | QueryData None | QueryData (Some []) =>
          let '(r, st1) := alloc (mk_suggestions [] []) st in
          (r, mk_state (heap st1) (Some r) now)
      | QueryData (Some items) =>
          let '(r, st1) :=
            alloc (mk_suggestions (unique_values (brand <$> items))
                                  (unique_values (subcategory <$> items))) st in
          (r, mk_state (heap st1) (Some r) now)
      end
  end.

Definition clearSuggestionsCache (st : state) : state :=
  mk_state (heap st) None 0.

Inductive suggestion_type := Brand | Subcategory.

(** [addToSuggestionsCache(type, value)]: [push] then [sort] on the array of
    the cached object. *)
Definition addToSuggestionsCache (type : suggestion_type) (value : string)
    (st : state) : state :=
  match suggestionsCache st with
  | None => st
  | Some r =>
      if negb (Js.truthy (Js.trim value)) then st
      else
        let trimmedValue := Js.trim value in
        match heap st !! r with
        | None => st
        | Some o =>
            match type with
            | Brand =>
                if negb (Js.includes (brands o) trimmedValue) then
                  mk_state
                    (<[r := mk_suggestions (Js.sort (brands o ++ [trimmedValue]))
                                           (subcategories o)]> (heap st))
                    (suggestionsCache st) (lastCacheTime st)
                else st
            | Subcategory =>
                if negb (Js.includes (subcategories o) trimmedValue) then
                  mk_state
                    (<[r := mk_suggestions (brands o)
                              (Js.sort (subcategories o ++ [trimmedValue]))]>
                       (heap st))
                    (suggestionsCache st) (lastCacheTime st)
                else st
            end
        end
  end.

End Suggestions.

(** ** components/AddItem.tsx *)

Module AddItem.

(** The form state: every text field is the text typed. *)
Record ClothingItem := mk_form {
  name : string;
  category : string;
  subcategory : string;
  brand : string;
  color : string;
  pattern : string;
  material : string;
  purchase_date : string;
  purchase_price : string;
  purchase_location : string;
  second_hand : bool;
  dog_wear : bool;
  times_worn : string;
  notes : string;
  images : list string
}.

(** What a button of an alert does when pressed. *)
Inductive action :=
| ProceedWithSave (imageUrls : list string)
| ResetForm
| RouterPush (path : string).

Record button := mk_button {
  text : string;
  onPress : option action
}.

(** [Alert.alert(title, message, buttons)]. *)
Record alert := mk_alert {
  title : string;
  message : string;
  buttons : list button
}.

Definition error_alert (m : string) : alert := mk_alert "Error" m [].

Definition success_alert : alert :=
  mk_alert "Success" "Item added successfully!"
    [mk_button "Add Another" (Some ResetForm);
     mk_button "View Overview" (Some (RouterPush "/"));
     mk_button "Done" None].

(** What is outside the component: [parseFloat], the object store, whether
    the backend acknowledges an insert, and the clock of the database. *)
Record backend := mk_backend {
  parseFloat : string → option Q;
  store : ImageUpload.object_store;
  accepts_item : Schema.clothing_items_row → bool;
  accepts_wear : list Schema.wear_entry → bool;
  now : Schema.timestamptz
}.

Record world := mk_world {
  w_db : Schema.db;
  w_suggestions : Suggestions.state;
  w_uploads : list string
}.

(** [clothingItemData], with the defaults of the columns it leaves out. *)
Definition clothingItemData (b : backend) (userId : Schema.uuid)
    (item : ClothingItem) (imageUrls : list string)
    : Schema.clothing_items_row :=
  Schema.mk_clothing_item
    userId
    (Js.trim (name item))
    (category item)
    (Js.or_null (Js.trim (subcategory item)))
    (Js.or_null (Js.trim (brand item)))
    (Js.or_null (Js.trim (color item)))
    (Js.or_null (Js.trim (pattern item)))
    (Js.or_null (Js.trim (material item)))
    (Js.or_null (purchase_date item))
    (if Js.truthy (purchase_price item)
     then parseFloat b (purchase_price item) else None)
    (Js.or_null (Js.trim (purchase_location item)))
    (second_hand item)
    (dog_wear item)
    (Js.or_zero (Js.parseInt (times_worn item)))
    None
    (if (0 <? length imageUrls)%nat then Some imageUrls else None)
    (Js.or_null (Js.trim (notes item)))
    (now b)
    (now b).

(** [Array(timesWorn).fill(null).map(() => ({...}))]. *)
Definition wearHistoryEntries (userId id : Schema.uuid) (timesWorn : Z)
    : list Schema.wear_entry :=
  replicate (Z.to_nat timesWorn) (Schema.mk_entry userId id None).

(** [proceedWithSave(imageUrls)] for a signed-in user. *)
Definition proceedWithSave (b : backend) (userId : Schema.uuid)
    (item : ClothingItem) (imageUrls : list string) (w : world)
    : world * alert :=
  let data := clothingItemData b userId item imageUrls in
  if negb (accepts_item b data) then
    (w, error_alert "Failed to add item. Please try again.")
  else
    let '(id, d1) := Schema.insert_clothing_item data (w_db w) in
    let timesWorn := Js.or_zero (Js.parseInt (times_worn item)) in
    if (0 <? timesWorn) && (2 ^ 32 <=? timesWorn) then
      (* [Array(timesWorn)] raises a RangeError, caught below the insert *)
      (mk_world d1 (w_suggestions w) (w_uploads w),
       error_alert "Failed to add item. Please try again.")
    else
      let d2 :=
        if 0 <? timesWorn then
          let entries := wearHistoryEntries userId id timesWorn in
          if accepts_wear b entries then
            default d1 (Schema.insert_wear_history_rows entries (now b) d1)
          else d1
        else d1 in
      let s1 :=
        if Js.truthy (Js.trim (brand item)) then
          Suggestions.addToSuggestionsCache Suggestions.Brand
            (Js.trim (brand item)) (w_suggestions w)
        else w_suggestions w in
      let s2 :=
        if Js.truthy (Js.trim (subcategory item)) then
          Suggestions.addToSuggestionsCache Suggestions.Subcategory
            (Js.trim (subcategory item)) s1
        else s1 in
      (mk_world d2 s2 (w_uploads w), success_alert).

(** [uploadResults.filter(r => r.success && r.url).map(r => r.url!)]. *)
Definition successful_urls (uploadResults : list ImageUpload.ImageUploadResult)
    : list string :=
  omap (λ r, if ImageUpload.success r
             then match ImageUpload.url r with
                  | Some u => if Js.truthy u then Some u else None
                  | None => None
                  end
             else None)
       uploadResults.

Definition upload_error_alert (failed : nat) (imageUrls : list string) : alert :=
  mk_alert "Upload Error"
    ("Failed to upload " +:+ pretty failed
       +:+ " image(s). Continue without images?")
    [mk_button "Cancel" None;
     mk_button "Continue" (Some (ProceedWithSave imageUrls))].

(** [handleSave()]: the alert it ends with and the world it leaves. *)
Definition handleSave (b : backend) (user : option Schema.uuid)
    (item : ClothingItem) (w : world) : world * alert :=
  if negb (Js.truthy (Js.trim (name item))) then
    (w, error_alert "Please enter an item name")
  else if negb (Js.truthy (category item)) then
    (w, error_alert "Please select a category")
  else
    match user with
    | None => (w, error_alert "Please sign in to add items")
    | Some userId =>
        if (0 <? length (images item))%nat then
          let '(uploadResults, log) :=
            ImageUpload.uploadMultipleImages (store b) (images item) userId
              (w_uploads w) in
          let w1 := mk_world (w_db w) (w_suggestions w) log in
          let failedUploads :=
            filter (λ r, ImageUpload.success r = false) uploadResults in
          if (0 <? length failedUploads)%nat then
            (w1, upload_error_alert (length failedUploads)
                   (successful_urls uploadResults))
          else
            proceedWithSave b userId item (successful_urls uploadResults) w1
        else proceedWithSave b userId item [] w
    end.

(** Pressing a button of an alert shown by [handleSave]: only the
    continuation of the save touches the world. *)
Definition press (b : backend) (userId : Schema.uuid) (item : ClothingItem)
    (btn : button) (w : world) : world * option alert :=
  match onPress btn with
  | Some (ProceedWithSave imageUrls) =>
      let '(w', a) := proceedWithSave b userId item imageUrls w in
      (w', Some a)
  | Some ResetForm | Some (RouterPush _) | None => (w, None)
  end.

End AddItem.

(** ** app/index.tsx *)

Module Overview.

Record MostWorn := mk_most_worn {
  mw_name : string;
  mw_times_worn : Z
}.

Record OverviewStats := mk_stats {
  totalItems : nat;
  totalTimesWorn : Z;
  totalValue : float;
  categoryCounts : gmap string nat;
  mostWornItem : option MostWorn
}.

(** [p || 0] on a price: [null], [0] and [NaN] are falsy. *)
Definition price_or_zero (p : option Q) : float :=
  match p with
  | Some q =>
      let x := Js.number q in if Js.truthy_number x then x else 0%float
  | None => 0%float
  end.

(** [item.times_worn || 0]. *)
Definition worn (item : Schema.clothing_items_row) : Z :=
  Js.or_zero (Some (Schema.times_worn item)).

(** The reducer of the most worn item, from the seed [null]. *)
Definition most_worn_step (max : option Schema.clothing_items_row)
    (item : Schema.clothing_items_row) : option Schema.clothing_items_row :=
  match max with
  | None => Some item
  | Some m => if worn m <? worn item then Some item else Some m
  end.

(** The statistics [fetchStats] computes from the rows it fetched, in the
    order the query returned them ([recentlyAdded], which reads the local
    calendar, is left out). *)
Definition fetchStats (items : list Schema.clothing_items_row) : OverviewStats :=
  mk_stats
    (length items)
    (foldl (λ sum item, sum + worn item) 0 items)
    (foldl (λ sum item,
              PrimFloat.add sum (price_or_zero (Schema.purchase_price item)))
           0%float items)
    (foldl (λ counts item,
              <[Schema.category item :=
                  (default 0 (counts !! Schema.category item) + 1)%nat]> counts)
           ∅ items)
    (match foldl most_worn_step None items with
     | Some m => Some (mk_most_worn (Schema.name m) (Schema.times_worn m))
     | None => None
     end).

End Overview.

(** ** The item detail screen *)

Module ItemDetail.

(** [item.purchase_price && item.times_worn > 0
      ? item.purchase_price / item.times_worn : null]:
    a price is truthy when it is not zero; the quotient is a quotient of
    doubles. *)
Definition costPerWear (item : Schema.clothing_items_row) : option float :=
  match Schema.purchase_price item with
  | Some p =>
      if Js.truthy_number (Js.number p) && (0 <? Schema.times_worn item)
      then Some (PrimFloat.div (Js.number p)
                   (Js.float_of_Z (Schema.times_worn item)))
      else None
  | None => None
  end.

End ItemDetail.

(** ** components/QuickWearTracker.tsx *)

Module QuickWearTracker.

(** The columns the tracker keeps of each item in its local state. *)
Record ClothingItem := mk_item {
  id : Schema.uuid;
  name : string;
  category : string;
  times_worn : Z;
  last_worn_date : option Schema.date
}.

Definition failed_alert : AddItem.alert :=
  AddItem.error_alert "Failed to add wear. Please try again.".

(** [handleAddWear(item)] on the day [today]: the wear-history insert, then
    the update of the local list when the insert went through. *)
Definition handleAddWear (user : option Schema.uuid)
    (addingWearFor : option Schema.uuid) (today : Schema.date)
    (now : Schema.timestamptz) (item : ClothingItem)
    (items : list ClothingItem) (d : Schema.db)
    : list ClothingItem * Schema.db * option AddItem.alert :=
  match user with
  | None => (items, d, None)
  | Some userId =>
      if bool_decide (addingWearFor = Some (id item)) then (items, d, None)
      else
        match Schema.insert_wear_history
                (Schema.mk_entry userId (id item) (Some today)) now d with
        | None => (items, d, Some failed_alert)
        | Some d' =>
            ((λ i, if bool_decide (id i = id item)
                   then mk_item (id i) (name i) (category i)
                          (times_worn i + 1) (Some today)
                   else i) <$> items,
             d', None)
        end
  end.

End QuickWearTracker.

(** ** Notions used to state the properties *)

Module Props.



(** What the insertion branch of the trigger assigns to the row of the
    item. *)
Definition bump (dw : option Schema.date) (now : Schema.timestamptz)
    (ci : Schema.clothing_items_row) : Schema.clothing_items_row :=
  Schema.set_stats (Schema.times_worn ci + 1)
    (match dw with Some d => Some d | None => Schema.last_worn_date ci end)
    now ci.

(** What the deletion branch of the trigger assigns to the row of the
    item; [lw] is the greatest date of the wear rows that remain. *)
Definition drop (lw : option Schema.date) (now : Schema.timestamptz)
    (ci : Schema.clothing_items_row) : Schema.clothing_items_row :=
  Schema.set_stats (Z.max (Schema.times_worn ci - 1) 0) lw now ci.

(** The value fits SQL [INTEGER]. *)
Definition fits (z : Z) : Prop := Schema.INT_MIN ≤ z ≤ Schema.INT_MAX.

(** A list of suggestions is in order: no value twice, ascending. *)
Definition ordered (xs : list string) : Prop :=
  NoDup xs ∧ StronglySorted String.le xs.

Definition well_formed (o : Suggestions.SuggestionsData) : Prop :=
  ordered (Suggestions.brands o) ∧ ordered (Suggestions.subcategories o).

(** Every suggestion object ever handed out is well formed, and the cache
    refers to one of them. *)
Definition suggestions_inv (st : Suggestions.state) : Prop :=
  (∀ r o, Suggestions.heap st !! r = Some o → well_formed o) ∧
  (∀ r, Suggestions.suggestionsCache st = Some r →
        is_Some (Suggestions.heap st !! r)).

(** The store accepted the upload. *)
Definition accepted (o : ImageUpload.upload_outcome) : bool :=
  match o with
  | ImageUpload.Uploaded _ => true
  | _ => false
  end.

(** The public URLs the store handed out for a batch of uploads sent one
    after the other, the first of them as upload number [n0], in the order
    of the batch. *)
Fixpoint stored_urls (store : ImageUpload.object_store)
    (userId : Schema.uuid) (n0 : nat) (uris : list string) : list string :=
  match uris with
  | [] => []
  | uri :: rest =>
      match store n0 uri userId with
      | ImageUpload.Uploaded u => u :: stored_urls store userId (S n0) rest
      | _ => stored_urls store userId (S n0) rest
      end
  end.

(** The number of uploads of the batch the store did not accept. *)
Fixpoint failed_count (store : ImageUpload.object_store)
    (userId : Schema.uuid) (n0 : nat) (uris : list string) : nat :=
  match uris with
  | [] => 0
  | uri :: rest =>
      (if accepted (store n0 uri userId) then 0 else 1)
      + failed_count store userId (S n0) rest
  end%nat.

(** The results of the uploads of a batch, numbered from [n0]. *)
Fixpoint results_from (store : ImageUpload.object_store)
    (userId : Schema.uuid) (n0 : nat) (uris : list string)
    : list ImageUpload.ImageUploadResult :=
  match uris with
  | [] => []
  | uri :: rest =>
      ImageUpload.uploadImage store n0 uri userId
        :: results_from store userId (S n0) rest
  end.

(** The operation ended in a validation error and wrote nothing. *)
Definition rejected (w : AddItem.world) (out : AddItem.world * AddItem.alert)
    : Prop :=
  out.1 = w ∧ AddItem.title out.2 = "Error".

End Props.

(** ** Sample data *)

Module Examples.

(** 2024-01-01 and 2024-03-15 as day numbers. *)
Definition d_2024_01_01 : Schema.date := 19723.
Definition d_2024_03_15 : Schema.date := 19797.

Definition shirt (tw : Z) (lw : option Schema.date) (price : option Q)
    : Schema.clothing_items_row :=
  Schema.mk_clothing_item 7 "Shirt" "tops" None None None None None None price
    None false false tw lw None None 0 0.

(** A database with one item, under the id 1, and no wear history. *)
Definition one_item (r : Schema.clothing_items_row) : Schema.db :=
  Schema.mk_db {[ 1%positive := r ]} [].

Definition wear (dw : option Schema.date) : Schema.wear_entry :=
  Schema.mk_entry 7 1 dw.

(** A backend that acknowledges every insert, and a store that refuses the
    second upload of the session. *)
Definition backend : AddItem.backend :=
  AddItem.mk_backend
    (λ _, None)
    (λ n uri _, if decide (n = 1%nat) then ImageUpload.UploadError "refused"
                else ImageUpload.Uploaded ("https://cdn.example/" +:+ uri))
    (λ _, true) (λ _, true) 1000.

Definition form (times_worn : string) (images : list string)
    : AddItem.ClothingItem :=
  AddItem.mk_form "Shirt" "tops" "" "" "" "" "" "" "" "" false false
    times_worn "" images.

Definition empty_world : AddItem.world :=
  AddItem.mk_world Schema.empty_db Suggestions.initial [].

(** The division of the database on quotients that need no rounding, such
    as 500 / 2. *)
Definition unrounded (p : Q) (n : Z) : Q := Qred (p / inject_Z n).

End Examples.

(** ** More of the database schema: the statistics view and the cascade *)

Module SchemaExt.

(** The number of wear rows that reference an item. *)
Definition wear_count (wh : list Schema.wear_history_row) (k : Schema.uuid)
    : nat :=
  length (filter (λ r, Schema.clothing_item_id r = k) wh).

(** The dates of the dated wear rows of an item:
    [WHERE clothing_item_id = k AND date_worn IS NOT NULL]. *)
Definition dated (wh : list Schema.wear_history_row) (k : Schema.uuid)
    : list Schema.date :=
  omap Schema.date_worn (filter (λ r, Schema.clothing_item_id r = k) wh).

(** SQL [MIN] over a column: [NULL] when there is no row. *)
Definition sql_min (ds : list Schema.date) : option Schema.date :=
  match ds with
  | [] => None
  | d :: rest => Some (foldl Z.min d rest)
  end.

(** A row of the grouped subquery [wh] of the view: there is one for each
    item that has at least one dated wear row. *)
Record wear_group := mk_group {
  g_total_wears : Z;
  g_first_worn : option Schema.date;
  g_most_recent_wear : option Schema.date
}.

Definition wh_group (wh : list Schema.wear_history_row) (k : Schema.uuid)
    : option wear_group :=
  match dated wh k with
  | [] => None
  | ds => Some (mk_group (Z.of_nat (length ds)) (sql_min ds) (Schema.sql_max ds))
  end.

(** A row of [clothing_items_with_stats]. *)
Record stats_row := mk_stats_row {
  item : Schema.clothing_items_row;
  total_wears : Z;
  first_worn : option Schema.date;
  most_recent_wear : option Schema.date;
  cost_per_wear : option Q
}.

(** The [SELECT] list of the view for one item, after the [LEFT JOIN].
    [numeric_div] is the operator [/] of the database on a [NUMERIC] and a
    [BIGINT]: the quotient rounded to the scale the database chooses for
    it. *)
Definition view_row (numeric_div : Q → Z → Q)
    (wh : list Schema.wear_history_row) (k : Schema.uuid)
    (ci : Schema.clothing_items_row) : stats_row :=
  let g := wh_group wh k in
  mk_stats_row ci
    (default 0 (g_total_wears <$> g))
    (g ≫= g_first_worn)
    (g ≫= g_most_recent_wear)
    (match Schema.purchase_price ci with
     | Some p =>
         if 0 <? default 0 (g_total_wears <$> g)
         then Some (numeric_div p (default 1 (g_total_wears <$> g)))
         else None
     | None => None
     end).

(** The view, keyed by the id of the item. *)
Definition clothing_items_with_stats (numeric_div : Q → Z → Q)
    (d : Schema.db) : gmap Schema.uuid stats_row :=
  map_imap (λ k ci, Some (view_row numeric_div (Schema.wear_history d) k ci))
           (Schema.clothing_items d).

(** [DELETE FROM clothing_items WHERE id = k]: the wear rows that reference
    the item go with it ([ON DELETE CASCADE]), and the trigger runs for each
    of them on the database after the deletion. *)
Definition delete_clothing_item (k : Schema.uuid) (now : Schema.timestamptz)
    (d : Schema.db) : option Schema.db :=
  foldl (λ acc old,
           acc ≫= Schema.update_clothing_item_stats Schema.DELETE old now)
        (Some (Schema.mk_db
                 (delete k (Schema.clothing_items d))
                 (filter (λ r, Schema.clothing_item_id r ≠ k)
                         (Schema.wear_history d))))
        (filter (λ r, Schema.clothing_item_id r = k) (Schema.wear_history d)).

(** A statement on either table. *)
Inductive statement :=
| OnWear (s : Schema.wear_statement)
| InsertItem (data : Schema.clothing_items_row)
| DeleteItem (k : Schema.uuid) (now : Schema.timestamptz).

Definition run (d : Schema.db) (s : statement) : Schema.db :=
  match s with
  | OnWear s => Schema.run_statement d s
  | InsertItem data => (Schema.insert_clothing_item data d).2
  | DeleteItem k now => default d (delete_clothing_item k now d)
  end.

Definition run_all (d : Schema.db) (ss : list statement) : Schema.db :=
  foldl run d ss.

(** The ids of the wear rows are distinct (the primary key). *)
Definition unique_ids (d : Schema.db) : Prop :=
  NoDup (Schema.wh_id <$> Schema.wear_history d).

(** Every wear row references an item of the database (the foreign key). *)
Definition references_ok (d : Schema.db) : Prop :=
  ∀ r, r ∈ Schema.wear_history d →
       is_Some (Schema.clothing_items d !! Schema.clothing_item_id r).

(** The counter of every item is the number of its wear rows. *)
Definition counters_ok (d : Schema.db) : Prop :=
  ∀ k ci, Schema.clothing_items d !! k = Some ci →
          Schema.times_worn ci = Z.of_nat (wear_count (Schema.wear_history d) k).

(** The columns of a row of [clothing_items] that the trigger does not
    assign. *)
Definition details (r : Schema.clothing_items_row) :=
  (Schema.user_id r, Schema.name r, Schema.category r, Schema.subcategory r,
   Schema.brand r, Schema.color r, Schema.pattern r, Schema.material r,
   Schema.purchase_date r, Schema.purchase_price r,
   Schema.purchase_location r, Schema.second_hand r, Schema.dog_wear r,
   Schema.image_urls r, Schema.notes r, Schema.created_at r).

Definition same_details (a b : Schema.clothing_items_row) : Prop :=
  details a = details b.

End SchemaExt.

(** ** utils/imageUpload.ts: file names and storage paths *)

Module Paths.

(** [s.split(sep)] for a one-character separator. *)
Fixpoint split (sep : ascii) (s : string) : list string :=
  match s with
  | EmptyString => [EmptyString]
  | String c r =>
      if Ascii.eqb c sep then EmptyString :: split sep r
      else match split sep r with
           | seg :: segs => String c seg :: segs
           | [] => [String c EmptyString]
           end
  end.

(** [parts.join(sep)]. *)
Definition join (sep : string) (parts : list string) : string :=
  String.concat sep parts.

(** The character does not occur in the string. *)
Fixpoint free_of (c : ascii) (s : string) : Prop :=
  match s with
  | EmptyString => True
  | String c' r => c' ≠ c ∧ free_of c r
  end.

(** [uri.split('.').pop() || 'jpg']. *)
Definition fileExtension (uri : string) : string :=
  match last (split "." uri) with
  | Some e => if Js.truthy e then e else "jpg"
  | None => "jpg"
  end.

(** [fileName || `image_${timestamp}.${fileExtension}`]. *)
Definition finalFileName (timestamp : Z) (uri : string)
    (fileName : option string) : string :=
  let generated :=
    "image_" +:+ pretty timestamp +:+ "." +:+ fileExtension uri in
  match fileName with
  | Some f => if Js.truthy f then f else generated
  | None => generated
  end.

(** [`${userId}/${finalFileName}`]. *)
Definition filePath (userId : string) (timestamp : Z) (uri : string)
    (fileName : option string) : string :=
  userId +:+ "/" +:+ finalFileName timestamp uri fileName.

(** [pathParts.indexOf(x)]. *)
Definition indexOf (parts : list string) (x : string) : option nat :=
  fst <$> list_find (λ p, p = x) parts.

(** [getFilePathFromUrl(url)]; [pathname] is the [pathname] of [new URL(url)],
    [None] when the constructor throws. *)
Definition getFilePathFromUrl (pathname : string → option string)
    (url : string) : option string :=
  match pathname url with
  | None => None
  | Some p =>
      let pathParts := split "/" p in
      match indexOf pathParts "clothing-images" with
      | Some bucketIndex =>
          if (bucketIndex <? length pathParts - 1)%nat
          then Some (join "/" (drop (bucketIndex + 1) pathParts))
          else None
      | None => None
      end
  end.

End Paths.

(** ** utils/suggestions.ts: the query restricted to a category *)

Module SuggestionsExt.

(** The answer of the backend to [select('subcategory')] for a user and a
    category. *)
Inductive category_response :=
| CategoryError
| CategoryThrows
| CategoryData (items : option (list (option string))).

(** [getSubcategorySuggestionsForCategory(userId, category)]: the cache is
    neither read nor written. *)
Definition getSubcategorySuggestionsForCategory
    (query : Schema.uuid → string → category_response)
    (userId : Schema.uuid) (category : string) : list string :=
  match query userId category with
  | CategoryError | CategoryThrows | CategoryData None => []
  | CategoryData (Some items) => Suggestions.unique_values items
  end.

(** [getBrandSuggestions] and [getSubcategorySuggestions]: the array of the
    object [getSuggestions] returns, and the state it leaves. *)
Definition getBrandSuggestions (query : Schema.uuid → Suggestions.query_response)
    (now : Z) (userId : Schema.uuid) (forceRefresh : bool)
    (st : Suggestions.state) : list string * Suggestions.state :=
  let '(r, st') := Suggestions.getSuggestions query now userId forceRefresh st in
  (default [] (Suggestions.brands <$> Suggestions.heap st' !! r), st').

Definition getSubcategorySuggestions
    (query : Schema.uuid → Suggestions.query_response)
    (now : Z) (userId : Schema.uuid) (forceRefresh : bool)
    (st : Suggestions.state) : list string * Suggestions.state :=
  let '(r, st') := Suggestions.getSuggestions query now userId forceRefresh st in
  (default [] (Suggestions.subcategories <$> Suggestions.heap st' !! r), st').

End SuggestionsExt.

(** ** components/ImagePicker.tsx: the photo picker *)

Module ClothingImagePicker.

(** [xs.slice(0, n)] for an integer [n]: a negative [n] counts from the
    end. *)
Definition slice0 (n : Z) (xs : list string) : list string :=
  if 0 <=? n then take (Z.to_nat n) xs
  else take (length xs - Z.to_nat (- n)) xs.

Definition canAddMore (images : list string) (maxImages : Z) : bool :=
  Z.of_nat (length images) <? maxImages.

(** [takePhoto]: [result] is the URI of the photo, [None] when the camera was
    cancelled or gave no asset. *)
Definition takePhoto (result : option string) (images : list string)
    : list string :=
  match result with
  | Some uri => images ++ [uri]
  | None => images
  end.

(** [pickFromLibrary]: [result] is the list of the URIs picked, [None] when
    the library was cancelled. *)
Definition pickFromLibrary (maxImages : Z) (result : option (list string))
    (images : list string) : list string :=
  match result with
  | Some (uri :: uris) => slice0 maxImages (images ++ uri :: uris)
  | Some [] | None => images
  end.

(** [images.filter((_, i) => i !== index)]. *)
Definition removeImage (index : nat) (images : list string) : list string :=
  snd <$> filter (λ p, p.1 ≠ index) (imap pair images).

(** What the user can do with the picker: the add button, behind which the
    camera and the library are, is rendered only when [canAddMore]. *)
Inductive event :=
| Photo (result : option string)
| Library (result : option (list string))
| Remove (index : nat).

Definition step (maxImages : Z) (images : list string) (e : event)
    : list string :=
  match e with
  | Photo result =>
      if canAddMore images maxImages then takePhoto result images else images
  | Library result =>
      if canAddMore images maxImages
      then pickFromLibrary maxImages result images else images
  | Remove index => removeImage index images
  end.

End ClothingImagePicker.

(** ** The searchable dropdown *)

Module SearchableDropdown.

(** [toLowerCase] on one code unit below 256. *)
Definition lower (c : ascii) : ascii :=
  let n := Ascii.N_of_ascii c in
  if ((65 <=? n) && (n <=? 90)
      || (192 <=? n) && (n <=? 222) && negb (n =? 215))%N
  then Ascii.ascii_of_N (n + 32) else c.

Fixpoint toLowerCase (s : string) : string :=
  match s with
  | EmptyString => EmptyString
  | String c r => String (lower c) (toLowerCase r)
  end.

(** [hay.includes(needle)]. *)
Fixpoint includes (needle hay : string) : bool :=
  String.prefix needle hay
  || match hay with
     | EmptyString => false
     | String _ r => includes needle r
     end.

(** The test of the filter: the suggestion contains the text typed and is
    not the text typed, both without regard to case. *)
Definition matches (value suggestion : string) : bool :=
  includes (toLowerCase value) (toLowerCase suggestion)
  && negb (String.eqb (toLowerCase suggestion) (toLowerCase value)).

(** The effect that follows a change of the text, of the suggestions or of
    the focus: [(filteredSuggestions, showSuggestions)]. *)
Definition filtered (value : string) (suggestions : list string)
    (maxSuggestions : Z) (inputFocused : bool) : list string * bool :=
  if Js.truthy value && (0 <? length suggestions)%nat then
    let filtered :=
      ClothingImagePicker.slice0 maxSuggestions
        (filter (λ s, matches value s = true) suggestions) in
    (filtered, (0 <? length filtered)%nat && inputFocused)
  else ([], false).

End SearchableDropdown.

(** ** The item detail screen: editing an item *)

Module ItemDetailEdit.

(** The edit form. *)
Record EditedItem := mk_edited {
  name : string;
  brand : string;
  subcategory : string;
  color : string;
  pattern : string;
  material : string;
  purchase_location : string;
  notes : string;
  image_urls : list string
}.

(** The columns the edit assigns. *)
Record UpdateData := mk_update {
  u_name : string;
  u_brand : option string;
  u_subcategory : option string;
  u_color : option string;
  u_pattern : option string;
  u_material : option string;
  u_purchase_location : option string;
  u_notes : option string;
  u_image_urls : option (list string)
}.

Definition updateData (e : EditedItem) (imageUrls : list string) : UpdateData :=
  mk_update
    (Js.trim (name e))
    (Js.or_null (Js.trim (brand e)))
    (Js.or_null (Js.trim (subcategory e)))
    (Js.or_null (Js.trim (color e)))
    (Js.or_null (Js.trim (pattern e)))
    (Js.or_null (Js.trim (material e)))
    (Js.or_null (Js.trim (purchase_location e)))
    (Js.or_null (Js.trim (notes e)))
    (if (0 <? length imageUrls)%nat then Some imageUrls else None).

(** The row after [UPDATE clothing_items SET ...]; the trigger
    [update_clothing_items_updated_at] assigns [updated_at]. *)
Definition apply_update (u : UpdateData) (now : Schema.timestamptz)
    (r : Schema.clothing_items_row) : Schema.clothing_items_row :=
  Schema.mk_clothing_item (Schema.user_id r) (u_name u) (Schema.category r)
    (u_subcategory u) (u_brand u) (u_color u) (u_pattern u) (u_material u)
    (Schema.purchase_date r) (Schema.purchase_price r) (u_purchase_location u)
    (Schema.second_hand r) (Schema.dog_wear r) (Schema.times_worn r)
    (Schema.last_worn_date r) (u_image_urls u) (u_notes u)
    (Schema.created_at r) now.

(** [update(updateData).eq('id', k).select()]: the database and [data[0]]. *)
Definition update_clothing_item (k : Schema.uuid) (u : UpdateData)
    (now : Schema.timestamptz) (d : Schema.db)
    : Schema.db * option Schema.clothing_items_row :=
  match Schema.clothing_items d !! k with
  | None => (d, None)
  | Some r =>
      (Schema.mk_db (<[k := apply_update u now r]> (Schema.clothing_items d))
                    (Schema.wear_history d),
       Some (apply_update u now r))
  end.

(** What is outside the component: the object store, whether the backend
    acknowledges the update, and the clock of the database. *)
Record backend := mk_backend {
  store : ImageUpload.object_store;
  accepts_update : Schema.uuid → UpdateData → bool;
  now : Schema.timestamptz
}.

(** [url.startsWith('file://')]. *)
Definition is_local (url : string) : bool := String.prefix "file://" url.

(** [proceedWithSave(imageUrls)] of the detail screen, for the item [k]. *)
Definition proceedWithSave (b : backend) (k : Schema.uuid) (e : EditedItem)
    (imageUrls : list string) (w : AddItem.world)
    : AddItem.world * option AddItem.alert :=
  let u := updateData e imageUrls in
  if negb (accepts_update b k u) then
    (w, Some (AddItem.error_alert "Failed to save changes. Please try again."))
  else
    match update_clothing_item k u (now b) (AddItem.w_db w) with
    | (d', Some _) =>
        let s1 :=
          if Js.truthy (Js.trim (brand e)) then
            Suggestions.addToSuggestionsCache Suggestions.Brand
              (Js.trim (brand e)) (AddItem.w_suggestions w)
          else AddItem.w_suggestions w in
        let s2 :=
          if Js.truthy (Js.trim (subcategory e)) then
            Suggestions.addToSuggestionsCache Suggestions.Subcategory
              (Js.trim (subcategory e)) s1
          else s1 in
        (AddItem.mk_world d' s2 (AddItem.w_uploads w),
         Some (AddItem.mk_alert "Success" "Item updated successfully!" []))
    | (d', None) =>
        (AddItem.mk_world d' (AddItem.w_suggestions w) (AddItem.w_uploads w),
         None)
    end.

(** [uploadResults.find(result => result.success)?.url || url]. *)
Definition uploaded_or (uploadResults : list ImageUpload.ImageUploadResult)
    (url : string) : string :=
  match list_find (λ r, ImageUpload.success r = true) uploadResults with
  | Some (_, r) =>
      match ImageUpload.url r with
      | Some u => if Js.truthy u then u else url
      | None => url
      end
  | None => url
  end.

Definition upload_error_alert (failed : nat) (imageUrls : list string)
    : AddItem.alert :=
  AddItem.mk_alert "Upload Error"
    ("Failed to upload " +:+ pretty failed
       +:+ " image(s). Continue saving anyway?")
    [AddItem.mk_button "Cancel" None;
     AddItem.mk_button "Continue" (Some (AddItem.ProceedWithSave imageUrls))].

(** [handleSaveEdit()] for the item [k]. *)
Definition handleSaveEdit (b : backend) (user : option Schema.uuid)
    (k : Schema.uuid) (e : EditedItem) (w : AddItem.world)
    : AddItem.world * option AddItem.alert :=
  match user with
  | None => (w, None)
  | Some userId =>
      if negb (Js.truthy (Js.trim (name e))) then
        (w, Some (AddItem.error_alert "Item name is required"))
      else
        let localImages := filter (λ url, is_local url = true) (image_urls e) in
        if (0 <? length localImages)%nat then
          let '(uploadResults, log) :=
            ImageUpload.uploadMultipleImages (store b) localImages userId
              (AddItem.w_uploads w) in
          let w1 :=
            AddItem.mk_world (AddItem.w_db w) (AddItem.w_suggestions w) log in
          let failedUploads :=
            filter (λ r, ImageUpload.success r = false) uploadResults in
          if (0 <? length failedUploads)%nat then
            (w1, Some (upload_error_alert (length failedUploads)
                         (filter (λ url, is_local url = false) (image_urls e))))
          else
            proceedWithSave b k e
              ((λ url, if is_local url then uploaded_or uploadResults url
                       else url) <$> image_urls e)
              w1
        else proceedWithSave b k e (image_urls e) w
  end.

(** Pressing a button of an alert shown by [handleSaveEdit]. *)
Definition press (b : backend) (k : Schema.uuid) (e : EditedItem)
    (btn : AddItem.button) (w : AddItem.world)
    : AddItem.world * option AddItem.alert :=
  match AddItem.onPress btn with
  | Some (AddItem.ProceedWithSave imageUrls) => proceedWithSave b k e imageUrls w
  | Some AddItem.ResetForm | Some (AddItem.RouterPush _) | None => (w, None)
  end.

End ItemDetailEdit.

(** ** Notions on strings *)

Module JsProps.

(** The string does not start with white space. *)
Definition clean (s : string) : Prop :=
  match s with
  | String c _ => Js.is_white_space c = false
  | EmptyString => True
  end.

(** The string is made of white space only. *)
Definition blank (s : string) : Prop :=
  ∀ c, c ∈ list_ascii_of_string s → Js.is_white_space c = true.

End JsProps.

(** ** Notions on the edit of an item *)

Module EditProps.

(** The columns of a row of [clothing_items] that an edit does not
    assign. *)
Definition untouched (r : Schema.clothing_items_row) :=
  (Schema.user_id r, Schema.category r, Schema.purchase_date r,
   Schema.purchase_price r, Schema.second_hand r, Schema.dog_wear r,
   Schema.times_worn r, Schema.last_worn_date r, Schema.created_at r).

(** The local URIs among the images of the edit form, in order. *)
Definition localImages (e : ItemDetailEdit.EditedItem) : list string :=
  filter (λ url, ItemDetailEdit.is_local url = true)
         (ItemDetailEdit.image_urls e).

(** The URLs among the images of the edit form that are not local, in
    order. *)
Definition remoteImages (e : ItemDetailEdit.EditedItem) : list string :=
  filter (λ url, ItemDetailEdit.is_local url = false)
         (ItemDetailEdit.image_urls e).

(** What an edit of the item [k] may change in the database: the columns
    the edit assigns, in the row of this item; the wear history, the other
    rows and the other columns are as before, and no row appears or
    disappears. *)
Definition only_edits (k : Schema.uuid) (d d' : Schema.db) : Prop :=
  Schema.wear_history d' = Schema.wear_history d ∧
  (∀ j, j ≠ k →
        Schema.clothing_items d' !! j = Schema.clothing_items d !! j) ∧
  untouched <$> Schema.clothing_items d' !! k
  = untouched <$> Schema.clothing_items d !! k.

(** A backend that acknowledges every update, over a store that refuses the
    uploads numbered in [refused] and names the others after their
    number. *)
Definition example_backend (refused : list nat) : ItemDetailEdit.backend :=
  ItemDetailEdit.mk_backend
    (λ n _ _, if bool_decide (n ∈ refused)
              then ImageUpload.UploadError "refused"
              else ImageUpload.Uploaded ("https://cdn.example/" +:+ pretty n))
    (λ _ _, true) 2000.

Definition example_form (images : list string) : ItemDetailEdit.EditedItem :=
  ItemDetailEdit.mk_edited "Shirt" "Acme" "" "" "" "" "" "" images.

(** One item, worn three times, under the id 1. *)
Definition example_world : AddItem.world :=
  AddItem.mk_world
    (Examples.one_item
       (Examples.shirt 3 (Some Examples.d_2024_01_01) None))
    Suggestions.initial [].

End EditProps.

(** * Properties *)

(** ** The trigger and the wear history *)

Section Trigger.
Import Schema Props.

Lemma int4_fits z : fits z → int4 z = Some z.
Proof.
  unfold fits, int4. intros [Hlo Hhi].
  apply Z.leb_le in Hlo, Hhi. by rewrite Hlo, Hhi.
Qed.

Lemma int4_Some z z' : int4 z = Some z' → z' = z ∧ fits z.
Proof.
  unfold fits, int4.
  destruct (Z.leb_spec INT_MIN z), (Z.leb_spec z INT_MAX); simpl;
    intros [= <-]; done.
Qed.

Lemma int4_None z : ¬ fits z → int4 z = None.
Proof.
  unfold fits, int4. intros Hz.
  destruct (Z.leb_spec INT_MIN z), (Z.leb_spec z INT_MAX); simpl;
    [exfalso; apply Hz; lia|done..].
Qed.

Lemma insert_as_alter (f : clothing_items_row → clothing_items_row) k ci
    (m : gmap uuid clothing_items_row) :
  m !! k = Some ci → <[k := f ci]> m = alter f k m.
Proof.
  intros Hk. apply map_eq. intros j. destruct (decide (j = k)) as [->|Hj].
  - by rewrite lookup_insert_eq, lookup_alter_eq, Hk.
  - by rewrite lookup_insert_ne, lookup_alter_ne.
Qed.

Lemma alter_absent (f : clothing_items_row → clothing_items_row) k
    (m : gmap uuid clothing_items_row) :
  m !! k = None → alter f k m = m.
Proof.
  intros Hk. apply map_eq. intros j. destruct (decide (j = k)) as [->|Hj].
  - by rewrite lookup_alter_eq, Hk.
  - by rewrite lookup_alter_ne.
Qed.

(** The insertion branch of the trigger, when it does not raise, maps the
    row of the item through [bump]. *)
Lemma trigger_insert_Some row now d d' :
  update_clothing_item_stats INSERT row now d = Some d' →
  d' = mk_db (alter (bump (date_worn row) now) (clothing_item_id row)
                (clothing_items d))
             (wear_history d).
Proof.
  unfold update_clothing_item_stats, update_clothing_items.
  destruct (clothing_items d !! clothing_item_id row) as [ci|] eqn:Hk.
  - destruct (int4 (times_worn ci + 1)) as [tw|] eqn:Htw; simpl; [|done].
    apply int4_Some in Htw as [-> _]. intros [= <-].
    by rewrite <- (insert_as_alter (bump (date_worn row) now) _ ci).
  - intros [= <-]. rewrite alter_absent by done. by destruct d.
Qed.

Lemma trigger_insert_fits row now d ci :
  clothing_items d !! clothing_item_id row = Some ci →
  fits (times_worn ci + 1) →
  is_Some (update_clothing_item_stats INSERT row now d).
Proof.
  intros Hk Hfits. unfold update_clothing_item_stats, update_clothing_items.
  rewrite Hk, (int4_fits _ Hfits). simpl. eauto.
Qed.


(** The deletion branch of the trigger, when it does not raise, maps the
    row of the item through [drop]. *)
Lemma trigger_delete_Some old now d d' :
  update_clothing_item_stats DELETE old now d = Some d' →
  d' = mk_db (alter (drop (max_date_worn (wear_history d)
                             (clothing_item_id old)) now)
                (clothing_item_id old) (clothing_items d))
             (wear_history d).
Proof.
  unfold update_clothing_item_stats, update_clothing_items.
  destruct (clothing_items d !! clothing_item_id old) as [ci|] eqn:Hk.
  - destruct (int4 (times_worn ci - 1)) as [tw|] eqn:Htw; simpl; [|done].
    apply int4_Some in Htw as [-> _]. intros [= <-].
    by rewrite <- (insert_as_alter (drop _ now) _ ci).
  - intros [= <-]. rewrite alter_absent by done. by destruct d.
Qed.

Lemma trigger_delete_fits old now d ci :
  clothing_items d !! clothing_item_id old = Some ci →
  fits (times_worn ci - 1) →
  is_Some (update_clothing_item_stats DELETE old now d).
Proof.
  intros Hk Hfits. unfold update_clothing_item_stats, update_clothing_items.
  rewrite Hk, (int4_fits _ Hfits). simpl. eauto.
Qed.

Lemma trigger_delete_raises old now d ci :
  clothing_items d !! clothing_item_id old = Some ci →
  ¬ fits (times_worn ci - 1) →
  update_clothing_item_stats DELETE old now d = None.
Proof.
  intros Hk Hfits. unfold update_clothing_item_stats, update_clothing_items.
  by rewrite Hk, (int4_None _ Hfits).
Qed.

Lemma trigger_absent op row now d :
  clothing_items d !! clothing_item_id row = None →
  update_clothing_item_stats op row now d = Some d.
Proof.
  intros Hk. destruct op; simpl; unfold update_clothing_items;
    by rewrite ?Hk.
Qed.

Lemma insert_wear_history_items e now d d' :
  insert_wear_history e now d = Some d' →
  clothing_items d' =
    alter (bump (e_date_worn e) now) (e_clothing_item_id e) (clothing_items d).
Proof.
  unfold insert_wear_history.
  destruct (clothing_items d !! e_clothing_item_id e); [|done].
  intros H. by apply trigger_insert_Some in H as ->.
Qed.

Lemma insert_wear_history_log e now d d' :
  insert_wear_history e now d = Some d' →
  wear_history d' =
    wear_history d ++
      [mk_wear (fresh (wh_id <$> wear_history d)) (e_user_id e)
         (e_clothing_item_id e) (e_date_worn e) None now].
Proof.
  unfold insert_wear_history.
  destruct (clothing_items d !! e_clothing_item_id e); [|done].
  intros H. by apply trigger_insert_Some in H as ->.
Qed.

Lemma insert_wear_history_is_Some e now d ci :
  clothing_items d !! e_clothing_item_id e = Some ci →
  fits (times_worn ci + 1) →
  is_Some (insert_wear_history e now d).
Proof.
  intros Hci Hfits. unfold insert_wear_history. rewrite Hci.
  by apply (trigger_insert_fits _ _ _ ci).
Qed.


(** The deletion of a row that is there. *)
Lemma delete_wear_history_found w now d i old :
  list_find (λ r, wh_id r = w) (wear_history d) = Some (i, old) →
  delete_wear_history w now d
  = update_clothing_item_stats DELETE old now
      (mk_db (clothing_items d) (filter (λ r, wh_id r ≠ w) (wear_history d))).
Proof. intros Hfind. unfold delete_wear_history. by rewrite Hfind. Qed.

(** What a deletion that goes through leaves. *)
Lemma delete_wear_history_Some w now d d' :
  delete_wear_history w now d = Some d' →
  match list_find (λ r, wh_id r = w) (wear_history d) with
  | Some (_, old) =>
      d' = mk_db (alter (drop (max_date_worn
                                 (filter (λ r, wh_id r ≠ w) (wear_history d))
                                 (clothing_item_id old)) now)
                    (clothing_item_id old) (clothing_items d))
                 (filter (λ r, wh_id r ≠ w) (wear_history d))
  | None => d' = d
  end.
Proof.
  unfold delete_wear_history.
  destruct (list_find _ (wear_history d)) as [[i old]|].
  - intros H. by apply trigger_delete_Some in H as ->.
  - by intros [= <-].
Qed.

(** A statement never adds or removes an item: it maps the row of one item
    through a function that never takes the counter below a bound [m ≤ 0]
    it was above. *)
Lemma run_statement_lookup d s k :
  ∃ f : clothing_items_row → clothing_items_row,
    clothing_items (run_statement d s) !! k = f <$> clothing_items d !! k ∧
    ∀ m ci, m ≤ 0 → m ≤ times_worn ci → m ≤ times_worn (f ci).
Proof.
  destruct s as [e now|w now]; unfold run_statement.
  - destruct (insert_wear_history e now d) as [d'|] eqn:He; simpl.
    + rewrite (insert_wear_history_items _ _ _ _ He), lookup_alter.
      case_decide as Hk.
      * subst k. exists (bump (e_date_worn e) now). split; [done|].
        intros m ci Hm Hci. simpl. lia.
      * exists id. split; [by rewrite option_fmap_id|done].
    + exists id. split; [by rewrite option_fmap_id|done].
  - destruct (delete_wear_history w now d) as [d'|] eqn:Hd; simpl.
    + apply delete_wear_history_Some in Hd.
      destruct (list_find _ (wear_history d)) as [[i old]|].
      * subst d'. simpl. rewrite lookup_alter. case_decide as Hk.
        -- subst k. eexists. split; [reflexivity|].
           intros m ci Hm _. simpl. lia.
        -- exists id. split; [by rewrite option_fmap_id|done].
      * subst d'. exists id. split; [by rewrite option_fmap_id|done].
    + exists id. split; [by rewrite option_fmap_id|done].
Qed.

Lemma run_statements_bound ss : ∀ d k ci m,
  clothing_items d !! k = Some ci → m ≤ 0 → m ≤ times_worn ci →
  ∃ ci', clothing_items (run_statements d ss) !! k = Some ci' ∧
         m ≤ times_worn ci'.
Proof.
  induction ss as [|s ss IH]; intros d k ci m Hk Hm Hci; simpl.
  - eauto.
  - destruct (run_statement_lookup d s k) as (f & Hf & Hbound).
    rewrite Hk in Hf. simpl in Hf.
    apply (IH _ _ _ _ Hf Hm). by apply Hbound.
Qed.

(** After the deletion of a wear row the item it named carries the greatest
    date of the rows that remain. *)
Lemma delete_wear_history_last_worn_date w now d d' i old ci :
  list_find (λ r, wh_id r = w) (wear_history d) = Some (i, old) →
  clothing_items d !! clothing_item_id old = Some ci →
  delete_wear_history w now d = Some d' →
  last_worn_date <$> clothing_items d' !! clothing_item_id old
  = Some (max_date_worn (wear_history d') (clothing_item_id old)).
Proof.
  intros Hfind Hci. rewrite (delete_wear_history_found _ _ _ _ _ Hfind).
  intros H. apply trigger_delete_Some in H as ->. simpl.
  by rewrite lookup_alter_eq, Hci.
Qed.

(** The deletion branch of the trigger on the row of the item. *)
Lemma trigger_delete_lookup old now d ci :
  clothing_items d !! clothing_item_id old = Some ci →
  fits (times_worn ci - 1) →
  ∃ d', update_clothing_item_stats DELETE old now d = Some d' ∧
        wear_history d' = wear_history d ∧
        clothing_items d' !! clothing_item_id old
        = Some (drop (max_date_worn (wear_history d) (clothing_item_id old))
                  now ci).
Proof.
  intros Hci Hfits.
  destruct (trigger_delete_fits old now d ci Hci Hfits) as [d' Hd'].
  exists d'. split; [done|]. apply trigger_delete_Some in Hd' as ->. simpl.
  by rewrite lookup_alter_eq, Hci.
Qed.


End Trigger.

(** The quick tracker records a wear dated today: on an item of the database
    whose counter is below the end of the range the insert goes through,
    the counter of the item grows by one and its [last_worn_date] becomes
    today, a row dated today is appended to the wear history, and the local
    copy of the item is updated in the same way. *)
Lemma handleAddWear_records (userId : positive) (today now : Z)
    (item : QuickWearTracker.ClothingItem)
    (items : list QuickWearTracker.ClothingItem) (d : Schema.db)
    (ci : Schema.clothing_items_row) :
  Schema.clothing_items d !! QuickWearTracker.id item = Some ci →
  Props.fits (Schema.times_worn ci + 1) →
  ∃ items' d' ci',
    QuickWearTracker.handleAddWear (Some userId) None today now item items d
      = (items', d', None) ∧
    Schema.clothing_items d' !! QuickWearTracker.id item = Some ci' ∧
    Schema.times_worn ci' = Schema.times_worn ci + 1 ∧
    Schema.last_worn_date ci' = Some today ∧
    Schema.wear_history d'
    = Schema.wear_history d ++
        [Schema.mk_wear (fresh (Schema.wh_id <$> Schema.wear_history d))
           userId (QuickWearTracker.id item) (Some today) None now] ∧
    (item ∈ items →
     QuickWearTracker.mk_item (QuickWearTracker.id item)
       (QuickWearTracker.name item) (QuickWearTracker.category item)
       (QuickWearTracker.times_worn item + 1) (Some today) ∈ items').
Proof.
  intros Hci Hfits. unfold QuickWearTracker.handleAddWear.
  rewrite bool_decide_eq_false_2 by done.
  destruct (insert_wear_history_is_Some
              (Schema.mk_entry userId (QuickWearTracker.id item) (Some today))
              now d ci Hci Hfits) as [d' Hd'].
  rewrite Hd'. do 3 eexists. split; [reflexivity|].
  rewrite (insert_wear_history_items _ _ _ _ Hd'),
    (insert_wear_history_log _ _ _ _ Hd'). simpl.
  rewrite lookup_alter_eq, Hci. simpl.
  split; [done|]. split; [done|]. split; [done|]. split; [done|].
  intros Hin. apply list_elem_of_fmap. exists item.
  by rewrite bool_decide_eq_true_2.
Qed.




(** C10, as stated, fails: from the starting value -5 an insertion leaves
    [times_worn] at -4, which is negative. *)
Lemma negative_counter_stays_negative :
  Schema.times_worn
    <$> Schema.clothing_items
          (Schema.run_statements
             (Examples.one_item (Examples.shirt (-5) None None))
             [Schema.InsertWear (Examples.wear None) 1])
        !! 1%positive
  = Some (-4).
Proof. vm_compute. done. Qed.

(** C10, amended: the deletion branch of the trigger sets [times_worn] to
    [max (times_worn - 1) 0], which is not negative whatever the counter
    was (the branch raises only where [times_worn - 1] leaves the range of
    the column); under every sequence of wear-history insertions and
    deletions a counter that is not negative stays so, and from any
    starting value the counter never goes below the smaller of 0 and that
    value. *)
Theorem times_worn_never_negative (d : Schema.db) (k : positive)
    (ci : Schema.clothing_items_row) :
  Schema.clothing_items d !! k = Some ci →
  (∀ old now, Schema.clothing_item_id old = k →
     Props.fits (Schema.times_worn ci - 1) →
     ∃ d' ci',
       Schema.update_clothing_item_stats Schema.DELETE old now d = Some d' ∧
       Schema.clothing_items d' !! k = Some ci' ∧
       Schema.times_worn ci' = Z.max (Schema.times_worn ci - 1) 0 ∧
       0 ≤ Schema.times_worn ci') ∧
  (∀ ss, ∃ ci', Schema.clothing_items (Schema.run_statements d ss) !! k
                = Some ci' ∧
                (0 ≤ Schema.times_worn ci → 0 ≤ Schema.times_worn ci') ∧
                Z.min 0 (Schema.times_worn ci) ≤ Schema.times_worn ci').
Proof.
  intros Hci. split.
  - intros old now <- Hfits.
    destruct (trigger_delete_lookup old now d ci Hci Hfits)
      as (d' & Hd' & _ & Hl).
    exists d'. eexists. split; [done|]. split; [done|].
    simpl. split; [done|lia].
  - intros ss.
    destruct (run_statements_bound ss d k ci (Z.min 0 (Schema.times_worn ci)))
      as (ci' & Hl & Hb); [done|lia|lia|].
    exists ci'. split; [done|]. split; [lia|done].
Qed.

(** An item that has not been worn. *)
Lemma times_worn_never_negative_witness :
  (∀ old now, Schema.clothing_item_id old = 1%positive →
     Props.fits (0 - 1) →
     ∃ d' ci',
       Schema.update_clothing_item_stats Schema.DELETE old now
         (Examples.one_item (Examples.shirt 0 None None)) = Some d' ∧
       Schema.clothing_items d' !! 1%positive = Some ci' ∧
       Schema.times_worn ci' = Z.max (0 - 1) 0 ∧
       0 ≤ Schema.times_worn ci') ∧
  (∀ ss, ∃ ci', Schema.clothing_items
                  (Schema.run_statements
                     (Examples.one_item (Examples.shirt 0 None None)) ss)
                  !! 1%positive = Some ci' ∧
                (0 ≤ 0 → 0 ≤ Schema.times_worn ci') ∧
                Z.min 0 0 ≤ Schema.times_worn ci').
Proof.
  apply (times_worn_never_negative
           (Examples.one_item (Examples.shirt 0 None None)) 1%positive
           (Examples.shirt 0 None None)).
  reflexivity.
Defined.

(** C2 (the code departs from it): after a wear dated 2024-03-15 and then a
    wear dated 2024-01-01 are inserted for an item, the trigger leaves
    [last_worn_date] at 2024-01-01, while the greatest [date_worn] among
    the wear events of the item is 2024-03-15. *)
Theorem last_worn_date_follows_last_insert :
  let d := Schema.run_statements
             (Examples.one_item (Examples.shirt 0 None None))
             [Schema.InsertWear (Examples.wear (Some Examples.d_2024_03_15)) 1;
              Schema.InsertWear (Examples.wear (Some Examples.d_2024_01_01)) 2] in
  Schema.last_worn_date <$> Schema.clothing_items d !! 1%positive
    = Some (Some Examples.d_2024_01_01) ∧
  Schema.max_date_worn (Schema.wear_history d) 1
    = Some Examples.d_2024_03_15 ∧
  Schema.times_worn <$> Schema.clothing_items d !! 1%positive = Some 2.
Proof. vm_compute. done. Qed.

(** ** Seeding the wear history at item creation *)

Section Seeding.
Import Schema.

(** Inserting [n] undated wear rows for an existing item whose counter has
    room for them succeeds, appends exactly [n] undated rows for that item
    and adds [n] to its counter, leaving [last_worn_date] as it was. *)
Lemma insert_undated_rows (n : nat) : ∀ d userId k ci now,
  clothing_items d !! k = Some ci →
  Props.fits (times_worn ci) →
  times_worn ci + Z.of_nat n ≤ INT_MAX →
  ∃ d' ci' rows,
    insert_wear_history_rows (replicate n (mk_entry userId k None)) now d
      = Some d' ∧
    clothing_items d' !! k = Some ci' ∧
    times_worn ci' = times_worn ci + Z.of_nat n ∧
    last_worn_date ci' = last_worn_date ci ∧
    wear_history d' = wear_history d ++ rows ∧
    length rows = n ∧
    Forall (λ r, date_worn r = None ∧ clothing_item_id r = k) rows.
Proof.
  unfold insert_wear_history_rows.
  induction n as [|n IH]; intros d userId k ci now Hk Hlo Hhi; simpl.
  - exists d, ci, []. rewrite app_nil_r.
    repeat split; [done| lia | constructor].
  - unfold Props.fits in Hlo.
    destruct (insert_wear_history_is_Some (mk_entry userId k None) now d ci)
      as [d1 Hd1]; [done|unfold Props.fits; lia|].
    rewrite Hd1.
    pose proof (insert_wear_history_items _ _ _ _ Hd1) as Hitems.
    pose proof (insert_wear_history_log _ _ _ _ Hd1) as Hlog.
    simpl in Hitems, Hlog.
    assert (clothing_items d1 !! k = Some (Props.bump None now ci)) as Hk1
      by (by rewrite Hitems, lookup_alter_eq, Hk).
    destruct (IH d1 userId k _ now Hk1)
      as (d' & ci' & rows & Hrun & Hl & Ht & Hlw & Hwh & Hlen & Hall);
      [unfold Props.fits; simpl; lia|simpl; lia|].
    exists d', ci',
      (mk_wear (fresh (wh_id <$> wear_history d)) userId k None None now
         :: rows).
    split; [done|]. split; [done|].
    split; [rewrite Ht; simpl; lia|].
    split; [by rewrite Hlw|].
    split; [by rewrite Hwh, Hlog, <- app_assoc|].
    split; [simpl; by rewrite Hlen|].
    constructor; [done|done].
Qed.

End Seeding.

(** C1 (the code departs from it): when an item is created with a declared
    count [n] of at least 1 whose double fits the column ([n + n] is at
    most 2147483647) and the backend acknowledges both inserts, exactly [n]
    wear rows without a date are appended for the new item and its
    [last_worn_date] is absent, but its [times_worn] ends at [n + n]: the
    item row is inserted with [times_worn = n] and the trigger then adds
    one for each seeded row. *)
Theorem seeded_count_is_doubled (b : AddItem.backend) (userId : positive)
    (item : AddItem.ClothingItem) (imageUrls : list string)
    (w : AddItem.world) (n : Z) :
  Js.parseInt (AddItem.times_worn item) = Some n →
  0 < n ∧ n + n ≤ Schema.INT_MAX →
  AddItem.accepts_item b (AddItem.clothingItemData b userId item imageUrls)
    = true →
  (∀ es, AddItem.accepts_wear b es = true) →
  let id := fresh (dom (Schema.clothing_items (AddItem.w_db w))) in
  let out := AddItem.proceedWithSave b userId item imageUrls w in
  out.2 = AddItem.success_alert ∧
  ∃ ci rows,
    Schema.clothing_items (AddItem.w_db out.1) !! id = Some ci ∧
    Schema.times_worn ci = n + n ∧
    Schema.last_worn_date ci = None ∧
    Schema.wear_history (AddItem.w_db out.1)
      = Schema.wear_history (AddItem.w_db w) ++ rows ∧
    length rows = Z.to_nat n ∧
    Forall (λ r, Schema.date_worn r = None ∧ Schema.clothing_item_id r = id)
           rows.
Proof.
  intros Hparse [Hlo Hhi] Hitem Hwear id out. subst out.
  unfold AddItem.proceedWithSave.
  rewrite Hitem. simpl negb. cbv iota.
  unfold Schema.insert_clothing_item. fold id.
  assert (Js.or_zero (Js.parseInt (AddItem.times_worn item)) = n) as Hn.
  { rewrite Hparse. simpl. destruct (Z.eqb_spec n 0); [lia|done]. }
  rewrite Hn.
  unfold Schema.INT_MAX in Hhi.
  destruct (Z.ltb_spec 0 n); [|lia].
  destruct (Z.leb_spec (2 ^ 32) n); [lia|].
  simpl andb. cbv iota. rewrite Hwear.
  set (data := AddItem.clothingItemData b userId item imageUrls).
  set (d1 := Schema.mk_db _ _).
  assert (Schema.clothing_items d1 !! id = Some data) as Hid
    by (subst d1; simpl; by rewrite lookup_insert_eq).
  assert (Schema.times_worn data = n) as Hdata
    by (subst data; simpl; by rewrite Hn).
  destruct (insert_undated_rows (Z.to_nat n) d1 userId id data
              (AddItem.now b) Hid)
    as (d' & ci' & rows & Hrun & Hl & Ht & Hlw & Hwh & Hlen & Hall);
    [rewrite Hdata; unfold Props.fits, Schema.INT_MIN, Schema.INT_MAX; lia
    |rewrite Hdata; unfold Schema.INT_MAX; lia|].
  unfold AddItem.wearHistoryEntries. rewrite Hrun. simpl.
  split; [done|].
  exists ci', rows. split; [done|].
  split.
  { rewrite Ht, Hdata. lia. }
  split; [by rewrite Hlw|].
  split; [by rewrite Hwh|]. done.
Qed.

(** An item created with "3" as its declared count. *)
Lemma seeded_count_is_doubled_witness :
  let out := AddItem.proceedWithSave Examples.backend 7
               (Examples.form "3" []) [] Examples.empty_world in
  out.2 = AddItem.success_alert ∧
  ∃ ci rows,
    Schema.clothing_items (AddItem.w_db out.1) !! 1%positive = Some ci ∧
    Schema.times_worn ci = 3 + 3 ∧
    Schema.last_worn_date ci = None ∧
    Schema.wear_history (AddItem.w_db out.1) = [] ++ rows ∧
    length rows = 3%nat ∧
    Forall (λ r, Schema.date_worn r = None
                 ∧ Schema.clothing_item_id r = 1%positive) rows.
Proof.
  apply (seeded_count_is_doubled Examples.backend 7 (Examples.form "3" [])
           [] Examples.empty_world 3).
  - reflexivity.
  - unfold Schema.INT_MAX. lia.
  - reflexivity.
  - intros es. reflexivity.
Defined.

(** ** Overview statistics *)

Section MostWorn.
Import Overview.

Lemma most_worn_keeps m post :
  Forall (λ i, worn i ≤ worn m) post →
  foldl most_worn_step (Some m) post = Some m.
Proof.
  induction 1 as [|i post Hi _ IH]; simpl; [done|].
  destruct (Z.ltb_spec (worn m) (worn i)); [lia|done].
Qed.

(** On a non-empty list the reducer returns the first item that carries the
    greatest number of wears. *)
Lemma most_worn_first_max pre m post :
  Forall (λ i, worn i < worn m) pre →
  Forall (λ i, worn i ≤ worn m) post →
  foldl most_worn_step None (pre ++ m :: post) = Some m.
Proof.
  intros Hpre Hpost.
  assert (∀ acc, match acc with
                 | Some a => worn a < worn m
                 | None => True
                 end →
                 foldl most_worn_step acc (pre ++ m :: post) = Some m) as Hgen.
  { induction Hpre as [|i pre Hi _ IH]; intros acc Hacc; simpl.
    - destruct acc as [a|]; simpl.
      + destruct (Z.ltb_spec (worn a) (worn m)); [|lia].
        by apply most_worn_keeps.
      + by apply most_worn_keeps.
    - apply IH. destruct acc as [a|]; simpl; [|done].
      by destruct (Z.ltb_spec (worn a) (worn i)). }
  by apply Hgen.
Qed.

Lemma most_worn_empty : mostWornItem (fetchStats []) = None.
Proof. reflexivity. Qed.

Lemma worn_times_worn item : worn item = Schema.times_worn item.
Proof.
  unfold worn, Js.or_zero. by destruct (Z.eqb_spec (Schema.times_worn item) 0).
Qed.

(** A list that is not empty has a first item of greatest count. *)
Lemma first_greatest_exists (i : Schema.clothing_items_row) items :
  ∃ pre m post,
    i :: items = pre ++ m :: post ∧
    Forall (λ x, worn x < worn m) pre ∧
    Forall (λ x, worn x ≤ worn m) post.
Proof.
  revert i. induction items as [|a items IH]; intros i.
  - exists [], i, []. by repeat constructor.
  - destruct (IH a) as (pre & m & post & Heq & Hpre & Hpost).
    destruct (Z.lt_ge_cases (worn i) (worn m)) as [Hlt|Hge].
    + exists (i :: pre), m, post. rewrite Heq.
      split; [done|]. split; [by constructor|done].
    + exists [], i, (a :: items). split; [done|]. split; [constructor|].
      rewrite Heq. apply Forall_app. split; [|constructor].
      * eapply Forall_impl; [exact Hpre|]. intros x Hx. simpl in Hx. lia.
      * lia.
      * eapply Forall_impl; [exact Hpost|]. intros x Hx. simpl in Hx. lia.
Qed.

End MostWorn.

(** C3, as stated, fails: for a collection whose items all have
    [times_worn = 0] the reducer starts from [null], takes the first item
    and keeps it, so [mostWornItem] is that item, with 0 wears, and not
    absent. *)
Lemma mostWornItem_present_with_zero_wears :
  Overview.mostWornItem
    (Overview.fetchStats
       [Examples.shirt 0 None None; Examples.shirt 0 None (Some 200%Q)])
  = Some (Overview.mk_most_worn "Shirt" 0).
Proof. reflexivity. Qed.

(** C3, amended: [mostWornItem] is the item with the greatest [times_worn]
    of the list, the first of them in the order of the list when several
    carry it, and it is absent exactly when the collection is empty: in a
    collection whose items all have [times_worn = 0] it is the first
    item. *)
Theorem mostWornItem_is_first_greatest
    (items : list Schema.clothing_items_row) :
  match Overview.mostWornItem (Overview.fetchStats items) with
  | Some mw =>
      ∃ n m,
        items !! n = Some m ∧
        mw = Overview.mk_most_worn (Schema.name m) (Schema.times_worn m) ∧
        (∀ i, i ∈ items → Schema.times_worn i ≤ Schema.times_worn m) ∧
        (∀ j i, (j < n)%nat → items !! j = Some i →
                Schema.times_worn i < Schema.times_worn m)
  | None => items = []
  end.
Proof.
  destruct items as [|i items]; [done|].
  destruct (first_greatest_exists i items)
    as (pre & m & post & Heq & Hpre & Hpost).
  rewrite Heq. simpl. rewrite (most_worn_first_max pre m post Hpre Hpost).
  exists (length pre), m. split; [by apply list_lookup_middle|].
  split; [done|]. split.
  - intros x Hx. rewrite <- !worn_times_worn.
    apply elem_of_app in Hx as [Hx|Hx].
    + rewrite Forall_forall in Hpre. specialize (Hpre x Hx). simpl in Hpre.
      lia.
    + apply elem_of_cons in Hx as [->|Hx]; [lia|].
      rewrite Forall_forall in Hpost. by apply Hpost.
  - intros j x Hj Hx. rewrite <- !worn_times_worn.
    rewrite lookup_app_l in Hx by done.
    rewrite Forall_forall in Hpre. apply Hpre.
    by eapply list_elem_of_lookup_2.
Qed.

(** ** Cost per wear *)

Lemma costPerWear_absent (item : Schema.clothing_items_row) :
  Schema.purchase_price item = None ∨ Schema.times_worn item ≤ 0 →
  ItemDetail.costPerWear item = None.
Proof.
  unfold ItemDetail.costPerWear. intros [->|Hle]; [done|].
  destruct (Schema.purchase_price item); [|done].
  destruct (Z.ltb_spec 0 (Schema.times_worn item)); [lia|].
  by rewrite andb_false_r.
Qed.

Lemma costPerWear_value (item : Schema.clothing_items_row) (p : Q) :
  Schema.purchase_price item = Some p →
  Js.truthy_number (Js.number p) = true →
  0 < Schema.times_worn item →
  ItemDetail.costPerWear item
  = Some (PrimFloat.div (Js.number p)
            (Js.float_of_Z (Schema.times_worn item))).
Proof.
  unfold ItemDetail.costPerWear. intros -> -> Ht.
  by destruct (Z.ltb_spec 0 (Schema.times_worn item)); [|lia].
Qed.

(** C4 (the code departs from it): for an item bought for 0 and worn three
    times the guard [item.purchase_price && ...] is falsy, and the cost per
    wear is absent rather than 0. *)
Theorem costPerWear_absent_for_free_item :
  ItemDetail.costPerWear (Examples.shirt 3 None (Some 0%Q)) = None.
Proof. reflexivity. Qed.

(** ** A negative declared count *)

(** C6, as stated, fails: with "-3" typed as the count, a valid name and
    category and a signed-in user, the save is not rejected. *)
Lemma negative_count_not_rejected :
  let out := AddItem.handleSave Examples.backend (Some 7%positive)
               (Examples.form "-3" []) Examples.empty_world in
  ¬ Props.rejected Examples.empty_world out ∧
  AddItem.title out.2 = "Success" ∧
  Schema.name <$> Schema.clothing_items (AddItem.w_db out.1) !! 1%positive
    = Some "Shirt".
Proof.
  split; [|by vm_compute].
  intros [_ Htitle]. vm_compute in Htitle. discriminate.
Qed.

(** C6, amended: a negative declared count raises no validation error; when
    the backend acknowledges the insert, the save ends with the success
    alert, one item row is added under a new id and no wear-history row is
    written. *)
Theorem negative_count_seeds_nothing (b : AddItem.backend) (userId : positive)
    (item : AddItem.ClothingItem) (imageUrls : list string)
    (w : AddItem.world) (n : Z) :
  Js.parseInt (AddItem.times_worn item) = Some n →
  n < 0 →
  AddItem.accepts_item b (AddItem.clothingItemData b userId item imageUrls)
    = true →
  let out := AddItem.proceedWithSave b userId item imageUrls w in
  out.2 = AddItem.success_alert ∧
  Schema.wear_history (AddItem.w_db out.1)
    = Schema.wear_history (AddItem.w_db w) ∧
  ∃ row,
    Schema.clothing_items (AddItem.w_db w)
      !! fresh (dom (Schema.clothing_items (AddItem.w_db w))) = None ∧
    Schema.clothing_items (AddItem.w_db out.1)
    = <[fresh (dom (Schema.clothing_items (AddItem.w_db w))) := row]>
        (Schema.clothing_items (AddItem.w_db w)).
Proof.
  intros Hparse Hneg Hitem out. subst out.
  unfold AddItem.proceedWithSave.
  rewrite Hitem. simpl negb. cbv iota.
  unfold Schema.insert_clothing_item.
  assert (Js.or_zero (Js.parseInt (AddItem.times_worn item)) = n) as Hn.
  { rewrite Hparse. simpl. destruct (Z.eqb_spec n 0); [lia|done]. }
  rewrite Hn.
  destruct (Z.ltb_spec 0 n); [lia|].
  simpl. split; [done|]. split; [done|].
  eexists. split; [|reflexivity].
  apply not_elem_of_dom, is_fresh.
Qed.

(** An item created with "-3" as its declared count. *)
Lemma negative_count_seeds_nothing_witness :
  let out := AddItem.proceedWithSave Examples.backend 7
               (Examples.form "-3" []) [] Examples.empty_world in
  out.2 = AddItem.success_alert ∧
  Schema.wear_history (AddItem.w_db out.1) = [] ∧
  ∃ row,
    (∅ : gmap positive Schema.clothing_items_row) !! 1%positive = None ∧
    Schema.clothing_items (AddItem.w_db out.1) = <[1%positive := row]> ∅.
Proof.
  apply (negative_count_seeds_nothing Examples.backend 7
           (Examples.form "-3" []) [] Examples.empty_world (-3)).
  - reflexivity.
  - lia.
  - reflexivity.
Defined.

(** ** Uploading several images *)

Section Uploads.
Import ImageUpload.
Variable store : object_store.
Variable userId : positive.

(** The loop sends the images one after the other, in the order of the
    input: the [i]-th of them is upload number [length log + i]. *)
Lemma uploadMultipleImages_loop uris : ∀ results log,
  foldl (λ '(results, log) uri,
           (results ++ [uploadImage store (length log) uri userId],
            log ++ [uri]))
        (results, log) uris
  = (results ++ Props.results_from store userId (length log) uris,
     log ++ uris).
Proof.
  induction uris as [|uri uris IH]; intros results log; simpl.
  - by rewrite !app_nil_r.
  - rewrite IH, length_app, <- !app_assoc. simpl.
    by rewrite Nat.add_1_r.
Qed.

Lemma uploadMultipleImages_spec uris log :
  uploadMultipleImages store uris userId log
  = (Props.results_from store userId (length log) uris, log ++ uris).
Proof. unfold uploadMultipleImages. by rewrite uploadMultipleImages_loop. Qed.

Lemma success_uploadImage n uri :
  success (uploadImage store n uri userId) = Props.accepted (store n uri userId).
Proof. unfold uploadImage. by destruct (store n uri userId). Qed.

Lemma failed_results uris : ∀ n0,
  length (filter (λ r, success r = false)
            (Props.results_from store userId n0 uris))
  = Props.failed_count store userId n0 uris.
Proof.
  induction uris as [|uri uris IH]; intros n0; simpl; [done|].
  rewrite filter_cons. case_decide as Hs; rewrite success_uploadImage in Hs.
  - rewrite Hs. simpl. by rewrite IH.
  - destruct (Props.accepted (store n0 uri userId)); [|done]. by rewrite IH.
Qed.

Lemma successful_results uris : ∀ n0,
  (∀ n uri, store n uri userId ≠ Uploaded "") →
  AddItem.successful_urls (Props.results_from store userId n0 uris)
  = Props.stored_urls store userId n0 uris.
Proof.
  intros n0 Hurl. revert n0.
  induction uris as [|uri uris IH]; intros n0; [done|].
  pose proof (Hurl n0 uri) as Hne. specialize (IH (S n0)).
  change (AddItem.successful_urls
            (Props.results_from store userId n0 (uri :: uris)))
    with (match (let r := uploadImage store n0 uri userId in
                 if success r
                 then match url r with
                      | Some u => if Js.truthy u then Some u else None
                      | None => None
                      end
                 else None) with
          | Some u =>
              u :: AddItem.successful_urls
                     (Props.results_from store userId (S n0) uris)
          | None =>
              AddItem.successful_urls
                (Props.results_from store userId (S n0) uris)
          end).
  rewrite IH. simpl. unfold uploadImage.
  destruct (store n0 uri userId) as [m|m|u]; simpl; try done.
  by destruct u.
Qed.

Lemma stored_or_failed uris : ∀ n0,
  (length (Props.stored_urls store userId n0 uris)
   + Props.failed_count store userId n0 uris)%nat = length uris.
Proof.
  induction uris as [|uri uris IH]; intros n0; simpl; [done|].
  destruct (store n0 uri userId); simpl; rewrite <- (IH (S n0)); lia.
Qed.

End Uploads.

(** ** What the save persists *)

Section Persist.
Import Schema.

Lemma insert_wear_history_rows_None es now :
  foldl (λ acc e, acc ≫= insert_wear_history e now) None es = None.
Proof. by induction es. Qed.

(** Seeding wear rows never touches the image references of an item. *)
Lemma insert_wear_history_rows_image_urls es now : ∀ d d' k ci,
  insert_wear_history_rows es now d = Some d' →
  clothing_items d !! k = Some ci →
  ∃ ci', clothing_items d' !! k = Some ci' ∧ image_urls ci' = image_urls ci.
Proof.
  unfold insert_wear_history_rows.
  induction es as [|e es IH]; intros d d' k ci Hrun Hk; simpl in Hrun.
  - injection Hrun as <-. eauto.
  - destruct (insert_wear_history e now d) as [d1|] eqn:He; simpl in Hrun.
    + pose proof (insert_wear_history_items _ _ _ _ He) as Hitems.
      destruct (decide (e_clothing_item_id e = k)) as [<-|Hne].
      * assert (clothing_items d1 !! e_clothing_item_id e
                = Some (Props.bump (e_date_worn e) now ci)) as Hk1
          by (by rewrite Hitems, lookup_alter_eq, Hk).
        destruct (IH _ _ _ _ Hrun Hk1) as (ci' & Hl & Hu). eauto.
      * assert (clothing_items d1 !! k = Some ci) as Hk1
          by (by rewrite Hitems, lookup_alter_ne).
        by apply (IH _ _ _ _ Hrun Hk1).
    + by rewrite insert_wear_history_rows_None in Hrun.
Qed.

(** When the backend acknowledges the insert, the save leaves a row under a
    new id whose image references are the URLs it was given ([NULL] when
    there is none). *)
Lemma proceedWithSave_persists b userId item imageUrls w :
  AddItem.accepts_item b (AddItem.clothingItemData b userId item imageUrls)
    = true →
  let id := fresh (dom (clothing_items (AddItem.w_db w))) in
  let out := AddItem.proceedWithSave b userId item imageUrls w in
  clothing_items (AddItem.w_db w) !! id = None ∧
  ∃ row, clothing_items (AddItem.w_db out.1) !! id = Some row ∧
         image_urls row
         = (if (0 <? length imageUrls)%nat then Some imageUrls else None).
Proof.
  intros Hitem id out. split; [apply not_elem_of_dom, is_fresh|].
  subst out. unfold AddItem.proceedWithSave.
  rewrite Hitem. simpl negb. cbv iota.
  unfold insert_clothing_item. fold id.
  set (data := AddItem.clothingItemData b userId item imageUrls).
  set (d1 := mk_db _ _).
  assert (clothing_items d1 !! id = Some data) as Hid
    by (subst d1; simpl; by rewrite lookup_insert_eq).
  destruct (_ && _); simpl; [by eauto|].
  destruct (0 <? _); [|by eauto].
  destruct (AddItem.accepts_wear b _); [|by eauto].
  destruct (insert_wear_history_rows _ _ d1) as [d2|] eqn:Hrun; simpl;
    [|by eauto].
  destruct (insert_wear_history_rows_image_urls _ _ _ _ _ _ Hrun Hid)
    as (ci' & Hl & Hu).
  exists ci'. split; [done|]. by rewrite Hu.
Qed.

End Persist.



(** ** The suggestion cache *)

Section SuggestionCache.
Import Suggestions Props.

Lemma ordered_nil : ordered [].
Proof. split; constructor. Qed.

Lemma ordered_sort xs : NoDup xs → ordered (Js.sort xs).
Proof.
  intros Hnd. unfold ordered, Js.sort. split.
  - by rewrite merge_sort_Permutation.
  - apply (StronglySorted_merge_sort String.le).
Qed.

Lemma NoDup_snoc_fresh (xs : list string) x : NoDup xs → x ∉ xs → NoDup (xs ++ [x]).
Proof.
  intros Hnd Hx. apply NoDup_app. split; [done|]. split.
  - intros y Hy Hin. apply list_elem_of_singleton in Hin. by subst y.
  - apply NoDup_singleton.
Qed.

Lemma NoDup_array_from_set xs : NoDup (Js.array_from_set xs).
Proof.
  unfold Js.array_from_set.
  assert (∀ seen, NoDup seen →
            NoDup (foldl (λ seen x, if decide (x ∈ seen) then seen
                                    else seen ++ [x]) seen xs)) as Hgen.
  { induction xs as [|x xs IH]; intros seen Hseen; simpl; [done|].
    apply IH. case_decide; [done|]. by apply NoDup_snoc_fresh. }
  apply Hgen. constructor.
Qed.

Lemma ordered_unique_values col : ordered (unique_values col).
Proof. apply ordered_sort, NoDup_array_from_set. Qed.

Lemma well_formed_empty : well_formed (mk_suggestions [] []).
Proof. split; apply ordered_nil. Qed.

Lemma suggestions_inv_initial : suggestions_inv initial.
Proof.
  split.
  - intros r o Hr. simpl in Hr. by rewrite lookup_empty in Hr.
  - intros r Hr. discriminate.
Qed.

(** Allocating a well-formed object keeps the invariant, and the new
    reference is not one of the old ones. *)
Lemma alloc_spec o st :
  let out := alloc o st in
  heap st !! out.1 = None ∧
  heap out.2 !! out.1 = Some o ∧
  suggestionsCache out.2 = suggestionsCache st ∧
  lastCacheTime out.2 = lastCacheTime st ∧
  ∀ r0, r0 ≠ out.1 → heap out.2 !! r0 = heap st !! r0.
Proof.
  simpl. split; [apply not_elem_of_dom, is_fresh|].
  split; [by rewrite lookup_insert_eq|].
  split; [done|]. split; [done|].
  intros r0 Hr0. by rewrite lookup_insert_ne.
Qed.

Lemma alloc_inv o st :
  well_formed o → suggestions_inv st → suggestions_inv (alloc o st).2.
Proof.
  intros Ho [Hheap Hcache]. simpl. split; simpl.
  - intros r o' Hr. apply lookup_insert_Some in Hr as [[_ <-]|[_ Hr]]; eauto.
  - intros r Hr. apply Hcache in Hr as [o' Ho'].
    destruct (decide (fresh (dom (heap st)) = r)) as [<-|Hne].
    + rewrite lookup_insert_eq. eauto.
    + rewrite lookup_insert_ne by done. eauto.
Qed.

(** Caching the object just allocated. *)
Lemma alloc_cache_inv o st now :
  well_formed o → suggestions_inv st →
  suggestions_inv
    (mk_state (heap (alloc o st).2) (Some (alloc o st).1) now).
Proof.
  intros Ho Hinv. destruct (alloc_inv o st Ho Hinv) as [Hheap _].
  split; simpl.
  - apply Hheap.
  - intros r [= <-]. rewrite lookup_insert_eq. eauto.
Qed.

Lemma getSuggestions_inv query now userId forceRefresh st :
  suggestions_inv st →
  let out := getSuggestions query now userId forceRefresh st in
  suggestions_inv out.2 ∧
  ∃ o, heap out.2 !! out.1 = Some o ∧ well_formed o.
Proof.
  intros Hinv. unfold getSuggestions.
  assert (∀ o now', well_formed o →
            let out := let '(r, st1) := alloc o st in
                       (r, mk_state (heap st1) (Some r) now') in
            suggestions_inv out.2 ∧
            ∃ o', heap out.2 !! out.1 = Some o' ∧ well_formed o') as Hstore.
  { intros o now' Ho. simpl. split.
    - by apply (alloc_cache_inv o st now').
    - exists o. by rewrite lookup_insert_eq. }
  assert (let out := alloc (mk_suggestions [] []) st in
          suggestions_inv out.2 ∧
          ∃ o', heap out.2 !! out.1 = Some o' ∧ well_formed o') as Hfail.
  { split.
    - apply alloc_inv; [apply well_formed_empty|done].
    - exists (mk_suggestions [] []). simpl.
      split; [by rewrite lookup_insert_eq|apply well_formed_empty]. }
  assert (let out :=
            match query userId with
            | QueryError | QueryThrows => alloc (mk_suggestions [] []) st
            | QueryData None | QueryData (Some []) =>
                let '(r, st1) := alloc (mk_suggestions [] []) st in
                (r, mk_state (heap st1) (Some r) now)
            | QueryData (Some items) =>
                let '(r, st1) :=
                  alloc (mk_suggestions (unique_values (brand <$> items))
                           (unique_values (subcategory <$> items))) st in
                (r, mk_state (heap st1) (Some r) now)
            end in
          suggestions_inv out.2 ∧
          ∃ o, heap out.2 !! out.1 = Some o ∧ well_formed o) as Hquery.
  { destruct (query userId) as [| |[[|i items]|]]; try done.
    - apply Hstore, well_formed_empty.
    - apply Hstore. split; apply ordered_unique_values.
    - apply Hstore, well_formed_empty. }
  destruct (suggestionsCache st) as [r|] eqn:Hc; [|done].
  destruct (fresh_enough now forceRefresh st); [|done].
  simpl. split; [done|].
  destruct Hinv as [Hheap Hcache].
  destruct (Hcache r Hc) as [o Ho]. exists o. split; [done|]. by eapply Hheap.
Qed.

Lemma addToSuggestionsCache_inv type value st :
  suggestions_inv st → suggestions_inv (addToSuggestionsCache type value st).
Proof.
  intros Hinv. pose proof Hinv as [Hheap Hcache].
  unfold addToSuggestionsCache.
  destruct (suggestionsCache st) as [r|] eqn:Hc; [|done].
  destruct (negb (Js.truthy (Js.trim value))); [done|].
  destruct (heap st !! r) as [o|] eqn:Ho; [|done].
  destruct (Hheap r o Ho) as [Hb Hs].
  assert (∀ o', well_formed o' →
            suggestions_inv
              (mk_state (<[r := o']> (heap st)) (Some r)
                 (lastCacheTime st))) as Hupd.
  { intros o' Ho'. split; simpl.
    - intros r0 o0 Hr0.
      apply lookup_insert_Some in Hr0 as [[_ <-]|[_ Hr0]]; eauto.
    - intros r0 [= <-]. rewrite lookup_insert_eq. eauto. }
  destruct type; unfold Js.includes; case_bool_decide; simpl; try done.
  - apply Hupd. split; [|done]. simpl.
    apply ordered_sort, NoDup_snoc_fresh; [apply Hb|done].
  - apply Hupd. split; [done|]. simpl.
    apply ordered_sort, NoDup_snoc_fresh; [apply Hs|done].
Qed.

Lemma clearSuggestionsCache_inv st :
  suggestions_inv st → suggestions_inv (clearSuggestionsCache st).
Proof. intros [Hheap _]. split; [done|]. intros r Hr. discriminate. Qed.

End SuggestionCache.

(** C8: when the query for the items of a user is issued (the cache is
    absent, stale or bypassed) and fails, by an error answer or by an
    exception, [getSuggestions] returns a new object with no brands and no
    subcategories, raises nothing, and leaves the cache reference, every
    object already in the store (the cached one among them) and the cache
    timestamp as they were. *)
Theorem getSuggestions_failure_is_silent
    (query : positive → Suggestions.query_response) (now : Z)
    (userId : positive) (forceRefresh : bool) (st : Suggestions.state) :
  query userId = Suggestions.QueryError
    ∨ query userId = Suggestions.QueryThrows →
  Suggestions.fresh_enough now forceRefresh st = false →
  let out := Suggestions.getSuggestions query now userId forceRefresh st in
  Suggestions.heap out.2 !! out.1 = Some (Suggestions.mk_suggestions [] []) ∧
  Suggestions.suggestionsCache out.2 = Suggestions.suggestionsCache st ∧
  Suggestions.lastCacheTime out.2 = Suggestions.lastCacheTime st ∧
  ∀ r o, Suggestions.heap st !! r = Some o →
         Suggestions.heap out.2 !! r = Some o.
Proof.
  intros Hfail Hstale out.
  assert (out = Suggestions.alloc (Suggestions.mk_suggestions [] []) st)
    as ->.
  { subst out. unfold Suggestions.getSuggestions. rewrite Hstale.
    destruct (Suggestions.suggestionsCache st);
      by destruct Hfail as [-> | ->]. }
  destruct (alloc_spec (Suggestions.mk_suggestions [] []) st)
    as (Hnew & Hr & Hc & Ht & Hold).
  split; [done|]. split; [done|]. split; [done|].
  intros r o Ho. rewrite Hold; [done|]. intros ->. congruence.
Qed.

(** A first call whose query is answered by an error. *)
Lemma getSuggestions_failure_is_silent_witness :
  let out := Suggestions.getSuggestions (λ _, Suggestions.QueryError)
               1000 7%positive false Suggestions.initial in
  Suggestions.heap out.2 !! out.1 = Some (Suggestions.mk_suggestions [] []) ∧
  Suggestions.suggestionsCache out.2 = None ∧
  Suggestions.lastCacheTime out.2 = 0 ∧
  ∀ r o, Suggestions.heap Suggestions.initial !! r = Some o →
         Suggestions.heap out.2 !! r = Some o.
Proof.
  apply (getSuggestions_failure_is_silent (λ _, Suggestions.QueryError)
           1000 7%positive false Suggestions.initial).
  - left. reflexivity.
  - reflexivity.
Defined.

(** C9: in a state where every suggestion object is well formed (each of
    its two lists without a repeated value and ascending) and the cache
    refers to one of them, as in the initial state, [getSuggestions]
    returns a well-formed object and leaves such a state, for any answer of
    the backend, [addToSuggestionsCache] leaves such a state, and
    [addToSuggestionsCache] changes nothing when there is no cache. *)
Theorem suggestions_stay_ordered (st : Suggestions.state) :
  Props.suggestions_inv st →
  (∀ query now userId forceRefresh,
     let out := Suggestions.getSuggestions query now userId forceRefresh st in
     Props.suggestions_inv out.2 ∧
     ∃ o, Suggestions.heap out.2 !! out.1 = Some o ∧ Props.well_formed o) ∧
  (∀ type value,
     Props.suggestions_inv (Suggestions.addToSuggestionsCache type value st)) ∧
  (∀ type value,
     Suggestions.suggestionsCache st = None →
     Suggestions.addToSuggestionsCache type value st = st).
Proof.
  intros Hinv. split; [|split].
  - intros. by apply getSuggestions_inv.
  - intros. by apply addToSuggestionsCache_inv.
  - intros type value Hnone. unfold Suggestions.addToSuggestionsCache.
    by rewrite Hnone.
Qed.

(** The state before any call. *)
Lemma suggestions_stay_ordered_witness :
  (∀ query now userId forceRefresh,
     let out := Suggestions.getSuggestions query now userId forceRefresh
                  Suggestions.initial in
     Props.suggestions_inv out.2 ∧
     ∃ o, Suggestions.heap out.2 !! out.1 = Some o ∧ Props.well_formed o) ∧
  (∀ type value,
     Props.suggestions_inv
       (Suggestions.addToSuggestionsCache type value Suggestions.initial)) ∧
  (∀ type value,
     Suggestions.suggestionsCache Suggestions.initial = None →
     Suggestions.addToSuggestionsCache type value Suggestions.initial
     = Suggestions.initial).
Proof.
  apply (suggestions_stay_ordered Suggestions.initial).
  split; simpl.
  - intros r o Hr. rewrite lookup_empty in Hr. discriminate.
  - intros r Hr. discriminate.
Defined.

(** The suggestions computed from three rows, then a value added to the
    cache. *)
Example suggestions_of_three_rows :
  let rows := [Suggestions.mk_columns (Some " Zara ") (Some "jeans");
               Suggestions.mk_columns (Some "Acme") None;
               Suggestions.mk_columns (Some "Zara") (Some "  ")] in
  let out := Suggestions.getSuggestions
               (λ _, Suggestions.QueryData (Some rows)) 1000 7%positive false
               Suggestions.initial in
  let st := Suggestions.addToSuggestionsCache Suggestions.Brand " Boss"
              out.2 in
  Suggestions.heap out.2 !! out.1
    = Some (Suggestions.mk_suggestions ["Acme"; "Zara"] ["jeans"]) ∧
  Suggestions.heap st !! out.1
    = Some (Suggestions.mk_suggestions ["Acme"; "Boss"; "Zara"] ["jeans"]).
Proof. by vm_compute. Qed.

(** ** The wear counters against the wear history *)

Section Counters.
Import Schema SchemaExt.

Lemma filter_other_ids wh (old : wear_history_row) :
  NoDup (wh_id <$> wh) → old ∈ wh →
  wh ≡ₚ old :: filter (λ r, wh_id r ≠ wh_id old) wh.
Proof.
  induction wh as [|r wh IH]; intros Hnd Hin.
  - by apply elem_of_nil in Hin.
  - rewrite fmap_cons in Hnd. apply NoDup_cons in Hnd as [Hr Hnd].
    apply elem_of_cons in Hin as [->|Hin].
    + rewrite filter_cons_False by (intros H; by apply H).
      assert (filter (λ r0, wh_id r0 ≠ wh_id r) wh = wh) as ->; [|done].
      clear IH Hnd. induction wh as [|x wh IH]; [done|].
      rewrite fmap_cons in Hr. apply not_elem_of_cons in Hr as [Hx Hr].
      rewrite filter_cons_True by done. by rewrite IH.
    + assert (wh_id r ≠ wh_id old) as Hne.
      { intros Heq. apply Hr. rewrite Heq. by apply list_elem_of_fmap_2. }
      rewrite filter_cons_True by done.
      rewrite (IH Hnd Hin) at 1. apply Permutation_swap.
Qed.

Lemma wear_count_delete wh (old : wear_history_row) k :
  NoDup (wh_id <$> wh) → old ∈ wh →
  wear_count wh k
  = ((if decide (clothing_item_id old = k) then 1 else 0)
     + wear_count (filter (λ r, wh_id r ≠ wh_id old) wh) k)%nat.
Proof.
  intros Hnd Hin. unfold wear_count.
  rewrite (filter_other_ids wh old Hnd Hin) at 1.
  rewrite filter_cons. by case_decide.
Qed.

Lemma unique_ids_insert e now d d' :
  insert_wear_history e now d = Some d' → unique_ids d → unique_ids d'.
Proof.
  intros He Hnd. unfold unique_ids.
  rewrite (insert_wear_history_log _ _ _ _ He), fmap_app. simpl.
  apply NoDup_app. split; [done|]. split; [|apply NoDup_singleton].
  intros x Hx Hin. apply list_elem_of_singleton in Hin. subst x.
  by apply infinite_is_fresh in Hx.
Qed.

Lemma unique_ids_filter (P : wear_history_row → Prop)
    `{∀ r, Decision (P r)} wh :
  NoDup (wh_id <$> wh) → NoDup (wh_id <$> filter P wh).
Proof.
  intros Hnd. apply (sublist_NoDup _ (wh_id <$> wh)); [done|].
  apply fmap_sublist, sublist_filter.
Qed.

Lemma list_find_row w wh i old :
  list_find (λ r, wh_id r = w) wh = Some (i, old) → old ∈ wh ∧ wh_id old = w.
Proof.
  intros Hf. apply list_find_Some in Hf as (Hl & Hw & _).
  split; [by eapply list_elem_of_lookup_2|done].
Qed.

Lemma counters_insert e now d d' :
  insert_wear_history e now d = Some d' → counters_ok d → counters_ok d'.
Proof.
  intros He Hc k ci' Hk.
  rewrite (insert_wear_history_items _ _ _ _ He) in Hk.
  rewrite (insert_wear_history_log _ _ _ _ He).
  unfold wear_count. rewrite filter_app, length_app.
  destruct (decide (e_clothing_item_id e = k)) as [<-|Hne].
  - rewrite lookup_alter_eq in Hk.
    destruct (clothing_items d !! e_clothing_item_id e) as [ci|] eqn:Hci;
      [|done].
    injection Hk as <-. rewrite filter_cons_True by done.
    simpl. rewrite (Hc _ _ Hci). unfold wear_count. lia.
  - rewrite lookup_alter_ne in Hk by done.
    rewrite filter_cons_False by done.
    simpl. rewrite (Hc _ _ Hk). unfold wear_count. lia.
Qed.

Lemma unique_ids_delete w now d d' :
  delete_wear_history w now d = Some d' → unique_ids d → unique_ids d'.
Proof.
  intros Hd Hnd. apply delete_wear_history_Some in Hd.
  destruct (list_find _ (wear_history d)) as [[i old]|]; subst d'; [|done].
  unfold unique_ids. simpl. by apply unique_ids_filter.
Qed.

Lemma counters_delete w now d d' :
  delete_wear_history w now d = Some d' →
  unique_ids d → counters_ok d → counters_ok d'.
Proof.
  intros Hd Hnd Hc. apply delete_wear_history_Some in Hd.
  destruct (list_find _ (wear_history d)) as [[i old]|] eqn:Hf;
    subst d'; [|done].
  destruct (list_find_row _ _ _ _ Hf) as [Hin <-].
  intros k ci' Hk. simpl in Hk |- *.
  pose proof (wear_count_delete _ old k Hnd Hin) as Hcount.
  destruct (decide (clothing_item_id old = k)) as [<-|Hne].
  - rewrite lookup_alter_eq in Hk.
    destruct (clothing_items d !! clothing_item_id old) as [ci|] eqn:Hci;
      [|done].
    injection Hk as <-. simpl. rewrite (Hc _ _ Hci). lia.
  - rewrite lookup_alter_ne in Hk by done. rewrite (Hc _ _ Hk). lia.
Qed.

End Counters.

(** X1: when the ids of the wear rows are distinct and the counter of every
    item is the number of its wear rows, both still hold after any sequence
    of insertions into and deletions from the wear history. *)
Theorem counters_follow_history (d : Schema.db)
    (ss : list Schema.wear_statement) :
  SchemaExt.unique_ids d → SchemaExt.counters_ok d →
  SchemaExt.unique_ids (Schema.run_statements d ss) ∧
  SchemaExt.counters_ok (Schema.run_statements d ss).
Proof.
  revert d. induction ss as [|s ss IH]; intros d Hnd Hc; simpl; [done|].
  apply IH.
  - destruct s as [e now|w now]; unfold Schema.run_statement.
    + destruct (Schema.insert_wear_history e now d) as [d'|] eqn:He;
        simpl; [|done]. by eapply unique_ids_insert.
    + destruct (Schema.delete_wear_history w now d) as [d'|] eqn:Hd;
        simpl; [|done]. by eapply unique_ids_delete.
  - destruct s as [e now|w now]; unfold Schema.run_statement.
    + destruct (Schema.insert_wear_history e now d) as [d'|] eqn:He;
        simpl; [|done]. by eapply counters_insert.
    + destruct (Schema.delete_wear_history w now d) as [d'|] eqn:Hd;
        simpl; [|done]. by eapply counters_delete.
Qed.

(** An instance: one item that has not been worn, two wears recorded and the
    first of them deleted. *)
Lemma counters_follow_history_witness :
  let d := Schema.run_statements
             (Examples.one_item (Examples.shirt 0 None None))
             [Schema.InsertWear (Examples.wear (Some Examples.d_2024_03_15)) 1;
              Schema.InsertWear (Examples.wear None) 2;
              Schema.DeleteWear 1 3] in
  SchemaExt.unique_ids d ∧ SchemaExt.counters_ok d.
Proof.
  apply (counters_follow_history
           (Examples.one_item (Examples.shirt 0 None None))).
  - constructor.
  - intros k ci Hk. unfold Examples.one_item in Hk. simpl in Hk.
    apply lookup_singleton_Some in Hk as [_ <-]. reflexivity.
Defined.

Section Deletion.
Import Schema SchemaExt.

Lemma same_id_same_row wh (a b : wear_history_row) :
  NoDup (wh_id <$> wh) → a ∈ wh → b ∈ wh → wh_id a = wh_id b → a = b.
Proof.
  intros Hnd Ha Hb Hid.
  apply list_elem_of_lookup in Ha as [i Hi].
  apply list_elem_of_lookup in Hb as [j Hj].
  assert (i = j) as ->.
  { apply (NoDup_lookup _ i j (wh_id a) Hnd).
    - by rewrite list_lookup_fmap, Hi.
    - by rewrite list_lookup_fmap, Hj, Hid. }
  congruence.
Qed.

(** With distinct ids, deleting by the id of a row of the history removes
    that row and runs the trigger for it. *)
Lemma delete_wear_history_row now d (old : wear_history_row) :
  unique_ids d → old ∈ wear_history d →
  delete_wear_history (wh_id old) now d
  = update_clothing_item_stats DELETE old now
      (mk_db (clothing_items d)
             (filter (λ r, wh_id r ≠ wh_id old) (wear_history d))).
Proof.
  intros Hnd Hin. unfold delete_wear_history.
  destruct (list_find_elem_of (λ r, wh_id r = wh_id old) _ old Hin eq_refl)
    as [[i old'] Hf].
  rewrite Hf. destruct (list_find_row _ _ _ _ Hf) as [Hin' Hid].
  by rewrite (same_id_same_row _ old' old Hnd Hin' Hin Hid).
Qed.

Lemma filter_keeps_all (P : wear_history_row → Prop)
    `{∀ r, Decision (P r)} wh :
  Forall P wh → filter P wh = wh.
Proof.
  induction 1 as [|r wh Hr _ IH]; [done|].
  by rewrite filter_cons_True, IH.
Qed.

(** The cascade goes through and leaves the database without the item and
    without its wear rows: the trigger finds no item to update. *)
Lemma delete_clothing_item_spec k now d :
  delete_clothing_item k now d
  = Some (mk_db (delete k (clothing_items d))
                (filter (λ r, clothing_item_id r ≠ k) (wear_history d))).
Proof.
  unfold delete_clothing_item.
  set (d1 := mk_db _ _).
  assert (clothing_items d1 !! k = None) as Hk
    by (subst d1; simpl; apply lookup_delete_eq).
  assert (Forall (λ r, clothing_item_id r = k)
            (filter (λ r, clothing_item_id r = k) (wear_history d))) as Hall.
  { apply Forall_forall. intros r Hr. by apply list_elem_of_filter in Hr as [? _]. }
  clearbody d1. revert d1 Hk.
  induction Hall as [|old olds Hold _ IH]; intros d1 Hk; cbn [foldl]; [done|].
  cbn [mbind option_bind].
  rewrite trigger_absent by (by rewrite Hold).
  by apply IH.
Qed.

End Deletion.

(** X2: with distinct ids, deleting a wear row of an item whose
    [times_worn - 1] is in the range of the column goes through and removes
    exactly that row from the history, and the trigger leaves the item with
    [times_worn] one lower (not below 0) and with [last_worn_date] equal to
    the greatest date among the wear rows of the item that remain (absent
    when none of them has a date). *)
Theorem deletion_recomputes_last_worn_date (d : Schema.db) (now : Z)
    (old : Schema.wear_history_row) (ci : Schema.clothing_items_row) :
  SchemaExt.unique_ids d →
  old ∈ Schema.wear_history d →
  Schema.clothing_items d !! Schema.clothing_item_id old = Some ci →
  Props.fits (Schema.times_worn ci - 1) →
  ∃ d',
    Schema.delete_wear_history (Schema.wh_id old) now d = Some d' ∧
    (∀ r, r ∈ Schema.wear_history d' ↔ r ∈ Schema.wear_history d ∧ r ≠ old) ∧
    S (length (Schema.wear_history d')) = length (Schema.wear_history d) ∧
    ∃ ci', Schema.clothing_items d' !! Schema.clothing_item_id old = Some ci' ∧
           Schema.times_worn ci' = Z.max (Schema.times_worn ci - 1) 0 ∧
           Schema.last_worn_date ci'
           = Schema.max_date_worn (Schema.wear_history d')
               (Schema.clothing_item_id old).
Proof.
  intros Hnd Hin Hci Hfits.
  rewrite delete_wear_history_row by done.
  set (d0 := Schema.mk_db _ _).
  destruct (trigger_delete_lookup old now d0 ci Hci Hfits)
    as (d' & Hd' & Hwh & Hl).
  exists d'. split; [done|]. rewrite Hwh. subst d0. simpl.
  split; [|split].
  - intros r. rewrite list_elem_of_filter. split.
    + intros [Hid Hr]. split; [done|]. by intros ->.
    + intros [Hr Hne]. split; [|done].
      intros Hid. apply Hne. by eapply same_id_same_row.
  - by rewrite (filter_other_ids _ old Hnd Hin) at 2.
  - rewrite Hl. simpl. eauto.
Qed.

(** An instance: two wears of one item, the later of them deleted. *)
Lemma deletion_recomputes_last_worn_date_witness :
  let d := Schema.run_statements
             (Examples.one_item (Examples.shirt 0 None None))
             [Schema.InsertWear (Examples.wear (Some Examples.d_2024_01_01)) 1;
              Schema.InsertWear (Examples.wear (Some Examples.d_2024_03_15)) 2] in
  let old := Schema.mk_wear 2 7 1 (Some Examples.d_2024_03_15) None 2 in
  ∃ d',
    Schema.delete_wear_history 2 3 d = Some d' ∧
    (∀ r, r ∈ Schema.wear_history d' ↔ r ∈ Schema.wear_history d ∧ r ≠ old) ∧
    S (length (Schema.wear_history d')) = length (Schema.wear_history d) ∧
    ∃ ci', Schema.clothing_items d' !! 1%positive = Some ci' ∧
           Schema.times_worn ci' = Z.max (2 - 1) 0 ∧
           Schema.last_worn_date ci'
           = Schema.max_date_worn (Schema.wear_history d') 1.
Proof.
  apply (deletion_recomputes_last_worn_date
           (Schema.run_statements
              (Examples.one_item (Examples.shirt 0 None None))
              [Schema.InsertWear (Examples.wear (Some Examples.d_2024_01_01)) 1;
               Schema.InsertWear (Examples.wear (Some Examples.d_2024_03_15)) 2])
           3 (Schema.mk_wear 2 7 1 (Some Examples.d_2024_03_15) None 2)
           (Schema.set_stats 2 (Some Examples.d_2024_03_15) 2
              (Examples.shirt 0 None None))).
  - unfold SchemaExt.unique_ids. apply (bool_decide_unpack _).
    vm_compute. exact I.
  - vm_compute. apply list_elem_of_further, list_elem_of_here.
  - reflexivity.
  - unfold Props.fits, Schema.INT_MIN, Schema.INT_MAX. simpl. lia.
Defined.

(** X3: recording a wear on an item whose counter is not negative and below
    the end of the range of the column, and then deleting the row just
    inserted, gives back the wear history and the counter as they were;
    [last_worn_date] comes back as the greatest date of the history of the
    item, and no other column of the item has changed but [updated_at]. *)
Theorem insert_then_delete_restores (d : Schema.db) (e : Schema.wear_entry)
    (now now' : Z) (ci : Schema.clothing_items_row) :
  SchemaExt.unique_ids d →
  Schema.clothing_items d !! Schema.e_clothing_item_id e = Some ci →
  0 ≤ Schema.times_worn ci < Schema.INT_MAX →
  ∃ d1 new d2,
    Schema.insert_wear_history e now d = Some d1 ∧
    last (Schema.wear_history d1) = Some new ∧
    Schema.delete_wear_history (Schema.wh_id new) now' d1 = Some d2 ∧
    Schema.wear_history d2 = Schema.wear_history d ∧
    ∃ ci2,
      Schema.clothing_items d2 !! Schema.e_clothing_item_id e = Some ci2 ∧
      Schema.times_worn ci2 = Schema.times_worn ci ∧
      Schema.last_worn_date ci2
      = Schema.max_date_worn (Schema.wear_history d)
          (Schema.e_clothing_item_id e) ∧
      SchemaExt.same_details ci ci2.
Proof.
  intros Hnd Hci [Hpos Hmax]. unfold Schema.INT_MAX in Hmax.
  destruct (insert_wear_history_is_Some e now d ci Hci) as [d1 Hd1];
    [unfold Props.fits, Schema.INT_MIN, Schema.INT_MAX; lia|].
  pose proof (insert_wear_history_items _ _ _ _ Hd1) as Hitems.
  pose proof (insert_wear_history_log _ _ _ _ Hd1) as Hlog.
  pose proof (unique_ids_insert _ _ _ _ Hd1 Hnd) as Hnd1.
  set (new := Schema.mk_wear _ _ _ _ _ _) in Hlog.
  assert (Schema.clothing_item_id new = Schema.e_clothing_item_id e) as Hcid
    by done.
  assert (Schema.clothing_items d1 !! Schema.clothing_item_id new
          = Some (Props.bump (Schema.e_date_worn e) now ci)) as Hci1
    by (by rewrite Hcid, Hitems, lookup_alter_eq, Hci).
  assert (new ∈ Schema.wear_history d1) as Hin.
  { rewrite Hlog. apply elem_of_app. right. by apply list_elem_of_singleton. }
  assert (filter (λ r, Schema.wh_id r ≠ Schema.wh_id new)
            (Schema.wear_history d1) = Schema.wear_history d) as Hrest.
  { rewrite Hlog, filter_app, filter_cons_False, filter_nil, app_nil_r
      by (intros H; by apply H).
    apply filter_keeps_all, Forall_forall. intros r Hr Heq.
    apply (infinite_is_fresh (Schema.wh_id <$> Schema.wear_history d)).
    subst new. simpl in Heq. rewrite <- Heq. by apply list_elem_of_fmap_2. }
  clearbody new.
  set (d0 := Schema.mk_db (Schema.clothing_items d1) (Schema.wear_history d)).
  destruct (trigger_delete_lookup new now' d0 _ Hci1) as (d2 & Hd2 & Hwh & Hl).
  { unfold Props.fits, Schema.INT_MIN, Schema.INT_MAX. simpl. lia. }
  exists d1, new, d2. split; [done|].
  split; [by rewrite Hlog, last_snoc|].
  split; [by rewrite (delete_wear_history_row now' d1 new Hnd1 Hin), Hrest|].
  split; [done|].
  rewrite <- Hcid, Hl. eexists. split; [reflexivity|]. simpl.
  split; [lia|]. split; [done|]. reflexivity.
Qed.

(** An instance: a wear recorded on an item worn twice, and taken back. *)
Lemma insert_then_delete_restores_witness :
  let d := Examples.one_item
             (Examples.shirt 2 (Some Examples.d_2024_01_01) None) in
  ∃ d1 new d2,
    Schema.insert_wear_history (Examples.wear (Some Examples.d_2024_03_15))
      5 d = Some d1 ∧
    last (Schema.wear_history d1) = Some new ∧
    Schema.delete_wear_history (Schema.wh_id new) 6 d1 = Some d2 ∧
    Schema.wear_history d2 = [] ∧
    ∃ ci2,
      Schema.clothing_items d2 !! 1%positive = Some ci2 ∧
      Schema.times_worn ci2 = 2 ∧
      Schema.last_worn_date ci2 = Schema.max_date_worn [] 1 ∧
      SchemaExt.same_details
        (Examples.shirt 2 (Some Examples.d_2024_01_01) None) ci2.
Proof.
  apply (insert_then_delete_restores
           (Examples.one_item
              (Examples.shirt 2 (Some Examples.d_2024_01_01) None))
           (Examples.wear (Some Examples.d_2024_03_15)) 5 6
           (Examples.shirt 2 (Some Examples.d_2024_01_01) None)).
  - constructor.
  - reflexivity.
  - unfold Schema.INT_MAX. simpl. lia.
Defined.

Section Details.
Import Schema SchemaExt.

Lemma run_statement_details d s k :
  ∃ f : clothing_items_row → clothing_items_row,
    clothing_items (run_statement d s) !! k = f <$> clothing_items d !! k ∧
    ∀ ci, same_details ci (f ci).
Proof.
  destruct s as [e now|w now]; unfold run_statement.
  - destruct (insert_wear_history e now d) as [d'|] eqn:He; simpl.
    + rewrite (insert_wear_history_items _ _ _ _ He), lookup_alter.
      case_decide as Hk.
      * subst k. eexists. split; [reflexivity|]. intros ci. reflexivity.
      * exists id. split; [by rewrite option_fmap_id|done].
    + exists id. split; [by rewrite option_fmap_id|done].
  - destruct (delete_wear_history w now d) as [d'|] eqn:Hd; simpl.
    + apply delete_wear_history_Some in Hd.
      destruct (list_find _ (wear_history d)) as [[i old]|]; subst d'.
      * simpl. rewrite lookup_alter. case_decide as Hk.
        -- subst k. eexists. split; [reflexivity|]. intros ci. reflexivity.
        -- exists id. split; [by rewrite option_fmap_id|done].
      * exists id. split; [by rewrite option_fmap_id|done].
    + exists id. split; [by rewrite option_fmap_id|done].
Qed.

End Details.

(** X4: no sequence of insertions into and deletions from the wear history
    adds or removes an item, and on every item it leaves all the columns
    but [times_worn], [last_worn_date] and [updated_at] as they were. *)
Theorem trigger_keeps_details (ss : list Schema.wear_statement)
    (d : Schema.db) (k : positive) :
  match Schema.clothing_items d !! k with
  | Some ci =>
      ∃ ci', Schema.clothing_items (Schema.run_statements d ss) !! k = Some ci'
             ∧ SchemaExt.same_details ci ci'
  | None => Schema.clothing_items (Schema.run_statements d ss) !! k = None
  end.
Proof.
  revert d. induction ss as [|s ss IH]; intros d; simpl.
  - destruct (Schema.clothing_items d !! k) as [ci|]; [|done].
    exists ci. split; reflexivity.
  - destruct (run_statement_details d s k) as (f & Hf & Hsame).
    specialize (IH (Schema.run_statement d s)). rewrite Hf in IH.
    destruct (Schema.clothing_items d !! k) as [ci|]; simpl in IH; [|done].
    destruct IH as (ci' & Hl & Hd). exists ci'. split; [done|].
    unfold SchemaExt.same_details in *. by rewrite (Hsame ci).
Qed.

(** ** Referential integrity *)

Section Integrity.
Import Schema SchemaExt.

Lemma run_statement_dom d s k :
  is_Some (clothing_items (run_statement d s) !! k)
  ↔ is_Some (clothing_items d !! k).
Proof.
  destruct (run_statement_details d s k) as (f & -> & _).
  by rewrite fmap_is_Some.
Qed.

Lemma run_statement_history d s r :
  r ∈ wear_history (run_statement d s) →
  r ∈ wear_history d ∨ is_Some (clothing_items d !! clothing_item_id r).
Proof.
  destruct s as [e now|w now]; unfold run_statement.
  - destruct (insert_wear_history e now d) as [d'|] eqn:He; simpl; [|by left].
    rewrite (insert_wear_history_log _ _ _ _ He).
    intros [Hr|Hr]%elem_of_app; [by left|right].
    apply list_elem_of_singleton in Hr as ->. simpl.
    unfold insert_wear_history in He.
    destruct (clothing_items d !! e_clothing_item_id e); [by eauto|done].
  - destruct (delete_wear_history w now d) as [d'|] eqn:Hd; simpl; [|by left].
    apply delete_wear_history_Some in Hd.
    destruct (list_find _ (wear_history d)) as [[i old]|]; subst d';
      [|by left].
    simpl. intros Hr. left. by apply list_elem_of_filter in Hr as [_ ?].
Qed.

Lemma run_unique_ids d s : unique_ids d → unique_ids (run d s).
Proof.
  intros Hnd. destruct s as [[e now|w now]|data|k now];
    unfold run, run_statement.
  - destruct (insert_wear_history e now d) as [d'|] eqn:He; simpl; [|done].
    by eapply unique_ids_insert.
  - destruct (delete_wear_history w now d) as [d'|] eqn:Hd; simpl; [|done].
    by eapply unique_ids_delete.
  - done.
  - rewrite delete_clothing_item_spec. unfold unique_ids. simpl.
    by apply unique_ids_filter.
Qed.

Lemma run_references_ok d s : references_ok d → references_ok (run d s).
Proof.
  intros Href. destruct s as [s|data|k now]; unfold run.
  - intros r Hr. apply run_statement_dom.
    destruct (run_statement_history d s r Hr) as [Hin|Hsome]; [|done].
    by apply Href.
  - intros r Hr. simpl in Hr |- *. apply Href in Hr as [ci Hci].
    rewrite lookup_insert_ne; [by eauto|].
    intros Heq. rewrite <- Heq in Hci.
    by rewrite (proj1 (not_elem_of_dom _ _) (is_fresh _)) in Hci.
  - rewrite delete_clothing_item_spec. intros r Hr. simpl in Hr |- *.
    apply list_elem_of_filter in Hr as [Hne Hr].
    rewrite lookup_delete_ne by done. by apply Href.
Qed.

End Integrity.

(** X5: when the ids of the wear rows are distinct and every wear row
    references an item of the database, both still hold after any sequence
    of statements on the two tables: insertions into and deletions from the
    wear history, insertions of items, and deletions of items with their
    cascade. *)
Theorem integrity_is_kept (ss : list SchemaExt.statement) (d : Schema.db) :
  SchemaExt.unique_ids d → SchemaExt.references_ok d →
  SchemaExt.unique_ids (SchemaExt.run_all d ss) ∧
  SchemaExt.references_ok (SchemaExt.run_all d ss).
Proof.
  revert d. induction ss as [|s ss IH]; intros d Hnd Href; simpl; [done|].
  apply IH; [by apply run_unique_ids|by apply run_references_ok].
Qed.

(** An instance: an item is worn, a second item is added, and the first one
    is deleted. *)
Lemma integrity_is_kept_witness :
  let d := SchemaExt.run_all
             (Examples.one_item (Examples.shirt 0 None None))
             [SchemaExt.OnWear
                (Schema.InsertWear (Examples.wear (Some Examples.d_2024_03_15)) 1);
              SchemaExt.InsertItem (Examples.shirt 0 None None);
              SchemaExt.DeleteItem 1 2] in
  SchemaExt.unique_ids d ∧ SchemaExt.references_ok d.
Proof.
  apply (integrity_is_kept
           [SchemaExt.OnWear
              (Schema.InsertWear (Examples.wear (Some Examples.d_2024_03_15)) 1);
            SchemaExt.InsertItem (Examples.shirt 0 None None);
            SchemaExt.DeleteItem 1 2]
           (Examples.one_item (Examples.shirt 0 None None))).
  - constructor.
  - intros r Hr. simpl in Hr. by apply elem_of_nil in Hr.
Defined.

Section View.
Import Schema SchemaExt.

Lemma foldl_min_least x xs :
  foldl Z.min x xs ∈ x :: xs ∧ ∀ y, y ∈ x :: xs → foldl Z.min x xs ≤ y.
Proof.
  revert x. induction xs as [|a xs IH]; intros x; simpl.
  - split; [apply list_elem_of_here|].
    intros y Hy. apply list_elem_of_singleton in Hy. lia.
  - destruct (IH (Z.min x a)) as [Hin Hle]. split.
    + apply elem_of_cons in Hin as [Hin|Hin].
      * rewrite Hin. destruct (Z.min_spec x a) as [[_ ->]|[_ ->]].
        -- apply list_elem_of_here.
        -- apply list_elem_of_further, list_elem_of_here.
      * by do 2 apply list_elem_of_further.
    + intros y Hy.
      assert (foldl Z.min (Z.min x a) xs ≤ Z.min x a) as Hm
        by (apply Hle, list_elem_of_here).
      apply elem_of_cons in Hy as [->|Hy]; [lia|].
      apply elem_of_cons in Hy as [->|Hy]; [lia|].
      by apply Hle, list_elem_of_further.
Qed.

Lemma foldl_max_greatest x xs :
  foldl Z.max x xs ∈ x :: xs ∧ ∀ y, y ∈ x :: xs → y ≤ foldl Z.max x xs.
Proof.
  revert x. induction xs as [|a xs IH]; intros x; simpl.
  - split; [apply list_elem_of_here|].
    intros y Hy. apply list_elem_of_singleton in Hy. lia.
  - destruct (IH (Z.max x a)) as [Hin Hle]. split.
    + apply elem_of_cons in Hin as [Hin|Hin].
      * rewrite Hin. destruct (Z.max_spec x a) as [[_ ->]|[_ ->]].
        -- apply list_elem_of_further, list_elem_of_here.
        -- apply list_elem_of_here.
      * by do 2 apply list_elem_of_further.
    + intros y Hy.
      assert (Z.max x a ≤ foldl Z.max (Z.max x a) xs) as Hm
        by (apply Hle, list_elem_of_here).
      apply elem_of_cons in Hy as [->|Hy]; [lia|].
      apply elem_of_cons in Hy as [->|Hy]; [lia|].
      by apply Hle, list_elem_of_further.
Qed.

End View.

(** X6: for every item the view [clothing_items_with_stats] has one row;
    its [total_wears] counts the dated wear rows of the item only; when
    there is none, [first_worn] and [most_recent_wear] are absent, and
    otherwise [first_worn] is the least and [most_recent_wear] the greatest
    of their dates; its [cost_per_wear] is present exactly when the price
    is present and the item has a dated wear row, in which case it is what
    the division of the database gives for the price and [total_wears]. *)
Theorem view_row_of_item (numeric_div : Q → Z → Q) (d : Schema.db)
    (k : positive) (ci : Schema.clothing_items_row) :
  Schema.clothing_items d !! k = Some ci →
  ∃ row,
    SchemaExt.clothing_items_with_stats numeric_div d !! k = Some row ∧
    SchemaExt.item row = ci ∧
    SchemaExt.total_wears row
    = Z.of_nat (length (SchemaExt.dated (Schema.wear_history d) k)) ∧
    SchemaExt.most_recent_wear row
    = Schema.max_date_worn (Schema.wear_history d) k ∧
    (SchemaExt.dated (Schema.wear_history d) k = [] →
     SchemaExt.first_worn row = None ∧ SchemaExt.most_recent_wear row = None) ∧
    (SchemaExt.dated (Schema.wear_history d) k ≠ [] →
     ∃ f m,
       SchemaExt.first_worn row = Some f ∧
       SchemaExt.most_recent_wear row = Some m ∧
       f ∈ SchemaExt.dated (Schema.wear_history d) k ∧
       m ∈ SchemaExt.dated (Schema.wear_history d) k ∧
       ∀ x, x ∈ SchemaExt.dated (Schema.wear_history d) k → f ≤ x ≤ m) ∧
    (is_Some (SchemaExt.cost_per_wear row)
     ↔ is_Some (Schema.purchase_price ci)
       ∧ SchemaExt.dated (Schema.wear_history d) k ≠ []) ∧
    (∀ p, Schema.purchase_price ci = Some p →
          SchemaExt.dated (Schema.wear_history d) k ≠ [] →
          SchemaExt.cost_per_wear row
          = Some (numeric_div p (SchemaExt.total_wears row))).
Proof.
  intros Hci. unfold SchemaExt.clothing_items_with_stats.
  rewrite map_lookup_imap, Hci. simpl. eexists. split; [reflexivity|].
  unfold SchemaExt.view_row, SchemaExt.wh_group, Schema.max_date_worn.
  fold (SchemaExt.dated (Schema.wear_history d) k).
  destruct (SchemaExt.dated (Schema.wear_history d) k) as [|x xs] eqn:Hd;
    simpl.
  - split; [done|]. split; [done|]. split; [done|]. split; [done|].
    split; [done|]. split; [|done].
    destruct (Schema.purchase_price ci); split;
      try (by intros [? ?]); by intros [_ ?].
  - split; [done|]. split; [done|]. split; [done|]. split; [done|].
    split.
    { intros _. destruct (foldl_min_least x xs) as [Hmin Hleast].
      destruct (foldl_max_greatest x xs) as [Hmax Hgreatest].
      eexists _, _. split; [reflexivity|]. split; [reflexivity|].
      split; [done|]. split; [done|].
      intros y Hy. split; [by apply Hleast|by apply Hgreatest]. }
    split.
    + destruct (Schema.purchase_price ci) as [p|]; split; intros H.
      * split; [by eauto|done].
      * by eauto.
      * by destruct H as [? ?].
      * by destruct H as [[? ?] _].
    + by intros p ->.
Qed.

(** An instance: an item bought for 500 with two dated wears and one
    undated. *)
Lemma view_row_of_item_witness :
  let d := Schema.run_statements
             (Examples.one_item (Examples.shirt 0 None (Some 500%Q)))
             [Schema.InsertWear (Examples.wear (Some Examples.d_2024_01_01)) 1;
              Schema.InsertWear (Examples.wear (Some Examples.d_2024_03_15)) 2;
              Schema.InsertWear (Examples.wear None) 3] in
  let ci := Schema.set_stats 3 (Some Examples.d_2024_03_15) 3
              (Examples.shirt 0 None (Some 500%Q)) in
  ∃ row,
    SchemaExt.clothing_items_with_stats Examples.unrounded d !! 1%positive
    = Some row ∧
    SchemaExt.item row = ci ∧
    SchemaExt.total_wears row
    = Z.of_nat (length (SchemaExt.dated (Schema.wear_history d) 1)) ∧
    SchemaExt.most_recent_wear row
    = Schema.max_date_worn (Schema.wear_history d) 1 ∧
    (SchemaExt.dated (Schema.wear_history d) 1 = [] →
     SchemaExt.first_worn row = None ∧ SchemaExt.most_recent_wear row = None) ∧
    (SchemaExt.dated (Schema.wear_history d) 1 ≠ [] →
     ∃ f m,
       SchemaExt.first_worn row = Some f ∧
       SchemaExt.most_recent_wear row = Some m ∧
       f ∈ SchemaExt.dated (Schema.wear_history d) 1 ∧
       m ∈ SchemaExt.dated (Schema.wear_history d) 1 ∧
       ∀ x, x ∈ SchemaExt.dated (Schema.wear_history d) 1 → f ≤ x ≤ m) ∧
    (is_Some (SchemaExt.cost_per_wear row)
     ↔ is_Some (Schema.purchase_price ci)
       ∧ SchemaExt.dated (Schema.wear_history d) 1 ≠ []) ∧
    (∀ p, Schema.purchase_price ci = Some p →
          SchemaExt.dated (Schema.wear_history d) 1 ≠ [] →
          SchemaExt.cost_per_wear row
          = Some (Examples.unrounded p (SchemaExt.total_wears row))).
Proof.
  apply (view_row_of_item Examples.unrounded
           (Schema.run_statements
              (Examples.one_item (Examples.shirt 0 None (Some 500%Q)))
              [Schema.InsertWear (Examples.wear (Some Examples.d_2024_01_01)) 1;
               Schema.InsertWear (Examples.wear (Some Examples.d_2024_03_15)) 2;
               Schema.InsertWear (Examples.wear None) 3])
           1%positive
           (Schema.set_stats 3 (Some Examples.d_2024_03_15) 3
              (Examples.shirt 0 None (Some 500%Q)))).
  reflexivity.
Defined.

(** ** More on the suggestion cache *)

Section SuggestionContent.
Import Suggestions.

Lemma truthy_spec s : Js.truthy s = true ↔ s ≠ "".
Proof. destruct s; simpl; split; congruence. Qed.

Lemma elem_of_array_from_set x xs : x ∈ Js.array_from_set xs ↔ x ∈ xs.
Proof.
  unfold Js.array_from_set.
  assert (∀ seen,
            x ∈ foldl (λ seen y, if decide (y ∈ seen) then seen
                                  else seen ++ [y]) seen xs
            ↔ x ∈ seen ∨ x ∈ xs) as Hgen.
  { induction xs as [|y xs IH]; intros seen; simpl.
    - split; [by left|]. intros [?|H]; [done|by apply elem_of_nil in H].
    - rewrite IH, elem_of_cons. case_decide as Hy.
      + split; [intros [?|?]; by eauto|].
        intros [?|[->|?]]; by eauto.
      + rewrite elem_of_app, list_elem_of_singleton.
        split; [intros [[?|?]|?]; by eauto|].
        intros [?|[?|?]]; by eauto. }
  rewrite Hgen. split; [|by right].
  intros [H|H]; [by apply elem_of_nil in H|done].
Qed.

Lemma elem_of_sort x xs : x ∈ Js.sort xs ↔ x ∈ xs.
Proof. unfold Js.sort. by rewrite merge_sort_Permutation. Qed.

(** The values of a column that make it into the suggestions: the trimmed
    texts that are not empty. *)
Lemma elem_of_unique_values x col :
  x ∈ unique_values col ↔ x ≠ "" ∧ ∃ s, Some s ∈ col ∧ Js.trim s = x.
Proof.
  unfold unique_values.
  rewrite elem_of_sort, elem_of_array_from_set, list_elem_of_fmap.
  split.
  - intros (s & -> & Hs). apply list_elem_of_omap in Hs as (v & Hv & Hk).
    destruct v as [s'|]; [|done]. simpl in Hk.
    destruct (Js.truthy s' && Js.truthy (Js.trim s')) eqn:Ht; [|done].
    injection Hk as ->. apply andb_true_iff in Ht as [_ Ht].
    split; [by apply truthy_spec|]. by eauto.
  - intros (Hx & s & Hs & <-). exists s. split; [done|].
    apply list_elem_of_omap. exists (Some s). split; [done|]. simpl.
    apply truthy_spec in Hx. rewrite Hx.
    destruct s; [done|]. done.
Qed.

Lemma getSuggestions_queries query now userId forceRefresh st :
  fresh_enough now forceRefresh st = false →
  getSuggestions query now userId forceRefresh st
  = match query userId with
    | QueryError | QueryThrows => alloc (mk_suggestions [] []) st
    | QueryData None | QueryData (Some []) =>
        let '(r, st1) := alloc (mk_suggestions [] []) st in
        (r, mk_state (heap st1) (Some r) now)
    | QueryData (Some items) =>
        let '(r, st1) :=
          alloc (mk_suggestions (unique_values (brand <$> items))
                   (unique_values (subcategory <$> items))) st in
        (r, mk_state (heap st1) (Some r) now)
    end.
Proof.
  intros Hstale. unfold getSuggestions. rewrite Hstale.
  by destruct (suggestionsCache st).
Qed.

End SuggestionContent.

(** X7: when the query is issued and answered with data, the object made
    from it holds, as brands, exactly the trimmed brand texts of the rows
    that are not empty, and likewise for the subcategories; the object is
    cached with the time of the call. *)
Theorem getSuggestions_content
    (query : positive → Suggestions.query_response) (now : Z)
    (userId : positive) (forceRefresh : bool) (st : Suggestions.state)
    (items : option (list Suggestions.item_columns)) :
  query userId = Suggestions.QueryData items →
  Suggestions.fresh_enough now forceRefresh st = false →
  let out := Suggestions.getSuggestions query now userId forceRefresh st in
  Suggestions.suggestionsCache out.2 = Some out.1 ∧
  Suggestions.lastCacheTime out.2 = now ∧
  ∃ o, Suggestions.heap out.2 !! out.1 = Some o ∧
       (∀ x, x ∈ Suggestions.brands o
             ↔ x ≠ "" ∧ ∃ row s, row ∈ default [] items
                                 ∧ Suggestions.brand row = Some s
                                 ∧ Js.trim s = x) ∧
       (∀ x, x ∈ Suggestions.subcategories o
             ↔ x ≠ "" ∧ ∃ row s, row ∈ default [] items
                                 ∧ Suggestions.subcategory row = Some s
                                 ∧ Js.trim s = x).
Proof.
  intros Hq Hstale out. subst out.
  rewrite getSuggestions_queries, Hq by done.
  assert (∀ (f : Suggestions.item_columns → option string) rows x,
            x ∈ Suggestions.unique_values (f <$> rows)
            ↔ x ≠ "" ∧ ∃ row s, row ∈ rows ∧ f row = Some s ∧ Js.trim s = x)
    as Hcol.
  { intros f rows x. rewrite elem_of_unique_values. split.
    - intros (Hx & s & Hs & Ht). split; [done|].
      apply list_elem_of_fmap in Hs as (row & Hrow & Hin). by eauto.
    - intros (Hx & row & s & Hin & Hrow & Ht). split; [done|].
      exists s. split; [|done]. rewrite <- Hrow. by apply list_elem_of_fmap_2. }
  destruct items as [[|row rows]|]; simpl.
  - split; [done|]. split; [done|]. eexists.
    split; [by rewrite lookup_insert_eq|]. simpl.
    split; intros x; (split; [by intros H%elem_of_nil|]);
      by intros (_ & r & s & H%elem_of_nil & _).
  - split; [done|]. split; [done|]. eexists.
    split; [by rewrite lookup_insert_eq|]. simpl.
    split; intros x.
    + apply (Hcol Suggestions.brand (row :: rows)).
    + apply (Hcol Suggestions.subcategory (row :: rows)).
  - split; [done|]. split; [done|]. eexists.
    split; [by rewrite lookup_insert_eq|]. simpl.
    split; intros x; (split; [by intros H%elem_of_nil|]);
      by intros (_ & r & s & H%elem_of_nil & _).
Qed.

(** An instance: a first call answered with three rows. *)
Lemma getSuggestions_content_witness :
  let items := Some [Suggestions.mk_columns (Some " Zara ") (Some "jeans");
                     Suggestions.mk_columns (Some "Acme") None;
                     Suggestions.mk_columns (Some "Zara") (Some "  ")] in
  let out := Suggestions.getSuggestions (λ _, Suggestions.QueryData items)
               1000 7%positive false Suggestions.initial in
  Suggestions.suggestionsCache out.2 = Some out.1 ∧
  Suggestions.lastCacheTime out.2 = 1000 ∧
  ∃ o, Suggestions.heap out.2 !! out.1 = Some o ∧
       (∀ x, x ∈ Suggestions.brands o
             ↔ x ≠ "" ∧ ∃ row s, row ∈ default [] items
                                 ∧ Suggestions.brand row = Some s
                                 ∧ Js.trim s = x) ∧
       (∀ x, x ∈ Suggestions.subcategories o
             ↔ x ≠ "" ∧ ∃ row s, row ∈ default [] items
                                 ∧ Suggestions.subcategory row = Some s
                                 ∧ Js.trim s = x).
Proof.
  apply (getSuggestions_content
           (λ _, Suggestions.QueryData
                   (Some [Suggestions.mk_columns (Some " Zara ") (Some "jeans");
                          Suggestions.mk_columns (Some "Acme") None;
                          Suggestions.mk_columns (Some "Zara") (Some "  ")]))
           1000 7%positive false Suggestions.initial).
  - reflexivity.
  - reflexivity.
Defined.

(** A call whose query is answered with data caches the object it returns,
    with the time of the call. *)
Lemma getSuggestions_caches
    (query : positive → Suggestions.query_response) (now : Z)
    (userId : positive) (forceRefresh : bool) (st : Suggestions.state)
    (items : option (list Suggestions.item_columns)) :
  query userId = Suggestions.QueryData items →
  Suggestions.fresh_enough now forceRefresh st = false →
  let out := Suggestions.getSuggestions query now userId forceRefresh st in
  Suggestions.suggestionsCache out.2 = Some out.1 ∧
  Suggestions.lastCacheTime out.2 = now.
Proof.
  intros Hq Hstale out. subst out.
  rewrite getSuggestions_queries, Hq by done.
  by destruct items as [[|row rows]|].
Qed.

(** X8: after a call that populated the cache at time [t0], every call
    without [forceRefresh] made less than five minutes after [t0], for any
    user and whatever the backend would answer, returns the same object and
    leaves the state as it is. *)
Theorem getSuggestions_served_from_cache
    (query0 query1 : positive → Suggestions.query_response) (t0 t1 : Z)
    (user0 user1 : positive) (forceRefresh : bool) (st : Suggestions.state)
    (items : option (list Suggestions.item_columns)) :
  query0 user0 = Suggestions.QueryData items →
  Suggestions.fresh_enough t0 forceRefresh st = false →
  t1 - t0 < 5 * 60 * 1000 →
  let out := Suggestions.getSuggestions query0 t0 user0 forceRefresh st in
  Suggestions.getSuggestions query1 t1 user1 false out.2 = out.
Proof.
  intros Hq Hstale Ht out.
  destruct (getSuggestions_caches query0 t0 user0 forceRefresh st items
              Hq Hstale) as (Hc & Hl).
  fold out in Hc, Hl. destruct out as [r st1]. simpl in *.
  unfold Suggestions.getSuggestions, Suggestions.fresh_enough.
  rewrite Hc, Hl. simpl.
  unfold Suggestions.CACHE_DURATION.
  by destruct (Z.ltb_spec (t1 - t0) (5 * 60 * 1000)); [|lia].
Qed.

(** An instance: a second call, for another user, four minutes after the
    first, with the backend down. *)
Lemma getSuggestions_served_from_cache_witness :
  let out := Suggestions.getSuggestions
               (λ _, Suggestions.QueryData
                       (Some [Suggestions.mk_columns (Some "Acme") None]))
               1000 7%positive false Suggestions.initial in
  Suggestions.getSuggestions (λ _, Suggestions.QueryError) 241000 8%positive
    false out.2 = out.
Proof.
  apply (getSuggestions_served_from_cache
           (λ _, Suggestions.QueryData
                   (Some [Suggestions.mk_columns (Some "Acme") None]))
           (λ _, Suggestions.QueryError) 1000 241000 7%positive 8%positive
           false Suggestions.initial
           (Some [Suggestions.mk_columns (Some "Acme") None])).
  - reflexivity.
  - reflexivity.
  - lia.
Defined.

Section AddToCache.
Import Suggestions.

(** What [addToSuggestionsCache] does to the cached object when there is
    one and the value is not blank. *)
Lemma addToSuggestionsCache_cached type value st r o :
  suggestionsCache st = Some r → heap st !! r = Some o →
  Js.trim value ≠ "" →
  ∃ o',
    heap (addToSuggestionsCache type value st) !! r = Some o' ∧
    suggestionsCache (addToSuggestionsCache type value st) = Some r ∧
    lastCacheTime (addToSuggestionsCache type value st) = lastCacheTime st ∧
    match type with
    | Brand =>
        (∀ x, x ∈ brands o' ↔ x ∈ brands o ∨ x = Js.trim value) ∧
        subcategories o' = subcategories o
    | Subcategory =>
        (∀ x, x ∈ subcategories o'
              ↔ x ∈ subcategories o ∨ x = Js.trim value) ∧
        brands o' = brands o
    end.
Proof.
  intros Hc Ho Hv. unfold addToSuggestionsCache. rewrite Hc.
  apply truthy_spec in Hv. rewrite Hv. simpl. rewrite Ho.
  destruct type; unfold Js.includes; case_bool_decide as Hin; simpl.
  - exists o. rewrite Ho. split; [done|]. split; [done|]. split; [done|].
    split; [|done]. intros x. split; [by left|]. by intros [?| ->].
  - eexists. rewrite lookup_insert_eq. split; [done|]. split; [done|].
    split; [done|]. simpl. split; [|done]. intros x.
    by rewrite elem_of_sort, elem_of_app, list_elem_of_singleton.
  - exists o. rewrite Ho. split; [done|]. split; [done|]. split; [done|].
    split; [|done]. intros x. split; [by left|]. by intros [?| ->].
  - eexists. rewrite lookup_insert_eq. split; [done|]. split; [done|].
    split; [done|]. simpl. split; [|done]. intros x.
    by rewrite elem_of_sort, elem_of_app, list_elem_of_singleton.
Qed.

End AddToCache.

(** X9: when there is a cache and the value is not blank,
    [addToSuggestionsCache] leaves in the list of its kind exactly the
    values that were there and the trimmed value, leaves the other list,
    the cache reference and the cache timestamp as they were, and adding
    the same value a second time changes nothing; a blank value changes
    nothing at all. *)
Theorem addToSuggestionsCache_adds (type : Suggestions.suggestion_type)
    (value : string) (st : Suggestions.state) (r : positive)
    (o : Suggestions.SuggestionsData) :
  Suggestions.suggestionsCache st = Some r →
  Suggestions.heap st !! r = Some o →
  let st' := Suggestions.addToSuggestionsCache type value st in
  (Js.trim value = "" → st' = st) ∧
  (Js.trim value ≠ "" →
   Suggestions.addToSuggestionsCache type value st' = st' ∧
   Suggestions.suggestionsCache st' = Some r ∧
   Suggestions.lastCacheTime st' = Suggestions.lastCacheTime st ∧
   ∃ o', Suggestions.heap st' !! r = Some o' ∧
         match type with
         | Suggestions.Brand =>
             (∀ x, x ∈ Suggestions.brands o'
                   ↔ x ∈ Suggestions.brands o ∨ x = Js.trim value) ∧
             Suggestions.subcategories o' = Suggestions.subcategories o
         | Suggestions.Subcategory =>
             (∀ x, x ∈ Suggestions.subcategories o'
                   ↔ x ∈ Suggestions.subcategories o ∨ x = Js.trim value) ∧
             Suggestions.brands o' = Suggestions.brands o
         end).
Proof.
  intros Hc Ho st'. split.
  - intros Hv. subst st'. unfold Suggestions.addToSuggestionsCache.
    by rewrite Hc, Hv.
  - intros Hv.
    destruct (addToSuggestionsCache_cached type value st r o Hc Ho Hv)
      as (o' & Ho' & Hc' & Ht' & Hlists).
    fold st' in Ho', Hc', Ht'.
    split; [|by eauto 6].
    unfold Suggestions.addToSuggestionsCache at 1. rewrite Hc'.
    pose proof Hv as Hv'. apply truthy_spec in Hv'. rewrite Hv'. simpl.
    rewrite Ho'.
    destruct type; destruct Hlists as [Hmem _]; unfold Js.includes;
      rewrite bool_decide_eq_true_2 by (apply Hmem; by right); done.
Qed.

(** An instance: a brand typed with spaces around it, added to a cache that
    holds two brands. *)
Lemma addToSuggestionsCache_adds_witness :
  let o := Suggestions.mk_suggestions ["Acme"; "Zara"] ["jeans"] in
  let st := Suggestions.mk_state {[ 1%positive := o ]} (Some 1%positive) 1000 in
  let st' := Suggestions.addToSuggestionsCache Suggestions.Brand " Boss " st in
  (Js.trim " Boss " = "" → st' = st) ∧
  (Js.trim " Boss " ≠ "" →
   Suggestions.addToSuggestionsCache Suggestions.Brand " Boss " st' = st' ∧
   Suggestions.suggestionsCache st' = Some 1%positive ∧
   Suggestions.lastCacheTime st' = 1000 ∧
   ∃ o', Suggestions.heap st' !! 1%positive = Some o' ∧
         (∀ x, x ∈ Suggestions.brands o'
               ↔ x ∈ Suggestions.brands o ∨ x = Js.trim " Boss ") ∧
         Suggestions.subcategories o' = Suggestions.subcategories o).
Proof.
  apply (addToSuggestionsCache_adds Suggestions.Brand " Boss "
           (Suggestions.mk_state
              {[ 1%positive :=
                   Suggestions.mk_suggestions ["Acme"; "Zara"] ["jeans"] ]}
              (Some 1%positive) 1000)
           1%positive
           (Suggestions.mk_suggestions ["Acme"; "Zara"] ["jeans"])).
  - reflexivity.
  - reflexivity.
Defined.

(** X10: after [clearSuggestionsCache] the next [getSuggestions], at any
    time and with or without [forceRefresh], issues the query: it returns a
    new object, none of those already in the store, and what it returns is
    what the backend answers; and [addToSuggestionsCache] no longer changes
    anything. *)
Theorem clearSuggestionsCache_forces_query
    (query : positive → Suggestions.query_response) (now : Z)
    (userId : positive) (forceRefresh : bool) (st : Suggestions.state) :
  let st0 := Suggestions.clearSuggestionsCache st in
  let out := Suggestions.getSuggestions query now userId forceRefresh st0 in
  Suggestions.heap st !! out.1 = None ∧
  (∀ r o, Suggestions.heap st !! r = Some o →
          Suggestions.heap out.2 !! r = Some o) ∧
  (∀ items, query userId = Suggestions.QueryData items →
            Suggestions.suggestionsCache out.2 = Some out.1 ∧
            Suggestions.lastCacheTime out.2 = now) ∧
  (query userId = Suggestions.QueryError
   ∨ query userId = Suggestions.QueryThrows →
   Suggestions.suggestionsCache out.2 = None ∧
   Suggestions.heap out.2 !! out.1 = Some (Suggestions.mk_suggestions [] [])) ∧
  (∀ type value, Suggestions.addToSuggestionsCache type value st0 = st0).
Proof.
  intros st0 out.
  assert (Suggestions.fresh_enough now forceRefresh st0 = false) as Hstale.
  { unfold Suggestions.fresh_enough. simpl. by rewrite andb_false_r. }
  assert (∀ o now',
            let res := (let '(r, st1) := Suggestions.alloc o st0 in
                        (r, Suggestions.mk_state (Suggestions.heap st1)
                              (Some r) now')) in
            Suggestions.heap st !! res.1 = None ∧
            ∀ r o', Suggestions.heap st !! r = Some o' →
                    Suggestions.heap res.2 !! r = Some o') as Hstore.
  { intros o now'. simpl. split; [apply not_elem_of_dom, is_fresh|].
    intros r o' Hr. rewrite lookup_insert_ne; [done|]. intros <-.
    by rewrite (proj1 (not_elem_of_dom _ _) (is_fresh _)) in Hr. }
  assert (∀ o, let res := Suggestions.alloc o st0 in
               Suggestions.heap st !! res.1 = None ∧
               ∀ r o', Suggestions.heap st !! r = Some o' →
                       Suggestions.heap res.2 !! r = Some o') as Halloc.
  { intros o. apply (Hstore o 0). }
  subst out. rewrite getSuggestions_queries by done.
  split; [|split; [|split; [|split]]].
  - destruct (query userId) as [| |[[|i items]|]];
      first [apply Halloc | apply (Hstore _ now)].
  - destruct (query userId) as [| |[[|i items]|]];
      first [apply Halloc | apply (Hstore _ now)].
  - intros items Hq. rewrite Hq. by destruct items as [[|i items]|].
  - intros [Hq|Hq]; rewrite Hq; simpl;
      (split; [done|by rewrite lookup_insert_eq]).
  - done.
Qed.

(** An instance: a populated cache is cleared and the backend is down. *)
Lemma clearSuggestionsCache_forces_query_witness :
  let st := Suggestions.mk_state
              {[ 1%positive := Suggestions.mk_suggestions ["Acme"] [] ]}
              (Some 1%positive) 1000 in
  let query := λ _ : positive, Suggestions.QueryError in
  let st0 := Suggestions.clearSuggestionsCache st in
  let out := Suggestions.getSuggestions query 1001 7%positive false st0 in
  Suggestions.heap st !! out.1 = None ∧
  (∀ r o, Suggestions.heap st !! r = Some o →
          Suggestions.heap out.2 !! r = Some o) ∧
  (∀ items, query 7%positive = Suggestions.QueryData items →
            Suggestions.suggestionsCache out.2 = Some out.1 ∧
            Suggestions.lastCacheTime out.2 = 1001) ∧
  (query 7%positive = Suggestions.QueryError
   ∨ query 7%positive = Suggestions.QueryThrows →
   Suggestions.suggestionsCache out.2 = None ∧
   Suggestions.heap out.2 !! out.1 = Some (Suggestions.mk_suggestions [] [])) ∧
  (∀ type value, Suggestions.addToSuggestionsCache type value st0 = st0).
Proof.
  exact (clearSuggestionsCache_forces_query
           (λ _, Suggestions.QueryError) 1001 7%positive false
           (Suggestions.mk_state
              {[ 1%positive := Suggestions.mk_suggestions ["Acme"] [] ]}
              (Some 1%positive) 1000)).
Defined.

(** X11: [getSubcategorySuggestionsForCategory] returns a list without a
    repeated value and in ascending order that holds exactly the trimmed
    subcategory texts of the rows that are not empty, and the empty list
    when the query fails or has no data. *)
Theorem category_suggestions_ordered
    (query : positive → string → SuggestionsExt.category_response)
    (userId : positive) (category : string) :
  let result :=
    SuggestionsExt.getSubcategorySuggestionsForCategory query userId category in
  Props.ordered result ∧
  (∀ items, query userId category = SuggestionsExt.CategoryData (Some items) →
            ∀ x, x ∈ result ↔ x ≠ "" ∧ ∃ s, Some s ∈ items ∧ Js.trim s = x) ∧
  (query userId category = SuggestionsExt.CategoryError
   ∨ query userId category = SuggestionsExt.CategoryThrows
   ∨ query userId category = SuggestionsExt.CategoryData None →
   result = []).
Proof.
  intros result. subst result.
  unfold SuggestionsExt.getSubcategorySuggestionsForCategory.
  split; [|split].
  - destruct (query userId category) as [| |[items|]];
      first [apply ordered_nil | apply ordered_unique_values].
  - intros items ->. intros x. apply elem_of_unique_values.
  - by intros [->|[->| ->]].
Qed.

(** An instance: three rows of one category. *)
Lemma category_suggestions_ordered_witness :
  let query := λ (_ : positive) (_ : string),
                 SuggestionsExt.CategoryData
                   (Some [Some "jeans"; Some " chinos "; Some "jeans"; None]) in
  let result :=
    SuggestionsExt.getSubcategorySuggestionsForCategory query 7%positive
      "bottoms" in
  Props.ordered result ∧
  (∀ items, query 7%positive "bottoms"
            = SuggestionsExt.CategoryData (Some items) →
            ∀ x, x ∈ result ↔ x ≠ "" ∧ ∃ s, Some s ∈ items ∧ Js.trim s = x) ∧
  (query 7%positive "bottoms" = SuggestionsExt.CategoryError
   ∨ query 7%positive "bottoms" = SuggestionsExt.CategoryThrows
   ∨ query 7%positive "bottoms" = SuggestionsExt.CategoryData None →
   result = []).
Proof.
  exact (category_suggestions_ordered
           (λ _ _, SuggestionsExt.CategoryData
                     (Some [Some "jeans"; Some " chinos "; Some "jeans"; None]))
           7%positive "bottoms").
Defined.

(** ** Uploads and storage paths *)

Section UploadResults.
Import ImageUpload.

Lemma results_from_lookup store userId uris : ∀ n0 i uri,
  uris !! i = Some uri →
  Props.results_from store userId n0 uris !! i
  = Some (uploadImage store (n0 + i) uri userId).
Proof.
  induction uris as [|u uris IH]; intros n0 i uri Hi; [done|].
  destruct i as [|i]; simpl in *.
  - injection Hi as ->. by rewrite Nat.add_0_r.
  - rewrite (IH (S n0) i uri Hi). by rewrite Nat.add_succ_r.
Qed.

Lemma results_from_length store userId uris : ∀ n0,
  length (Props.results_from store userId n0 uris) = length uris.
Proof. induction uris as [|u uris IH]; intros n0; simpl; [done|]. by rewrite IH. Qed.

Lemma uploadImage_shape store n uri userId :
  let r := uploadImage store n uri userId in
  (success r = true ↔ is_Some (url r)) ∧
  (success r = false ↔ is_Some (error r)).
Proof.
  unfold uploadImage. destruct (store n uri userId); simpl;
    (split; split; first [done | by eauto | by intros [? ?]]).
Qed.

End UploadResults.

(** X12: [uploadMultipleImages] makes exactly one upload for each URI, in
    the order of the input: the result at a position is the result of
    uploading the URI at that position, as the next upload of the session;
    every result carries a URL exactly when it is a success and an error
    message exactly when it is a failure. *)
Theorem uploadMultipleImages_results (store : ImageUpload.object_store)
    (uris : list string) (userId : positive) (log : list string) :
  let out := ImageUpload.uploadMultipleImages store uris userId log in
  out.2 = log ++ uris ∧
  length out.1 = length uris ∧
  (∀ i uri, uris !! i = Some uri →
            out.1 !! i
            = Some (ImageUpload.uploadImage store (length log + i) uri userId)) ∧
  Forall (λ r, (ImageUpload.success r = true ↔ is_Some (ImageUpload.url r)) ∧
               (ImageUpload.success r = false
                ↔ is_Some (ImageUpload.error r))) out.1.
Proof.
  intros out. subst out. rewrite uploadMultipleImages_spec. simpl.
  split; [done|]. split; [apply results_from_length|].
  split; [intros i uri Hi; by apply results_from_lookup|].
  generalize (length log). induction uris as [|u uris IH]; intros n; simpl.
  - constructor.
  - constructor; [apply uploadImage_shape|apply IH].
Qed.

(** An instance: three images, the second of which the store refuses. *)
Lemma uploadMultipleImages_results_witness :
  let uris := ["a.jpg"; "b.jpg"; "c.jpg"] in
  let store := AddItem.store Examples.backend in
  let out := ImageUpload.uploadMultipleImages store uris 7%positive [] in
  out.2 = [] ++ uris ∧
  length out.1 = length uris ∧
  (∀ i uri, uris !! i = Some uri →
            out.1 !! i
            = Some (ImageUpload.uploadImage store (0 + i) uri 7%positive)) ∧
  Forall (λ r, (ImageUpload.success r = true ↔ is_Some (ImageUpload.url r)) ∧
               (ImageUpload.success r = false
                ↔ is_Some (ImageUpload.error r))) out.1.
Proof.
  exact (uploadMultipleImages_results (AddItem.store Examples.backend)
           ["a.jpg"; "b.jpg"; "c.jpg"] 7%positive []).
Defined.

Section Splitting.
Import Paths.

Lemma split_not_nil sep s : split sep s ≠ [].
Proof.
  destruct s as [|c r]; simpl; [done|].
  destruct (Ascii.eqb c sep); [done|]. by destruct (split sep r).
Qed.

Lemma split_app sep a b :
  split sep (a +:+ String sep b) = split sep a ++ split sep b.
Proof.
  induction a as [|c a IH]; simpl.
  - by rewrite Ascii.eqb_refl.
  - rewrite IH. destruct (Ascii.eqb c sep); [done|].
    pose proof (split_not_nil sep a). by destruct (split sep a).
Qed.

Lemma split_free sep s : free_of sep s → split sep s = [s].
Proof.
  induction s as [|c s IH]; simpl; [done|]. intros [Hc Hs].
  destruct (Ascii.eqb_spec c sep); [done|]. by rewrite IH.
Qed.

Lemma split_segments_free sep s : Forall (free_of sep) (split sep s).
Proof.
  induction s as [|c s IH]; simpl.
  - by repeat constructor.
  - destruct (Ascii.eqb_spec c sep) as [->|Hne].
    + by constructor.
    + pose proof (split_not_nil sep s).
      destruct (split sep s) as [|seg segs]; [done|].
      inversion IH; subst. by constructor.
Qed.

Lemma join_split sep s : join (String sep "") (split sep s) = s.
Proof.
  unfold join. induction s as [|c s IH]; simpl; [done|].
  destruct (Ascii.eqb_spec c sep) as [->|Hne].
  - pose proof (split_not_nil sep s).
    destruct (split sep s) as [|seg segs] eqn:Hs; [done|].
    simpl in *. by rewrite IH.
  - pose proof (split_not_nil sep s).
    destruct (split sep s) as [|seg segs] eqn:Hs; [done|].
    simpl in *. destruct segs; simpl in *; by rewrite <- IH.
Qed.

Lemma last_split_is_Some sep s : is_Some (last (split sep s)).
Proof.
  pose proof (split_not_nil sep s).
  destruct (split sep s) as [|x l] using rev_ind; [done|].
  rewrite last_snoc. eauto.
Qed.

End Splitting.

(** X13: the extension [uploadImage] gives to a stored file is never empty
    and never contains a dot; for a URI that ends with a dot and a
    non-empty text without dots it is that text; for a URI that ends with a
    dot it is "jpg"; and for a non-empty URI without any dot it is the
    whole URI. *)
Theorem fileExtension_cases (uri : string) :
  Paths.fileExtension uri ≠ "" ∧
  Paths.free_of "." (Paths.fileExtension uri) ∧
  (∀ pre ext, uri = pre +:+ String "." ext →
              Paths.free_of "." ext →
              Paths.fileExtension uri = if Js.truthy ext then ext else "jpg") ∧
  (Paths.free_of "." uri → uri ≠ "" → Paths.fileExtension uri = uri).
Proof.
  unfold Paths.fileExtension. split; [|split; [|split]].
  - destruct (last (Paths.split "." uri)) as [e|]; [|done].
    destruct e; simpl; done.
  - destruct (last (Paths.split "." uri)) as [e|] eqn:He; [|by simpl].
    destruct (Js.truthy e); [|by simpl].
    pose proof (split_segments_free "." uri) as Hall.
    rewrite Forall_forall in Hall. apply Hall.
    apply last_Some in He as [l ->]. apply elem_of_app. right.
    by apply list_elem_of_singleton.
  - intros pre ext -> Hext.
    rewrite split_app, (split_free _ ext Hext), last_snoc. done.
  - intros Hfree Hne. rewrite (split_free _ uri Hfree). simpl.
    apply truthy_spec in Hne. by rewrite Hne.
Qed.

(** An instance: a photo of the camera roll. *)
Lemma fileExtension_cases_witness :
  let uri := "file:///var/mobile/IMG_0042.HEIC" in
  Paths.fileExtension uri ≠ "" ∧
  Paths.free_of "." (Paths.fileExtension uri) ∧
  (∀ pre ext, uri = pre +:+ String "." ext →
              Paths.free_of "." ext →
              Paths.fileExtension uri = if Js.truthy ext then ext else "jpg") ∧
  (Paths.free_of "." uri → uri ≠ "" → Paths.fileExtension uri = uri).
Proof.
  exact (fileExtension_cases "file:///var/mobile/IMG_0042.HEIC").
Defined.

(** X14: the storage path [uploadImage] builds puts the object in the
    folder that carries the id of the user: when the id contains no slash,
    the first segment of the path is the id, whatever the URI, the
    timestamp and the file name are. *)
Theorem filePath_in_user_folder (userId : string) (timestamp : Z)
    (uri : string) (fileName : option string) :
  Paths.free_of "/" userId →
  ∃ rest, Paths.split "/" (Paths.filePath userId timestamp uri fileName)
          = userId :: rest ∧ rest ≠ [].
Proof.
  intros Hfree. unfold Paths.filePath.
  change (userId +:+ "/" +:+ Paths.finalFileName timestamp uri fileName)
    with (userId +:+ String "/" (Paths.finalFileName timestamp uri fileName)).
  rewrite split_app, (split_free _ userId Hfree). simpl.
  eexists. split; [reflexivity|apply split_not_nil].
Qed.

(** An instance: a photo uploaded by a user. *)
Lemma filePath_in_user_folder_witness :
  ∃ rest, Paths.split "/"
            (Paths.filePath "3f2b9c" 1700000000000 "file:///tmp/a.png" None)
          = "3f2b9c" :: rest ∧ rest ≠ [].
Proof.
  apply (filePath_in_user_folder "3f2b9c" 1700000000000 "file:///tmp/a.png"
           None).
  simpl. repeat split; discriminate.
Defined.

(** X15: [getFilePathFromUrl] gives back the storage path of a public URL:
    when the path of the URL is some prefix without a segment
    "clothing-images", then "/clothing-images/", then the storage path, the
    result is the storage path; it is absent when the URL does not parse,
    when no segment of its path is "clothing-images", and when that segment
    is the last one. *)
Theorem getFilePathFromUrl_cases (pathname : string → option string)
    (url : string) :
  (∀ pre path,
     pathname url = Some (pre +:+ "/clothing-images/" +:+ path) →
     "clothing-images" ∉ Paths.split "/" pre →
     Paths.getFilePathFromUrl pathname url = Some path) ∧
  (pathname url = None → Paths.getFilePathFromUrl pathname url = None) ∧
  (∀ p, pathname url = Some p →
        "clothing-images" ∉ Paths.split "/" p →
        Paths.getFilePathFromUrl pathname url = None) ∧
  (∀ pre, pathname url = Some (pre +:+ "/clothing-images") →
          "clothing-images" ∉ Paths.split "/" pre →
          Paths.getFilePathFromUrl pathname url = None).
Proof.
  unfold Paths.getFilePathFromUrl, Paths.indexOf.
  assert (∀ pre rest,
            "clothing-images" ∉ Paths.split "/" pre →
            list_find (λ p, p = "clothing-images")
              (Paths.split "/" pre ++ "clothing-images" :: rest)
            = Some (length (Paths.split "/" pre), "clothing-images")) as Hfind.
  { intros pre rest Hpre. apply list_find_Some.
    split; [by rewrite lookup_app_r, Nat.sub_diag|]. split; [done|].
    intros j y Hj Hlt. rewrite lookup_app_l in Hj by done.
    intros ->. apply Hpre. by eapply list_elem_of_lookup_2. }
  split; [|split; [|split]].
  - intros pre path -> Hpre.
    change (pre +:+ "/clothing-images/" +:+ path)
      with (pre +:+ String "/" ("clothing-images" +:+ String "/" path)).
    rewrite !split_app.
    change (Paths.split "/" "clothing-images") with ["clothing-images"].
    simpl app. rewrite (Hfind pre _ Hpre). simpl.
    rewrite length_app. simpl.
    pose proof (split_not_nil "/" path) as Hne.
    destruct (Nat.ltb_spec (length (Paths.split "/" pre))
                (length (Paths.split "/" pre)
                 + S (length (Paths.split "/" path)) - 1)) as [_|Hge].
    + rewrite drop_app_add. simpl.
      f_equal. apply join_split.
    + destruct (Paths.split "/" path); [done|]. simpl in Hge. lia.
  - by intros ->.
  - intros p -> Hp.
    destruct (list_find _ (Paths.split "/" p)) as [[i x]|] eqn:Hf; [|done].
    apply list_find_Some in Hf as (Hi & -> & _).
    exfalso. apply Hp. by eapply list_elem_of_lookup_2.
  - intros pre -> Hpre.
    change (pre +:+ "/clothing-images")
      with (pre +:+ String "/" "clothing-images").
    rewrite split_app.
    change (Paths.split "/" "clothing-images") with ["clothing-images"].
    rewrite (Hfind pre [] Hpre). simpl. rewrite length_app. simpl.
    by destruct (Nat.ltb_spec (length (Paths.split "/" pre))
                   (length (Paths.split "/" pre) + 1 - 1)); [lia|].
Qed.

(** An instance: the public URL of an object of a user. *)
Lemma getFilePathFromUrl_cases_witness :
  let pathname := λ _ : string,
    Some "/storage/v1/object/public/clothing-images/3f2b9c/image_17.png" in
  let url := "https://x.supabase.co/storage/v1/object/public/clothing-images/3f2b9c/image_17.png" in
  (∀ pre path,
     pathname url = Some (pre +:+ "/clothing-images/" +:+ path) →
     "clothing-images" ∉ Paths.split "/" pre →
     Paths.getFilePathFromUrl pathname url = Some path) ∧
  (pathname url = None → Paths.getFilePathFromUrl pathname url = None) ∧
  (∀ p, pathname url = Some p →
        "clothing-images" ∉ Paths.split "/" p →
        Paths.getFilePathFromUrl pathname url = None) ∧
  (∀ pre, pathname url = Some (pre +:+ "/clothing-images") →
          "clothing-images" ∉ Paths.split "/" pre →
          Paths.getFilePathFromUrl pathname url = None).
Proof.
  exact (getFilePathFromUrl_cases
           (λ _, Some "/storage/v1/object/public/clothing-images/3f2b9c/image_17.png")
           "https://x.supabase.co/storage/v1/object/public/clothing-images/3f2b9c/image_17.png").
Defined.

(** ** More on saving a new item *)

Section Saving.
Import AddItem.

Lemma trimStart_blank s : JsProps.blank s → Js.trimStart s = "".
Proof.
  induction s as [|c s IH]; simpl; [done|]. intros Hall.
  rewrite (Hall c) by apply list_elem_of_here.
  apply IH. intros c' Hc'. apply Hall. by apply list_elem_of_further.
Qed.

Lemma trim_blank s : JsProps.blank s → Js.trim s = "".
Proof. intros Hall. unfold Js.trim. by rewrite trimStart_blank. Qed.

Lemma trimStart_clean s : JsProps.clean (Js.trimStart s).
Proof.
  induction s as [|c s IH]; simpl; [done|].
  by destruct (Js.is_white_space c) eqn:Hc.
Qed.

Lemma trimStart_of_clean s : JsProps.clean s → Js.trimStart s = s.
Proof. destruct s as [|c s]; simpl; [done|]. by intros ->. Qed.

Lemma trimStart_suffix s :
  ∃ pre, s = pre +:+ Js.trimStart s.
Proof.
  induction s as [|c s [pre IH]]; simpl; [by exists ""|].
  destruct (Js.is_white_space c).
  - exists (String c pre).
    change (String c s = String c (pre +:+ Js.trimStart s)). by f_equal.
  - by exists "".
Qed.

Lemma string_app_assoc (a b c : string) : (a +:+ b) +:+ c = a +:+ (b +:+ c).
Proof.
  induction a as [|x a IH]; [done|].
  change (String x ((a +:+ b) +:+ c) = String x (a +:+ (b +:+ c))).
  by rewrite IH.
Qed.

Lemma rev_app_spec s1 s2 : String.rev_app s1 s2 = String.rev s1 +:+ s2.
Proof.
  unfold String.rev. revert s2.
  induction s1 as [|c s1 IH]; intros s2; simpl; [done|].
  rewrite IH, (IH (String c "")). by rewrite string_app_assoc.
Qed.

Lemma rev_cons c s : String.rev (String c s) = String.rev s +:+ String c "".
Proof. unfold String.rev at 1. simpl. by rewrite rev_app_spec. Qed.

Lemma string_app_nil_r s : s +:+ "" = s.
Proof.
  induction s as [|c s IH]; [done|].
  change (String c (s +:+ "") = String c s). by rewrite IH.
Qed.

Lemma rev_append s1 s2 :
  String.rev (s1 +:+ s2) = String.rev s2 +:+ String.rev s1.
Proof.
  induction s1 as [|c s1 IH].
  - change (String.rev s2 = String.rev s2 +:+ ""). by rewrite string_app_nil_r.
  - change (String.rev (String c (s1 +:+ s2))
            = String.rev s2 +:+ String.rev (String c s1)).
    by rewrite !rev_cons, IH, string_app_assoc.
Qed.

Lemma rev_involutive s : String.rev (String.rev s) = s.
Proof.
  induction s as [|c s IH]; [done|].
  by rewrite rev_cons, rev_append, IH.
Qed.

(** Trimming an end of a string that does not start with white space gives
    a string that does not start with white space. *)
Lemma trimEnd_clean s : JsProps.clean s → JsProps.clean (Js.trimEnd s).
Proof.
  intros Hs. unfold Js.trimEnd.
  destruct (trimStart_suffix (String.rev s)) as [pre Hpre].
  assert (s = String.rev (Js.trimStart (String.rev s)) +:+ String.rev pre)
    as Hsplit by (by rewrite <- rev_append, <- Hpre, rev_involutive).
  destruct (String.rev (Js.trimStart (String.rev s))) as [|c r]; [done|].
  rewrite Hsplit in Hs. by simpl in Hs.
Qed.

Lemma trim_idempotent s : Js.trim (Js.trim s) = Js.trim s.
Proof.
  unfold Js.trim.
  pose proof (trimEnd_clean _ (trimStart_clean s)) as Hclean.
  rewrite (trimStart_of_clean _ Hclean).
  unfold Js.trimEnd. rewrite rev_involutive.
  by rewrite (trimStart_of_clean _ (trimStart_clean _)).
Qed.

End Saving.

(** X16: a form whose name is empty or made of white space only, or that
    has no category, or that is submitted while nobody is signed in, is
    turned down with an error alert; nothing is uploaded, and neither the
    database nor the suggestion cache is touched. *)
Theorem handleSave_rejects_incomplete_form (b : AddItem.backend)
    (user : option positive) (item : AddItem.ClothingItem)
    (w : AddItem.world) :
  JsProps.blank (AddItem.name item) ∨ AddItem.category item = ""
    ∨ user = None →
  ∃ m, AddItem.handleSave b user item w = (w, AddItem.error_alert m).
Proof.
  unfold AddItem.handleSave. intros [Hname|[Hcat| ->]].
  - rewrite (trim_blank _ Hname). simpl. eauto.
  - destruct (negb (Js.truthy (Js.trim (AddItem.name item)))); [by eauto|].
    rewrite Hcat. simpl. eauto.
  - destruct (negb (Js.truthy (Js.trim (AddItem.name item)))); [by eauto|].
    destruct (negb (Js.truthy (AddItem.category item))); by eauto.
Qed.

(** An instance: a name made of two spaces and a tab. *)
Lemma handleSave_rejects_incomplete_form_witness :
  let item := AddItem.mk_form (String " " (String " " (String "009" "")))
                "tops" "" "" "" "" "" "" "" "" false false "3" ""
                ["a.jpg"] in
  ∃ m, AddItem.handleSave Examples.backend (Some 7%positive) item
         Examples.empty_world
       = (Examples.empty_world, AddItem.error_alert m).
Proof.
  apply (handleSave_rejects_incomplete_form Examples.backend (Some 7%positive)
           (AddItem.mk_form (String " " (String " " (String "009" "")))
              "tops" "" "" "" "" "" "" "" "" false false "3" "" ["a.jpg"])
           Examples.empty_world).
  left. intros c Hc. simpl in Hc.
  repeat (apply elem_of_cons in Hc as [->|Hc]; [reflexivity|]).
  by apply elem_of_nil in Hc.
Defined.

(** X17: when every upload of a save succeeds, no question is asked: the
    images have been sent in the order of the input and, when the backend
    acknowledges the insert, the new item carries one URL for each image,
    the URLs the store handed out, in that order. *)
Theorem handleSave_keeps_all_uploads (b : AddItem.backend) (userId : positive)
    (item : AddItem.ClothingItem) (w : AddItem.world) :
  Js.truthy (Js.trim (AddItem.name item)) = true →
  Js.truthy (AddItem.category item) = true →
  (∀ n uri, AddItem.store b n uri userId ≠ ImageUpload.Uploaded "") →
  AddItem.images item ≠ [] →
  let n0 := length (AddItem.w_uploads w) in
  let urls := Props.stored_urls (AddItem.store b) userId n0 (AddItem.images item) in
  Props.failed_count (AddItem.store b) userId n0 (AddItem.images item) = 0%nat →
  AddItem.accepts_item b (AddItem.clothingItemData b userId item urls) = true →
  let out := AddItem.handleSave b (Some userId) item w in
  let id := fresh (dom (Schema.clothing_items (AddItem.w_db w))) in
  AddItem.title out.2 ≠ "Upload Error" ∧
  AddItem.w_uploads out.1 = AddItem.w_uploads w ++ AddItem.images item ∧
  length urls = length (AddItem.images item) ∧
  Schema.clothing_items (AddItem.w_db w) !! id = None ∧
  ∃ row, Schema.clothing_items (AddItem.w_db out.1) !! id = Some row ∧
         Schema.image_urls row = Some urls.
Proof.
  intros Hname Hcat Hurl Himages n0 urls Hfailed Hitem out id.
  assert (length urls + 0 = length (AddItem.images item))%nat as Hlen.
  { rewrite <- Hfailed. apply stored_or_failed. }
  set (w1 := AddItem.mk_world (AddItem.w_db w) (AddItem.w_suggestions w)
               (AddItem.w_uploads w ++ AddItem.images item)).
  assert (out = AddItem.proceedWithSave b userId item urls w1) as ->.
  { subst out. unfold AddItem.handleSave. rewrite Hname, Hcat. simpl negb.
    cbv iota.
    destruct (Nat.ltb_spec 0 (length (AddItem.images item))) as [_|Hle];
      [|destruct (AddItem.images item); [done|simpl in Hle; lia]].
    rewrite uploadMultipleImages_spec, failed_results.
    fold n0. rewrite Hfailed. simpl.
    by rewrite successful_results. }
  destruct (proceedWithSave_persists b userId item urls w1 Hitem)
    as (Hfresh & row & Hrow & Himg).
  assert (AddItem.w_uploads (AddItem.proceedWithSave b userId item urls w1).1
          = AddItem.w_uploads w1
          ∧ AddItem.title (AddItem.proceedWithSave b userId item urls w1).2
            ≠ "Upload Error") as [Hup Htitle].
  { unfold AddItem.proceedWithSave. rewrite Hitem. simpl negb. cbv iota.
    unfold Schema.insert_clothing_item.
    destruct (_ && _); [by split|]. by split. }
  split; [done|]. split; [by rewrite Hup|]. split; [lia|].
  split; [done|]. exists row. split; [done|].
  rewrite Himg. destruct (Nat.ltb_spec 0 (length urls)) as [_|Hle]; [done|].
  destruct (AddItem.images item); [done|]. simpl in Hlen. lia.
Qed.

(** An instance: two images that the store accepts. *)
Lemma handleSave_keeps_all_uploads_witness :
  let b := AddItem.mk_backend (λ _, None)
             (λ _ uri _, ImageUpload.Uploaded ("https://cdn.example/" +:+ uri))
             (λ _, true) (λ _, true) 1000 in
  let item := Examples.form "0" ["a.jpg"; "b.jpg"] in
  let urls := ["https://cdn.example/a.jpg"; "https://cdn.example/b.jpg"] in
  let out := AddItem.handleSave b (Some 7%positive) item Examples.empty_world in
  AddItem.title out.2 ≠ "Upload Error" ∧
  AddItem.w_uploads out.1 = [] ++ ["a.jpg"; "b.jpg"] ∧
  length urls = length (AddItem.images item) ∧
  (∅ : gmap positive Schema.clothing_items_row) !! 1%positive = None ∧
  ∃ row, Schema.clothing_items (AddItem.w_db out.1) !! 1%positive = Some row ∧
         Schema.image_urls row = Some urls.
Proof.
  apply (handleSave_keeps_all_uploads
           (AddItem.mk_backend (λ _, None)
              (λ _ uri _, ImageUpload.Uploaded ("https://cdn.example/" +:+ uri))
              (λ _, true) (λ _, true) 1000)
           7%positive (Examples.form "0" ["a.jpg"; "b.jpg"])
           Examples.empty_world).
  - reflexivity.
  - reflexivity.
  - intros n uri. simpl. discriminate.
  - discriminate.
  - reflexivity.
  - reflexivity.
Defined.

(** X18: when the backend refuses the insert of the item, a save writes
    nothing: whatever the form and the uploads, the database and the
    suggestion cache are as before, no success is announced, and pressing
    any button of the alert shown changes nothing either (the images
    already sent to the store stay there). *)
Theorem handleSave_writes_nothing_when_refused (b : AddItem.backend)
    (user : option positive) (item : AddItem.ClothingItem)
    (w : AddItem.world) :
  (∀ data, AddItem.accepts_item b data = false) →
  let out := AddItem.handleSave b user item w in
  AddItem.w_db out.1 = AddItem.w_db w ∧
  AddItem.w_suggestions out.1 = AddItem.w_suggestions w ∧
  AddItem.title out.2 ≠ "Success" ∧
  ∀ btn userId, btn ∈ AddItem.buttons out.2 →
                (AddItem.press b userId item btn out.1).1 = out.1.
Proof.
  intros Hrefuse out.
  assert (∀ userId urls w0,
            AddItem.proceedWithSave b userId item urls w0
            = (w0, AddItem.error_alert "Failed to add item. Please try again."))
    as Hproceed.
  { intros userId urls w0. unfold AddItem.proceedWithSave.
    by rewrite Hrefuse. }
  assert (∀ w0 m, let res := (w0, AddItem.error_alert m) in
            ∀ btn userId, btn ∈ AddItem.buttons res.2 →
              (AddItem.press b userId item btn res.1).1 = res.1) as Herr.
  { intros w0 m res btn userId Hbtn. simpl in Hbtn.
    by apply elem_of_nil in Hbtn. }
  subst out. unfold AddItem.handleSave.
  destruct (negb (Js.truthy (Js.trim (AddItem.name item))));
    [repeat split; [done|apply Herr]|].
  destruct (negb (Js.truthy (AddItem.category item)));
    [repeat split; [done|apply Herr]|].
  destruct user as [userId|]; [|repeat split; [done|apply Herr]].
  destruct (0 <? length (AddItem.images item))%nat.
  - destruct (ImageUpload.uploadMultipleImages _ _ _ _) as [results log].
    destruct (0 <? length (filter _ results))%nat.
    + repeat split; [done|]. simpl. intros btn userId' Hbtn.
      unfold AddItem.press.
      apply elem_of_cons in Hbtn as [->|Hbtn]; [done|].
      apply list_elem_of_singleton in Hbtn as ->. simpl.
      by rewrite Hproceed.
    + rewrite Hproceed. repeat split; [done|apply Herr].
  - rewrite Hproceed. repeat split; [done|apply Herr].
Qed.

(** An instance: a backend that refuses every insert, and three images. *)
Lemma handleSave_writes_nothing_when_refused_witness :
  let b := AddItem.mk_backend (λ _, None)
             (AddItem.store Examples.backend) (λ _, false) (λ _, true) 1000 in
  let item := Examples.form "3" ["a.jpg"; "b.jpg"; "c.jpg"] in
  let out := AddItem.handleSave b (Some 7%positive) item Examples.empty_world in
  AddItem.w_db out.1 = Schema.empty_db ∧
  AddItem.w_suggestions out.1 = Suggestions.initial ∧
  AddItem.title out.2 ≠ "Success" ∧
  ∀ btn userId, btn ∈ AddItem.buttons out.2 →
                (AddItem.press b userId item btn out.1).1 = out.1.
Proof.
  apply (handleSave_writes_nothing_when_refused
           (AddItem.mk_backend (λ _, None)
              (AddItem.store Examples.backend) (λ _, false) (λ _, true) 1000)
           (Some 7%positive) (Examples.form "3" ["a.jpg"; "b.jpg"; "c.jpg"])
           Examples.empty_world).
  intros data. reflexivity.
Defined.

Section SavingMore.
Import AddItem.

(** What a save that the backend acknowledges leaves, when the count does
    not exceed the length an array can have. *)
Lemma proceedWithSave_accepted b userId item imageUrls w :
  accepts_item b (clothingItemData b userId item imageUrls) = true →
  Js.or_zero (Js.parseInt (times_worn item)) < 2 ^ 32 →
  let data := clothingItemData b userId item imageUrls in
  let id := fresh (dom (Schema.clothing_items (w_db w))) in
  let d1 := Schema.mk_db (<[id := data]> (Schema.clothing_items (w_db w)))
              (Schema.wear_history (w_db w)) in
  let timesWorn := Js.or_zero (Js.parseInt (times_worn item)) in
  proceedWithSave b userId item imageUrls w
  = (mk_world
       (if 0 <? timesWorn then
          if accepts_wear b (wearHistoryEntries userId id timesWorn)
          then default d1 (Schema.insert_wear_history_rows
                             (wearHistoryEntries userId id timesWorn)
                             (now b) d1)
          else d1
        else d1)
       (let s1 :=
          if Js.truthy (Js.trim (brand item)) then
            Suggestions.addToSuggestionsCache Suggestions.Brand
              (Js.trim (brand item)) (w_suggestions w)
          else w_suggestions w in
        if Js.truthy (Js.trim (subcategory item)) then
          Suggestions.addToSuggestionsCache Suggestions.Subcategory
            (Js.trim (subcategory item)) s1
        else s1)
       (w_uploads w),
     success_alert).
Proof.
  intros Hitem Hsmall. unfold proceedWithSave. rewrite Hitem.
  simpl negb. cbv iota. unfold Schema.insert_clothing_item.
  destruct (Z.leb_spec (2 ^ 32) (Js.or_zero (Js.parseInt (times_worn item))));
    [lia|].
  by rewrite andb_false_r.
Qed.

End SavingMore.

(** X19: when the backend acknowledges the item but refuses the wear rows
    that seed its count, the save still ends with the success alert: the
    item is there with [times_worn] equal to the declared count, without a
    [last_worn_date], and the wear history is as it was. *)
Theorem refused_seeding_is_not_reported (b : AddItem.backend)
    (userId : positive) (item : AddItem.ClothingItem)
    (imageUrls : list string) (w : AddItem.world) (n : Z) :
  Js.parseInt (AddItem.times_worn item) = Some n →
  0 < n < 2 ^ 32 →
  AddItem.accepts_item b (AddItem.clothingItemData b userId item imageUrls)
    = true →
  (∀ es, AddItem.accepts_wear b es = false) →
  let id := fresh (dom (Schema.clothing_items (AddItem.w_db w))) in
  let out := AddItem.proceedWithSave b userId item imageUrls w in
  out.2 = AddItem.success_alert ∧
  Schema.wear_history (AddItem.w_db out.1)
    = Schema.wear_history (AddItem.w_db w) ∧
  ∃ ci, Schema.clothing_items (AddItem.w_db out.1) !! id = Some ci ∧
        Schema.times_worn ci = n ∧ Schema.last_worn_date ci = None.
Proof.
  intros Hparse [Hlo Hhi] Hitem Hwear id out. subst out.
  assert (Js.or_zero (Js.parseInt (AddItem.times_worn item)) = n) as Hn.
  { rewrite Hparse. simpl. destruct (Z.eqb_spec n 0); [lia|done]. }
  rewrite proceedWithSave_accepted by (done || lia). simpl.
  rewrite Hn, Hwear. destruct (Z.ltb_spec 0 n); [|lia]. simpl.
  split; [done|]. split; [done|].
  eexists. rewrite lookup_insert_eq. split; [reflexivity|]. simpl.
  by rewrite Hn.
Qed.

(** An instance: "3" as the declared count and a backend that refuses the
    wear rows. *)
Lemma refused_seeding_is_not_reported_witness :
  let b := AddItem.mk_backend (λ _, None) (AddItem.store Examples.backend)
             (λ _, true) (λ _, false) 1000 in
  let out := AddItem.proceedWithSave b 7 (Examples.form "3" []) []
               Examples.empty_world in
  out.2 = AddItem.success_alert ∧
  Schema.wear_history (AddItem.w_db out.1) = [] ∧
  ∃ ci, Schema.clothing_items (AddItem.w_db out.1) !! 1%positive = Some ci ∧
        Schema.times_worn ci = 3 ∧ Schema.last_worn_date ci = None.
Proof.
  apply (refused_seeding_is_not_reported
           (AddItem.mk_backend (λ _, None) (AddItem.store Examples.backend)
              (λ _, true) (λ _, false) 1000)
           7 (Examples.form "3" []) [] Examples.empty_world 3).
  - reflexivity.
  - lia.
  - reflexivity.
  - intros es. reflexivity.
Defined.

(** X20: a save that the backend acknowledges adds the brand and the
    subcategory of the form to the cached suggestions: when there is a
    cache, the cached object afterwards holds, as brands, the brands it
    held and the trimmed brand of the form if that is not empty, and
    likewise for the subcategories; the cache reference and timestamp do
    not change. *)
Theorem save_extends_cached_suggestions (b : AddItem.backend)
    (userId : positive) (item : AddItem.ClothingItem)
    (imageUrls : list string) (w : AddItem.world) (r : positive)
    (o : Suggestions.SuggestionsData) :
  Suggestions.suggestionsCache (AddItem.w_suggestions w) = Some r →
  Suggestions.heap (AddItem.w_suggestions w) !! r = Some o →
  AddItem.accepts_item b (AddItem.clothingItemData b userId item imageUrls)
    = true →
  Js.or_zero (Js.parseInt (AddItem.times_worn item)) < 2 ^ 32 →
  let s' := AddItem.w_suggestions
              (AddItem.proceedWithSave b userId item imageUrls w).1 in
  Suggestions.suggestionsCache s' = Some r ∧
  Suggestions.lastCacheTime s'
    = Suggestions.lastCacheTime (AddItem.w_suggestions w) ∧
  ∃ o', Suggestions.heap s' !! r = Some o' ∧
        (∀ x, x ∈ Suggestions.brands o'
              ↔ x ∈ Suggestions.brands o
                ∨ (x = Js.trim (AddItem.brand item) ∧ x ≠ "")) ∧
        (∀ x, x ∈ Suggestions.subcategories o'
              ↔ x ∈ Suggestions.subcategories o
                ∨ (x = Js.trim (AddItem.subcategory item) ∧ x ≠ "")).
Proof.
  intros Hc Ho Hitem Hsmall s'. subst s'.
  rewrite proceedWithSave_accepted by done. simpl.
  set (s := AddItem.w_suggestions w) in *.
  (* the brand *)
  assert (∃ s1 o1,
            s1 = (if Js.truthy (Js.trim (AddItem.brand item)) then
                    Suggestions.addToSuggestionsCache Suggestions.Brand
                      (Js.trim (AddItem.brand item)) s
                  else s) ∧
            Suggestions.suggestionsCache s1 = Some r ∧
            Suggestions.lastCacheTime s1 = Suggestions.lastCacheTime s ∧
            Suggestions.heap s1 !! r = Some o1 ∧
            (∀ x, x ∈ Suggestions.brands o1
                  ↔ x ∈ Suggestions.brands o
                    ∨ (x = Js.trim (AddItem.brand item) ∧ x ≠ "")) ∧
            Suggestions.subcategories o1 = Suggestions.subcategories o)
    as (s1 & o1 & Hs1 & Hc1 & Ht1 & Ho1 & Hb1 & Hsub1).
  { destruct (Js.truthy (Js.trim (AddItem.brand item))) eqn:Hb.
    - apply truthy_spec in Hb.
      destruct (addToSuggestionsCache_cached Suggestions.Brand
                  (Js.trim (AddItem.brand item)) s r o Hc Ho)
        as (o1 & Ho1 & Hc1 & Ht1 & Hm & Hsub);
        [by rewrite trim_idempotent|].
      rewrite trim_idempotent in Hm.
      eexists _, o1. split; [reflexivity|]. repeat split; try done.
      + intros Hx. apply Hm in Hx as [?| ->]; [by left|by right].
      + intros [?|[-> _]]; apply Hm; by eauto.
    - exists s, o. split; [done|]. repeat split; try done; [by left|].
      intros [?|[-> Hne]]; [done|].
      apply truthy_spec in Hne. congruence. }
  rewrite <- Hs1.
  destruct (Js.truthy (Js.trim (AddItem.subcategory item))) eqn:Hsub.
  - apply truthy_spec in Hsub.
    destruct (addToSuggestionsCache_cached Suggestions.Subcategory
                (Js.trim (AddItem.subcategory item)) s1 r o1 Hc1 Ho1)
      as (o2 & Ho2 & Hc2 & Ht2 & Hm & Hbr);
      [by rewrite trim_idempotent|].
    rewrite trim_idempotent in Hm.
    split; [done|]. split; [congruence|].
    exists o2. split; [done|]. split.
    + intros x. rewrite Hbr. apply Hb1.
    + intros x. rewrite Hm, Hsub1. split.
      * intros [?| ->]; [by left|by right].
      * intros [?|[-> _]]; by eauto.
  - split; [done|]. split; [done|].
    exists o1. split; [done|]. split; [done|].
    intros x. rewrite Hsub1. split; [by left|].
    intros [?|[-> Hne]]; [done|].
    apply truthy_spec in Hne. congruence.
Qed.

(** An instance: a brand typed with a trailing space, and a cache that holds
    one brand. *)
Lemma save_extends_cached_suggestions_witness :
  let o := Suggestions.mk_suggestions ["Zara"] [] in
  let w := AddItem.mk_world Schema.empty_db
             (Suggestions.mk_state {[ 1%positive := o ]} (Some 1%positive) 1000)
             [] in
  let item := AddItem.mk_form "Shirt" "tops" "" "Acme " "" "" "" "" "" ""
                false false "0" "" [] in
  let s' := AddItem.w_suggestions
              (AddItem.proceedWithSave Examples.backend 7 item [] w).1 in
  Suggestions.suggestionsCache s' = Some 1%positive ∧
  Suggestions.lastCacheTime s' = 1000 ∧
  ∃ o', Suggestions.heap s' !! 1%positive = Some o' ∧
        (∀ x, x ∈ Suggestions.brands o'
              ↔ x ∈ Suggestions.brands o
                ∨ (x = Js.trim (AddItem.brand item) ∧ x ≠ "")) ∧
        (∀ x, x ∈ Suggestions.subcategories o'
              ↔ x ∈ Suggestions.subcategories o
                ∨ (x = Js.trim (AddItem.subcategory item) ∧ x ≠ "")).
Proof.
  apply (save_extends_cached_suggestions Examples.backend 7
           (AddItem.mk_form "Shirt" "tops" "" "Acme " "" "" "" "" "" ""
              false false "0" "" [])
           []
           (AddItem.mk_world Schema.empty_db
              (Suggestions.mk_state
                 {[ 1%positive := Suggestions.mk_suggestions ["Zara"] [] ]}
                 (Some 1%positive) 1000)
              [])
           1%positive (Suggestions.mk_suggestions ["Zara"] [])).
  - reflexivity.
  - reflexivity.
  - reflexivity.
  - vm_compute. reflexivity.
Defined.

(** ** More on the overview statistics *)

Section Statistics.
Import Overview.

(** The counting loop of the categories. *)
Lemma category_loop_lookup (c : string) items : ∀ counts : gmap string nat,
  foldl (λ counts item,
           <[Schema.category item :=
               (default 0 (counts !! Schema.category item) + 1)%nat]> counts)
        counts items !! c
  = if decide (length (filter (λ i, Schema.category i = c) items) = 0)%nat
    then counts !! c
    else Some (default 0 (counts !! c)
               + length (filter (λ i, Schema.category i = c) items))%nat.
Proof.
  induction items as [|i items IH]; intros counts; simpl; [done|].
  rewrite IH, filter_cons. clear IH.
  set (n := length (filter (λ i0, Schema.category i0 = c) items)).
  destruct (decide (Schema.category i = c)) as [Hc|Hne].
  - rewrite Hc, lookup_insert_eq. simpl. fold n.
    case_decide as Hn; [rewrite Hn|]; f_equal; lia.
  - rewrite lookup_insert_ne by done. done.
Qed.

Lemma total_times_worn_perm items items' : items ≡ₚ items' → ∀ a,
  foldl (λ sum item, sum + worn item) a items
  = foldl (λ sum item, sum + worn item) a items'.
Proof.
  induction 1 as [|x l l' _ IH|x y l|l l' l'' _ IH1 _ IH2]; intros a; simpl.
  - done.
  - apply IH.
  - f_equal. lia.
  - by rewrite IH1.
Qed.

Lemma most_worn_some m items :
  is_Some (foldl most_worn_step (Some m) items).
Proof.
  revert m. induction items as [|i items IH]; intros m; simpl; [by eauto|].
  destruct (worn m <? worn i); apply IH.
Qed.

End Statistics.

(** X21: the category counts of the overview hold, for a category, the
    number of the items of that category, and hold nothing for a category
    that no item has. *)
Theorem categoryCounts_count (items : list Schema.clothing_items_row)
    (c : string) :
  Overview.categoryCounts (Overview.fetchStats items) !! c
  = (if decide (length (filter (λ i, Schema.category i = c) items) = 0)%nat
     then None
     else Some (length (filter (λ i, Schema.category i = c) items))).
Proof.
  simpl. rewrite category_loop_lookup, lookup_empty. simpl.
  by case_decide.
Qed.

(** X22: the number of items, the total of the wears and the category
    counts of the overview do not depend on the order in which the query
    returns the items; the total value, a sum of doubles, does: the prices
    0.1, 0.2 and 0.3 add up to 0.6000000000000001 (the double
    0x1.3333333333334p-1) in this order and to 0.6 (the double
    0x1.3333333333333p-1) in the opposite order. *)
Theorem overview_counts_order_independent
    (items items' : list Schema.clothing_items_row) :
  items ≡ₚ items' →
  Overview.totalItems (Overview.fetchStats items)
    = Overview.totalItems (Overview.fetchStats items') ∧
  Overview.totalTimesWorn (Overview.fetchStats items)
    = Overview.totalTimesWorn (Overview.fetchStats items') ∧
  Overview.categoryCounts (Overview.fetchStats items)
    = Overview.categoryCounts (Overview.fetchStats items') ∧
  let a := Examples.shirt 0 None (Some (1 # 10)) in
  let b := Examples.shirt 0 None (Some (2 # 10)) in
  let c := Examples.shirt 0 None (Some (3 # 10)) in
  Overview.totalValue (Overview.fetchStats [a; b; c])
    = 0x1.3333333333334p-1%float ∧
  Overview.totalValue (Overview.fetchStats [c; b; a])
    = 0x1.3333333333333p-1%float ∧
  PrimFloat.eqb (Overview.totalValue (Overview.fetchStats [a; b; c]))
                (Overview.totalValue (Overview.fetchStats [c; b; a]))
  = false.
Proof.
  intros Hperm. split; [by simpl; rewrite Hperm|].
  split; [by apply total_times_worn_perm|].
  split; [|by vm_compute].
  simpl. apply map_eq. intros c. rewrite !category_loop_lookup.
  assert (length (filter (λ i, Schema.category i = c) items)
          = length (filter (λ i, Schema.category i = c) items')) as ->
    by (by rewrite Hperm).
  done.
Qed.

(** An instance: two items, in either order; their prices, 500 and 200,
    add up to 700. *)
Lemma overview_counts_order_independent_witness :
  let x := Examples.shirt 5 None (Some 500%Q) in
  let y := Examples.shirt 0 None (Some 200%Q) in
  Overview.totalValue (Overview.fetchStats [x; y]) = 700%float ∧
  Overview.totalItems (Overview.fetchStats [x; y])
    = Overview.totalItems (Overview.fetchStats [y; x]) ∧
  Overview.totalTimesWorn (Overview.fetchStats [x; y])
    = Overview.totalTimesWorn (Overview.fetchStats [y; x]) ∧
  Overview.categoryCounts (Overview.fetchStats [x; y])
    = Overview.categoryCounts (Overview.fetchStats [y; x]) ∧
  let a := Examples.shirt 0 None (Some (1 # 10)) in
  let b := Examples.shirt 0 None (Some (2 # 10)) in
  let c := Examples.shirt 0 None (Some (3 # 10)) in
  Overview.totalValue (Overview.fetchStats [a; b; c])
    = 0x1.3333333333334p-1%float ∧
  Overview.totalValue (Overview.fetchStats [c; b; a])
    = 0x1.3333333333333p-1%float ∧
  PrimFloat.eqb (Overview.totalValue (Overview.fetchStats [a; b; c]))
                (Overview.totalValue (Overview.fetchStats [c; b; a]))
  = false.
Proof.
  split; [by vm_compute|].
  apply (overview_counts_order_independent
           [Examples.shirt 5 None (Some 500%Q);
            Examples.shirt 0 None (Some 200%Q)]
           [Examples.shirt 0 None (Some 200%Q);
            Examples.shirt 5 None (Some 500%Q)]).
  apply perm_swap.
Defined.

(** X23: on a list that is not empty the most worn item of the overview is
    the first of the items that carry the greatest [times_worn]: an item
    before which every item has fewer wears and after which no item has
    more; and it is absent exactly when the list is empty. *)
Theorem mostWornItem_first_of_the_greatest
    (items : list Schema.clothing_items_row) :
  (∀ pre m post,
     items = pre ++ m :: post →
     Forall (λ i, Schema.times_worn i < Schema.times_worn m) pre →
     Forall (λ i, Schema.times_worn i ≤ Schema.times_worn m) post →
     Overview.mostWornItem (Overview.fetchStats items)
     = Some (Overview.mk_most_worn (Schema.name m) (Schema.times_worn m))) ∧
  (Overview.mostWornItem (Overview.fetchStats items) = None ↔ items = []).
Proof.
  split.
  - intros pre m post -> Hpre Hpost. simpl.
    rewrite most_worn_first_max; [done| |].
    + eapply Forall_impl; [exact Hpre|]. intros i Hi. simpl in Hi.
      by rewrite !worn_times_worn.
    + eapply Forall_impl; [exact Hpost|]. intros i Hi. simpl in Hi.
      by rewrite !worn_times_worn.
  - split; [|by intros ->].
    destruct items as [|i items]; [done|]. simpl.
    destruct (most_worn_some i items) as [m ->]. done.
Qed.

(** An instance: three items, the second and the third of which share the
    greatest count. *)
Lemma mostWornItem_first_of_the_greatest_witness :
  let items := [Examples.shirt 1 None None;
                Schema.set_stats 4 None 0
                  (Schema.mk_clothing_item 7 "Coat" "outerwear" None None None
                     None None None None None false false 0 None None None 0 0);
                Examples.shirt 4 None None] in
  (∀ pre m post,
     items = pre ++ m :: post →
     Forall (λ i, Schema.times_worn i < Schema.times_worn m) pre →
     Forall (λ i, Schema.times_worn i ≤ Schema.times_worn m) post →
     Overview.mostWornItem (Overview.fetchStats items)
     = Some (Overview.mk_most_worn (Schema.name m) (Schema.times_worn m))) ∧
  (Overview.mostWornItem (Overview.fetchStats items) = None ↔ items = []).
Proof.
  exact (mostWornItem_first_of_the_greatest
           [Examples.shirt 1 None None;
            Schema.set_stats 4 None 0
              (Schema.mk_clothing_item 7 "Coat" "outerwear" None None None
                 None None None None None false false 0 None None None 0 0);
            Examples.shirt 4 None None]).
Defined.

(** ** The quick wear tracker *)



(** ** The photo picker *)

Section Picker.
Import ClothingImagePicker.

Lemma slice0_length n xs : 0 ≤ n → Z.of_nat (length (slice0 n xs)) ≤ n.
Proof.
  intros Hn. unfold slice0. destruct (Z.leb_spec 0 n); [|lia].
  rewrite length_take. lia.
Qed.

Lemma slice0_sublist n xs : slice0 n xs `sublist_of` xs.
Proof. unfold slice0. destruct (0 <=? n); apply sublist_take. Qed.

Lemma slice0_prefix n xs : ∃ k, slice0 n xs = take k xs.
Proof. unfold slice0. destruct (0 <=? n); by eexists. Qed.

Lemma removeImage_shift n index images :
  snd <$> filter (λ p : nat * string, p.1 ≠ index)
            (imap (λ j, pair (n + j)%nat) images)
  = if decide (index < n)%nat then images else delete (index - n)%nat images.
Proof.
  revert n. induction images as [|x images IH]; intros n.
  - simpl. by case_decide.
  - rewrite imap_cons.
    rewrite (imap_ext _ (λ j, pair (S n + j)%nat))
      by (intros; simpl; f_equal; lia).
    rewrite filter_cons. specialize (IH (S n)). cbn [fst].
    rewrite Nat.add_0_r.
    destruct (decide (n ≠ index)) as [Hne|Heq];
      [rewrite fmap_cons|]; rewrite IH; cbn [snd].
    + destruct (decide (index < n)%nat); destruct (decide (index < S n)%nat);
        try lia; [done|].
      replace (index - n)%nat with (S (index - S n)) by lia. done.
    + apply dec_stable in Heq. subst index.
      rewrite decide_True by lia. rewrite decide_False by lia.
      by rewrite Nat.sub_diag.
Qed.

Lemma removeImage_delete index images :
  removeImage index images = delete index images.
Proof.
  unfold removeImage.
  rewrite (imap_ext pair (λ j, pair (0 + j)%nat)) by done.
  rewrite removeImage_shift, decide_False by lia. by rewrite Nat.sub_0_r.
Qed.

Lemma step_length maxImages images e :
  0 ≤ maxImages → Z.of_nat (length images) ≤ maxImages →
  Z.of_nat (length (step maxImages images e)) ≤ maxImages.
Proof.
  intros Hmax Hlen. destruct e as [result|result|index]; simpl.
  - unfold canAddMore.
    destruct (Z.ltb_spec (Z.of_nat (length images)) maxImages); [|done].
    destruct result; simpl; [|done]. rewrite length_app. simpl. lia.
  - destruct (canAddMore images maxImages); [|done].
    destruct result as [[|uri uris]|]; simpl; try done.
    by apply slice0_length.
  - rewrite removeImage_delete.
    assert (length (delete index images) ≤ length images)%nat; [|lia].
    apply sublist_length, sublist_delete.
Qed.

End Picker.

(** X25: the photo picker never holds more images than [maxImages]: from a
    list within the bound, whatever the user does (photos, picks from the
    library of any number of images, removals) and whatever the camera and
    the library return, the list stays within the bound. *)
Theorem picker_respects_maxImages (maxImages : Z) (images : list string)
    (events : list ClothingImagePicker.event) :
  0 ≤ maxImages →
  Z.of_nat (length images) ≤ maxImages →
  Z.of_nat (length (foldl (ClothingImagePicker.step maxImages) images events))
    ≤ maxImages.
Proof.
  intros Hmax. revert images.
  induction events as [|e events IH]; intros images Hlen; simpl; [done|].
  apply IH. by apply step_length.
Qed.

(** An instance: a photo, five images picked at once, a removal and a
    photo, with room for three. *)
Lemma picker_respects_maxImages_witness :
  Z.of_nat
    (length
       (foldl (ClothingImagePicker.step 3) []
          [ClothingImagePicker.Photo (Some "p1");
           ClothingImagePicker.Library (Some ["l1"; "l2"; "l3"; "l4"; "l5"]);
           ClothingImagePicker.Remove 0;
           ClothingImagePicker.Photo (Some "p2")]))
    ≤ 3.
Proof.
  apply (picker_respects_maxImages 3 []
           [ClothingImagePicker.Photo (Some "p1");
            ClothingImagePicker.Library (Some ["l1"; "l2"; "l3"; "l4"; "l5"]);
            ClothingImagePicker.Remove 0;
            ClothingImagePicker.Photo (Some "p2")]).
  - lia.
  - simpl. lia.
Defined.

(** X26: removing the image at a position takes out that image and keeps
    the others in their order: the result is the images before the
    position followed by those after it; a position beyond the end changes
    nothing. A pick from the library keeps the images already there, in
    place, when they are within the bound. *)
Theorem removeImage_and_pick (index : nat) (images : list string)
    (maxImages : Z) (picked : list string) :
  ClothingImagePicker.removeImage index images
    = take index images ++ drop (S index) images ∧
  ((length images ≤ index)%nat →
   ClothingImagePicker.removeImage index images = images) ∧
  (Z.of_nat (length images) ≤ maxImages →
   ∃ added,
     ClothingImagePicker.pickFromLibrary maxImages (Some picked) images
     = images ++ added ∧ added `prefix_of` picked).
Proof.
  rewrite removeImage_delete. split; [apply delete_take_drop|]. split.
  - intros Hge. rewrite delete_take_drop, take_ge, drop_ge by lia.
    by rewrite app_nil_r.
  - intros Hlen. destruct picked as [|uri uris]; simpl.
    + exists []. by rewrite app_nil_r.
    + unfold ClothingImagePicker.slice0.
      destruct (Z.leb_spec 0 maxImages); [|lia].
      rewrite take_app_ge by lia.
      eexists. split; [reflexivity|]. apply prefix_take.
Qed.

(** An instance: a position beyond the end of two images, and a pick of two
    images with room for three. *)
Lemma removeImage_and_pick_witness :
  ClothingImagePicker.removeImage 2 ["a"; "b"]
    = take 2 ["a"; "b"] ++ drop 3 ["a"; "b"] ∧
  ((length ["a"; "b"] ≤ 2)%nat →
   ClothingImagePicker.removeImage 2 ["a"; "b"] = ["a"; "b"]) ∧
  (Z.of_nat (length ["a"; "b"]) ≤ 3 →
   ∃ added,
     ClothingImagePicker.pickFromLibrary 3 (Some ["c"; "d"]) ["a"; "b"]
     = ["a"; "b"] ++ added ∧ added `prefix_of` ["c"; "d"]).
Proof.
  exact (removeImage_and_pick 2 ["a"; "b"] 3 ["c"; "d"]).
Defined.

(** ** The dropdown of suggestions *)

Section Dropdown.
Import SearchableDropdown.

Lemma prefix_spec needle hay :
  String.prefix needle hay = true ↔ ∃ post, hay = needle +:+ post.
Proof.
  revert hay. induction needle as [|c needle IH]; intros hay.
  - split; [intros _; by exists hay|by destruct hay].
  - destruct hay as [|c' hay].
    + split; [done|]. intros [post Hpost].
      change (EmptyString = String c (needle +:+ post)) in Hpost. done.
    + change (String.prefix (String c needle) (String c' hay))
        with (if Ascii.ascii_dec c c' then String.prefix needle hay
              else false).
      destruct (Ascii.ascii_dec c c') as [->|Hne].
      * rewrite IH. split; intros [post Hpost]; exists post.
        -- change (String c' hay = String c' (needle +:+ post)). by f_equal.
        -- change (String c' hay = String c' (needle +:+ post)) in Hpost.
           by injection Hpost.
      * split; [done|]. intros [post Hpost].
        change (String c' hay = String c (needle +:+ post)) in Hpost.
        congruence.
Qed.

Lemma includes_spec needle hay :
  includes needle hay = true ↔ ∃ pre post, hay = pre +:+ needle +:+ post.
Proof.
  induction hay as [|c hay IH].
  - change (includes needle EmptyString)
      with (String.prefix needle EmptyString || false).
    rewrite orb_false_r, prefix_spec. split.
    + intros [post Hpost]. by exists EmptyString, post.
    + intros [pre [post Hpost]]. destruct pre as [|c pre]; [by eauto|].
      change (EmptyString = String c (pre +:+ needle +:+ post)) in Hpost.
      done.
  - change (includes needle (String c hay))
      with (String.prefix needle (String c hay) || includes needle hay).
    rewrite orb_true_iff, IH, prefix_spec. split.
    + intros [[post Hpost]|[pre [post Hpost]]].
      * by exists EmptyString, post.
      * exists (String c pre), post. rewrite Hpost. done.
    + intros [pre [post Hpost]]. destruct pre as [|c' pre].
      * left. by exists post.
      * right. exists pre, post.
        change (String c hay = String c' (pre +:+ needle +:+ post)) in Hpost.
        by injection Hpost.
Qed.

End Dropdown.

(** X27: the dropdown offers suggestions taken from the given ones, in
    their order; each one offered contains the text typed without regard
    to case and is not the text typed itself; with a bound that is not
    negative no more than [maxSuggestions] are offered; the list is shown
    exactly when it is not empty and the input has the focus; and with no
    text typed nothing is offered. *)
Theorem dropdown_offers_matches (value : string) (suggestions : list string)
    (maxSuggestions : Z) (inputFocused : bool) :
  let out := SearchableDropdown.filtered value suggestions maxSuggestions
               inputFocused in
  out.1 `sublist_of` suggestions ∧
  (∀ s, s ∈ out.1 →
     (∃ pre post, SearchableDropdown.toLowerCase s
                  = pre +:+ SearchableDropdown.toLowerCase value +:+ post) ∧
     SearchableDropdown.toLowerCase s ≠ SearchableDropdown.toLowerCase value) ∧
  (0 ≤ maxSuggestions → Z.of_nat (length out.1) ≤ maxSuggestions) ∧
  (out.2 = true ↔ out.1 ≠ [] ∧ inputFocused = true) ∧
  (value = EmptyString → out = ([], false)).
Proof.
  intros out. subst out. unfold SearchableDropdown.filtered.
  destruct (Js.truthy value && (0 <? length suggestions)%nat) eqn:Hgo; simpl.
  - split; [|split; [|split; [|split]]].
    + etrans; [apply slice0_sublist|apply sublist_filter].
    + intros s Hs.
      apply (sublist_subseteq _ _ (slice0_sublist _ _)) in Hs.
      apply list_elem_of_filter in Hs as [Hm _].
      apply andb_true_iff in Hm as [Hin Hne]. split.
      * by apply includes_spec.
      * by apply negb_true_iff, String.eqb_neq in Hne.
    + apply slice0_length.
    + rewrite andb_true_iff. split.
      * intros [Hlen ->]. split; [|done]. intros Hnil.
        by rewrite Hnil in Hlen.
      * intros [Hnil ->]. split; [|done].
        by destruct (ClothingImagePicker.slice0 _ _).
    + intros ->. done.
  - split; [apply sublist_nil_l|].
    split; [intros s Hs; by apply elem_of_nil in Hs|].
    split; [done|]. split; [|done].
    split; [done|by intros [? _]].
Qed.

(** An instance: the text [ni] against three brands, two offered at the
    most. *)
Lemma dropdown_offers_matches_witness :
  let out := SearchableDropdown.filtered "ni" ["Nike"; "Uniqlo"; "Zara"] 2
               true in
  out = (["Nike"; "Uniqlo"], true) ∧
  out.1 `sublist_of` ["Nike"; "Uniqlo"; "Zara"] ∧
  (∀ s, s ∈ out.1 →
     (∃ pre post, SearchableDropdown.toLowerCase s
                  = pre +:+ SearchableDropdown.toLowerCase "ni" +:+ post) ∧
     SearchableDropdown.toLowerCase s ≠ SearchableDropdown.toLowerCase "ni") ∧
  (0 ≤ 2 → Z.of_nat (length out.1) ≤ 2) ∧
  (out.2 = true ↔ out.1 ≠ [] ∧ true = true) ∧
  ("ni" = EmptyString → out = ([], false)).
Proof.
  split; [vm_compute; reflexivity|].
  exact (dropdown_offers_matches "ni" ["Nike"; "Uniqlo"; "Zara"] 2 true).
Defined.

(** ** Editing an item *)

Section Editing.
Import ItemDetailEdit.

Lemma only_edits_refl k d : EditProps.only_edits k d d.
Proof. by repeat split. Qed.

Lemma update_clothing_item_only_edits k u t d :
  EditProps.only_edits k d (update_clothing_item k u t d).1.
Proof.
  unfold update_clothing_item.
  destruct (Schema.clothing_items d !! k) as [r|] eqn:Hk; simpl;
    [|apply only_edits_refl].
  split; [done|]. split; simpl.
  - intros j Hj. by rewrite lookup_insert_ne.
  - by rewrite lookup_insert_eq, Hk.
Qed.

Lemma proceedWithSave_only_edits b k e imageUrls w :
  EditProps.only_edits k (AddItem.w_db w)
    (AddItem.w_db (proceedWithSave b k e imageUrls w).1).
Proof.
  unfold proceedWithSave.
  destruct (negb _); simpl; [apply only_edits_refl|].
  pose proof (update_clothing_item_only_edits k (updateData e imageUrls)
                (now b) (AddItem.w_db w)) as H.
  destruct (update_clothing_item _ _ _ _) as [d' [r'|]]; exact H.
Qed.

Lemma proceedWithSave_saves b k e imageUrls w r :
  accepts_update b k (updateData e imageUrls) = true →
  Schema.clothing_items (AddItem.w_db w) !! k = Some r →
  let out := proceedWithSave b k e imageUrls w in
  out.2 = Some (AddItem.mk_alert "Success" "Item updated successfully!" []) ∧
  Schema.clothing_items (AddItem.w_db out.1) !! k
  = Some (apply_update (updateData e imageUrls) (now b) r) ∧
  AddItem.w_uploads out.1 = AddItem.w_uploads w.
Proof.
  intros Hacc Hk. unfold proceedWithSave, update_clothing_item.
  rewrite Hacc, Hk. simpl. by rewrite lookup_insert_eq.
Qed.

Lemma all_accepted_results store userId uris : ∀ n0,
  (∀ i uri, uris !! i = Some uri →
            Props.accepted (store (n0 + i)%nat uri userId) = true) →
  filter (λ r, ImageUpload.success r = false)
    (Props.results_from store userId n0 uris) = [].
Proof.
  induction uris as [|uri uris IH]; intros n0 Hall; [done|].
  simpl. rewrite filter_cons_False.
  - apply IH. intros i u Hi. specialize (Hall (S i) u Hi).
    by rewrite Nat.add_succ_r in Hall.
  - rewrite success_uploadImage.
    specialize (Hall 0%nat uri eq_refl). rewrite Nat.add_0_r in Hall.
    by rewrite Hall.
Qed.

Lemma some_refused_results store userId uris : ∀ n0 i uri,
  uris !! i = Some uri →
  Props.accepted (store (n0 + i)%nat uri userId) = false →
  (0 < length (filter (λ r, ImageUpload.success r = false)
                 (Props.results_from store userId n0 uris)))%nat.
Proof.
  intros n0 i uri Hi Hrefused.
  assert (ImageUpload.uploadImage store (n0 + i) uri userId
          ∈ filter (λ r, ImageUpload.success r = false)
              (Props.results_from store userId n0 uris)) as Hin.
  { apply list_elem_of_filter. split.
    - by rewrite success_uploadImage.
    - eapply list_elem_of_lookup_2. by apply results_from_lookup. }
  destruct (filter _ _); [by apply elem_of_nil in Hin|simpl; lia].
Qed.

Lemma updateData_image_urls e imageUrls :
  u_image_urls (updateData e imageUrls)
  = if decide (imageUrls = []) then None else Some imageUrls.
Proof. by destruct imageUrls. Qed.

End Editing.

(** X28: an edit of an item, whether it is saved at once, stopped by an
    alert or continued from the alert, changes no more of the database than
    the edited columns of this item: the wear history, [times_worn],
    [last_worn_date], the category, the purchase columns and the other items
    are as before, and no item appears or disappears. *)
Theorem edit_keeps_wear_statistics (b : ItemDetailEdit.backend)
    (user : option Schema.uuid) (k : Schema.uuid)
    (e : ItemDetailEdit.EditedItem) (btn : AddItem.button)
    (w : AddItem.world) :
  EditProps.only_edits k (AddItem.w_db w)
    (AddItem.w_db (ItemDetailEdit.handleSaveEdit b user k e w).1) ∧
  EditProps.only_edits k (AddItem.w_db w)
    (AddItem.w_db (ItemDetailEdit.press b k e btn w).1).
Proof.
  split.
  - unfold ItemDetailEdit.handleSaveEdit.
    destruct user as [userId|]; [|apply only_edits_refl].
    destruct (negb _); [apply only_edits_refl|].
    destruct (0 <? length _)%nat; [|apply proceedWithSave_only_edits].
    rewrite uploadMultipleImages_spec.
    destruct (0 <? length _)%nat; [apply only_edits_refl|].
    apply (proceedWithSave_only_edits b k e _
             (AddItem.mk_world (AddItem.w_db w) (AddItem.w_suggestions w) _)).
  - unfold ItemDetailEdit.press.
    destruct (AddItem.onPress btn) as [[| |]|];
      first [apply proceedWithSave_only_edits | apply only_edits_refl].
Qed.

(** X29: when every local image of the edit form is uploaded, each local
    URI of the form is replaced, in the saved row, by the public URL of the
    upload of the first local image, and the other URLs are kept in place:
    the images uploaded after the first one are stored but none of their
    URLs is saved.  Stated for a signed-in user, a name that is not blank,
    a store that hands out URLs that are not empty, a backend that
    acknowledges the update and an item that exists. *)
Theorem edit_saves_first_upload_for_every_local_image
    (b : ItemDetailEdit.backend) (userId k : Schema.uuid)
    (e : ItemDetailEdit.EditedItem) (w : AddItem.world)
    (r : Schema.clothing_items_row) (first : string) (rest : list string)
    (u0 : string) :
  Js.truthy (Js.trim (ItemDetailEdit.name e)) = true →
  EditProps.localImages e = first :: rest →
  (∀ i uri, EditProps.localImages e !! i = Some uri →
     Props.accepted
       (ItemDetailEdit.store b (length (AddItem.w_uploads w) + i)%nat uri
          userId) = true) →
  ItemDetailEdit.store b (length (AddItem.w_uploads w)) first userId
  = ImageUpload.Uploaded u0 →
  u0 ≠ EmptyString →
  (∀ u, ItemDetailEdit.accepts_update b k u = true) →
  Schema.clothing_items (AddItem.w_db w) !! k = Some r →
  let out := ItemDetailEdit.handleSaveEdit b (Some userId) k e w in
  out.2 = Some (AddItem.mk_alert "Success" "Item updated successfully!" []) ∧
  AddItem.w_uploads out.1 = AddItem.w_uploads w ++ first :: rest ∧
  ∃ r', Schema.clothing_items (AddItem.w_db out.1) !! k = Some r' ∧
        Schema.image_urls r'
        = Some ((λ url, if ItemDetailEdit.is_local url then u0 else url)
                  <$> ItemDetailEdit.image_urls e).
Proof.
  intros Hname Hlocal Hall Hfirst Hu0 Hacc Hk out. subst out.
  unfold ItemDetailEdit.handleSaveEdit. rewrite Hname. simpl.
  fold (EditProps.localImages e). rewrite Hlocal.
  change (0 <? length (first :: rest))%nat with true. cbv iota.
  rewrite uploadMultipleImages_spec, <- Hlocal.
  rewrite all_accepted_results by done.
  change (0 <? length [])%nat with false. cbv iota.
  set (urls := _ <$> ItemDetailEdit.image_urls e).
  assert (urls = (λ url, if ItemDetailEdit.is_local url then u0 else url)
                   <$> ItemDetailEdit.image_urls e) as Hurls.
  { subst urls. apply list_fmap_ext. intros _ url _.
    destruct (ItemDetailEdit.is_local url); [|done].
    rewrite Hlocal. unfold ItemDetailEdit.uploaded_or. simpl.
    rewrite decide_True by (by rewrite success_uploadImage, Hfirst).
    simpl. unfold ImageUpload.uploadImage. rewrite Hfirst. simpl.
    destruct u0; done. }
  assert (urls ≠ []) as Hne.
  { rewrite Hurls. intros Hnil. apply fmap_nil_inv in Hnil.
    unfold EditProps.localImages in Hlocal. by rewrite Hnil in Hlocal. }
  set (w1 := AddItem.mk_world _ _ _).
  destruct (proceedWithSave_saves b k e urls w1 r (Hacc _) Hk)
    as (Halert & Hrow & Hup).
  split; [done|]. split; [by rewrite Hup|].
  eexists. split; [exact Hrow|].
  change (ItemDetailEdit.u_image_urls (ItemDetailEdit.updateData e urls)
          = Some ((λ url, if ItemDetailEdit.is_local url then u0 else url)
                    <$> ItemDetailEdit.image_urls e)).
  rewrite updateData_image_urls, decide_False by done. by rewrite Hurls.
Qed.

(** An instance: a remote image between two local ones. *)
Lemma edit_saves_first_upload_for_every_local_image_witness :
  let e := EditProps.example_form
             ["file:///a.jpg"; "https://cdn.example/old"; "file:///b.jpg"] in
  let out := ItemDetailEdit.handleSaveEdit (EditProps.example_backend [])
               (Some 7%positive) 1%positive e EditProps.example_world in
  out.2 = Some (AddItem.mk_alert "Success" "Item updated successfully!" []) ∧
  AddItem.w_uploads out.1 = [] ++ ["file:///a.jpg"; "file:///b.jpg"] ∧
  ∃ r', Schema.clothing_items (AddItem.w_db out.1) !! 1%positive = Some r' ∧
        Schema.image_urls r'
        = Some ((λ url, if ItemDetailEdit.is_local url
                        then "https://cdn.example/0" else url)
                  <$> ItemDetailEdit.image_urls e).
Proof.
  apply (edit_saves_first_upload_for_every_local_image
           (EditProps.example_backend []) 7%positive 1%positive
           (EditProps.example_form
              ["file:///a.jpg"; "https://cdn.example/old"; "file:///b.jpg"])
           EditProps.example_world
           (Examples.shirt 3 (Some Examples.d_2024_01_01) None)
           "file:///a.jpg" ["file:///b.jpg"] "https://cdn.example/0").
  - reflexivity.
  - reflexivity.
  - intros i uri _. reflexivity.
  - reflexivity.
  - discriminate.
  - intros u. reflexivity.
  - reflexivity.
Defined.

(** X30: when the store refuses one of the local images of the edit form,
    nothing is saved and an alert counts the failures and offers Cancel and
    Continue; Cancel changes nothing; Continue saves the item with the URLs
    of the form that are not local, in their order (no image at all when
    there is none): the images whose upload succeeded are stored but not
    saved.  Stated for a signed-in user and a name that is not blank; the
    part on Continue for a backend that acknowledges the update and an item
    that exists. *)
Theorem edit_with_failed_upload_saves_remote_images_only
    (b : ItemDetailEdit.backend) (userId k : Schema.uuid)
    (e : ItemDetailEdit.EditedItem) (w : AddItem.world)
    (i : nat) (uri : string) :
  Js.truthy (Js.trim (ItemDetailEdit.name e)) = true →
  EditProps.localImages e !! i = Some uri →
  Props.accepted
    (ItemDetailEdit.store b (length (AddItem.w_uploads w) + i)%nat uri userId)
  = false →
  let out := ItemDetailEdit.handleSaveEdit b (Some userId) k e w in
  let failed := Props.failed_count (ItemDetailEdit.store b) userId
                  (length (AddItem.w_uploads w)) (EditProps.localImages e) in
  (0 < failed)%nat ∧
  AddItem.w_db out.1 = AddItem.w_db w ∧
  AddItem.w_suggestions out.1 = AddItem.w_suggestions w ∧
  AddItem.w_uploads out.1 = AddItem.w_uploads w ++ EditProps.localImages e ∧
  ∃ cancel continue,
    out.2 = Some (AddItem.mk_alert "Upload Error"
                    ("Failed to upload " +:+ pretty failed
                       +:+ " image(s). Continue saving anyway?")
                    [cancel; continue]) ∧
    AddItem.text cancel = "Cancel" ∧ AddItem.text continue = "Continue" ∧
    ItemDetailEdit.press b k e cancel out.1 = (out.1, None) ∧
    ∀ r, (∀ u, ItemDetailEdit.accepts_update b k u = true) →
         Schema.clothing_items (AddItem.w_db w) !! k = Some r →
         ∃ r', Schema.clothing_items
                 (AddItem.w_db (ItemDetailEdit.press b k e continue out.1).1)
                 !! k = Some r' ∧
               Schema.image_urls r'
               = (if decide (EditProps.remoteImages e = []) then None
                  else Some (EditProps.remoteImages e)).
Proof.
  intros Hname Hi Hrefused out failed. subst out failed.
  pose proof (some_refused_results _ _ _ _ _ _ Hi Hrefused) as Hfailed.
  rewrite <- failed_results.
  unfold ItemDetailEdit.handleSaveEdit. rewrite Hname. simpl.
  fold (EditProps.localImages e) (EditProps.remoteImages e).
  assert ((0 <? length (EditProps.localImages e))%nat = true) as ->.
  { apply Nat.ltb_lt. apply lookup_lt_Some in Hi. lia. }
  rewrite uploadMultipleImages_spec.
  apply Nat.ltb_lt in Hfailed as Hfailed'. rewrite Hfailed'. simpl.
  split; [done|]. do 3 (split; [done|]).
  eexists _, _. split; [reflexivity|]. do 3 (split; [done|]).
  intros r Hacc Hk. unfold ItemDetailEdit.press. simpl.
  set (w1 := AddItem.mk_world _ _ _).
  destruct (proceedWithSave_saves b k e (EditProps.remoteImages e) w1 r
              (Hacc _) Hk) as (_ & Hrow & _).
  eexists. split; [exact Hrow|].
  apply (updateData_image_urls e (EditProps.remoteImages e)).
Qed.

(** An instance: the first of two uploads is refused. *)
Lemma edit_with_failed_upload_saves_remote_images_only_witness :
  let b := EditProps.example_backend [0%nat] in
  let e := EditProps.example_form
             ["file:///a.jpg"; "https://cdn.example/old"; "file:///b.jpg"] in
  let w := EditProps.example_world in
  let out := ItemDetailEdit.handleSaveEdit b (Some 7%positive) 1%positive e w in
  let failed := Props.failed_count (ItemDetailEdit.store b) 7%positive
                  (length (AddItem.w_uploads w)) (EditProps.localImages e) in
  (0 < failed)%nat ∧
  AddItem.w_db out.1 = AddItem.w_db w ∧
  AddItem.w_suggestions out.1 = AddItem.w_suggestions w ∧
  AddItem.w_uploads out.1 = AddItem.w_uploads w ++ EditProps.localImages e ∧
  ∃ cancel continue,
    out.2 = Some (AddItem.mk_alert "Upload Error"
                    ("Failed to upload " +:+ pretty failed
                       +:+ " image(s). Continue saving anyway?")
                    [cancel; continue]) ∧
    AddItem.text cancel = "Cancel" ∧ AddItem.text continue = "Continue" ∧
    ItemDetailEdit.press b 1%positive e cancel out.1 = (out.1, None) ∧
    ∀ r, (∀ u, ItemDetailEdit.accepts_update b 1%positive u = true) →
         Schema.clothing_items (AddItem.w_db w) !! 1%positive = Some r →
         ∃ r', Schema.clothing_items
                 (AddItem.w_db
                    (ItemDetailEdit.press b 1%positive e continue out.1).1)
                 !! 1%positive = Some r' ∧
               Schema.image_urls r'
               = (if decide (EditProps.remoteImages e = []) then None
                  else Some (EditProps.remoteImages e)).
Proof.
  apply (edit_with_failed_upload_saves_remote_images_only
           (EditProps.example_backend [0%nat]) 7%positive 1%positive
           (EditProps.example_form
              ["file:///a.jpg"; "https://cdn.example/old"; "file:///b.jpg"])
           EditProps.example_world 0%nat "file:///a.jpg").
  - reflexivity.
  - reflexivity.
  - reflexivity.
Defined.
